(** * h3-js (lib/h3core.js): the marshaling layer between JavaScript and the
    H3 engine compiled by Emscripten, embedded in Rocq.

    Conventions of the embedding.
    - A JavaScript number that the code uses as an integer (a 32-bit word of an
      identifier, the result of [parseInt], a count) is a [jsint]: [NaN], an
      infinity, or an integer of [Z].  A number that is a coordinate or an
      arbitrary caller value is an IEEE 754 binary64 [float], the kernel's
      primitive type, which is the JavaScript number type itself.
    - Strings are [string]s of 8-bit characters.
    - The Emscripten heap is a buffer of bytes read and written through the
      typed views HEAP32/HEAPU32 and HEAPF64, little-endian.
    - The engine (the [H3] object of bound C functions) is a record of
      black-box functions on that buffer. *)

From Stdlib Require Import ZArith List String Ascii Bool Lia Floats.
Import ListNotations.

Local Open Scope string_scope.
Local Open Scope list_scope.
Local Open Scope Z_scope.

(* ------------------------------------------------------------------------- *)
(** ** JavaScript values *)

(** Integer-valued numbers and the two special values they can degrade to. *)
Inductive jsint : Type :=
| JNaN
| JInf (negative : bool)
| JInt (z : Z).

(** [VObj] stands for any object (arrays included) or function: where a
    [JSValue] is expected the code only tests it with [typeof] and [===]. *)
Inductive JSValue : Type :=
| VUndefined
| VNull
| VBool (b : bool)
| VNum (x : float)
| VStr (s : string)
| VObj.

Definition typeof (v : JSValue) : string :=
  match v with
  | VUndefined => "undefined"
  | VNull => "object"
  | VBool _ => "boolean"
  | VNum _ => "number"
  | VStr _ => "string"
  | VObj => "object"
  end.

(** ToInt32 and ToUint32 of ECMAScript, for integer-valued numbers. *)
Definition toInt32 (n : jsint) : Z :=
  match n with
  | JInt z => (z + 2 ^ 31) mod 2 ^ 32 - 2 ^ 31
  | _ => 0
  end.

Definition toUint32 (n : jsint) : Z :=
  match n with
  | JInt z => z mod 2 ^ 32
  | _ => 0
  end.

(** An integer as a JavaScript number: exact below 2^53, rounded to the
    nearest binary64 value (ties to even) above, infinite past the largest
    finite value. *)
Definition toNumber (z : Z) : jsint :=
  if Z.abs z <? 2 ^ 53 then JInt z
  else match binary_normalize prec emax z 0 false with
       | S754_finite s m e => JInt (cond_Zopp s (Z.shiftl (Zpos m) e))
       | S754_infinity s => JInf s
       | S754_zero _ => JInt 0
       | S754_nan => JNaN
       end.

Definition jsint_add (a b : jsint) : jsint :=
  match a, b with
  | JInt x, JInt y => toNumber (x + y)
  | JNaN, _ | _, JNaN => JNaN
  | JInf s, JInf t => if Bool.eqb s t then JInf s else JNaN
  | JInf s, _ | _, JInf s => JInf s
  end.

(** [num >= 0] *)
Definition jsint_ge0 (n : jsint) : bool :=
  match n with
  | JInt z => 0 <=? z
  | JInf negative => negb negative
  | JNaN => false
  end.

(* ------------------------------------------------------------------------- *)
(** ** JavaScript string primitives *)

(** [s.substring(a, b)]: both ends clamped to [0, length], swapped when out of
    order. *)
Definition js_substring (s : string) (a b : Z) : string :=
  let len := Z.of_nat (String.length s) in
  let a' := Z.min (Z.max a 0) len in
  let b' := Z.min (Z.max b 0) len in
  let from := Z.min a' b' in
  let to := Z.max a' b' in
  String.substring (Z.to_nat from) (Z.to_nat (to - from)) s.

(** [s.substring(a)] *)
Definition js_substring_from (s : string) (a : Z) : string :=
  js_substring s a (Z.of_nat (String.length s)).

(** [s.charAt(i)]: the empty string when [i] is out of range.  ([s[i]] differs
    only out of range, where it is [undefined]; [parseInt] maps both to NaN.) *)
Definition charAt (s : string) (i : nat) : string :=
  match String.get i s with
  | Some c => String c EmptyString
  | None => EmptyString
  end.

Definition hexDigitValue (c : ascii) : option Z :=
  let n := Z.of_N (N_of_ascii c) in
  if (48 <=? n) && (n <=? 57) then Some (n - 48)
  else if (97 <=? n) && (n <=? 102) then Some (n - 87)
  else if (65 <=? n) && (n <=? 70) then Some (n - 55)
  else None.

Definition hexDigitChar (d : Z) : ascii :=
  ascii_of_N (Z.to_N (if d <? 10 then 48 + d else 87 + d)).

Definition isWhiteSpace (c : ascii) : bool :=
  let n := Z.of_N (N_of_ascii c) in
  ((9 <=? n) && (n <=? 13)) || (n =? 32) || (n =? 160).

Fixpoint trimStart (s : string) : string :=
  match s with
  | String c r => if isWhiteSpace c then trimStart r else s
  | EmptyString => s
  end.

(** The values of the longest prefix of hexadecimal digits. *)
Fixpoint digitsPrefix (s : string) : list Z :=
  match s with
  | String c r =>
      match hexDigitValue c with
      | Some d => d :: digitsPrefix r
      | None => []
      end
  | EmptyString => []
  end.

Definition valueOfDigits (ds : list Z) : Z :=
  fold_left (fun acc d => acc * 16 + d) ds 0.

(** [parseInt(s, 16)]: leading white space, a sign and a [0x] prefix are
    skipped, then the longest run of hexadecimal digits is read; no digit
    gives NaN. *)
Definition parseInt16 (s : string) : jsint :=
  let s1 := trimStart s in
  let '(negative, s2) :=
    match s1 with
    | String "-" r => (true, r)
    | String "+" r => (false, r)
    | _ => (false, s1)
    end in
  let s3 :=
    match s2 with
    | String "0" (String "x" r) => r
    | String "0" (String "X" r) => r
    | _ => s2
    end in
  match digitsPrefix s3 with
  | [] => JNaN
  | ds => toNumber (if negative then - valueOfDigits ds else valueOfDigits ds)
  end.

Fixpoint hexDigitsOf (fuel : nat) (z : Z) (acc : string) : string :=
  match fuel with
  | O => acc
  | S fuel' =>
      let acc' := String (hexDigitChar (z mod 16)) acc in
      if z <? 16 then acc' else hexDigitsOf fuel' (z / 16) acc'
  end.

(** The hexadecimal digits of a non-negative integer, lowercase, no leading
    zero. *)
Definition hexOfZ (z : Z) : string :=
  hexDigitsOf (S (Z.to_nat (Z.log2 z))) z "".

(** [num.toString(16)] *)
Definition toString16 (n : jsint) : string :=
  match n with
  | JNaN => "NaN"
  | JInf negative => if negative then "-Infinity" else "Infinity"
  | JInt z => if z <? 0 then ("-" ++ hexOfZ (- z))%string else hexOfZ z
  end.

(* ------------------------------------------------------------------------- *)
(** ** Utilities and helpers of h3core.js: the identifier codec *)

Definition BASE_16 : Z := 16.

(** The loop of [zeroPad]: [numZeroes] characters '0' are appended one by
    one. *)
Fixpoint zeroes (numZeroes : nat) (outStr : string) : string :=
  match numZeroes with
  | O => outStr
  | S n => zeroes n (outStr ++ "0")%string
  end.

Definition zeroPad (fullLen : Z) (numStr : string) : string :=
  let numZeroes := fullLen - Z.of_nat (String.length numStr) in
  let outStr := zeroes (Z.to_nat numZeroes) "" in
  (outStr ++ numStr)%string.

(** A "split long": the pair [[lower, upper]] of 32-bit halves. *)
Definition h3AddressToSplitLong (h3Address : JSValue) : jsint * jsint :=
  match h3Address with
  | VStr s =>
      let len := Z.of_nat (String.length s) in
      let upper := parseInt16 (js_substring s 0 (len - 8)) in
      let lower := parseInt16 (js_substring_from s (len - 8)) in
      (lower, upper)
  | _ => (JInt 0, JInt 0)
  end.

Definition hexFrom32Bit (num : jsint) : string :=
  if jsint_ge0 num then toString16 num
  else
    (* Handle negative numbers *)
    let num := JInt (Z.land (toInt32 num) 2147483647) in
    let tempStr := zeroPad 8 (toString16 num) in
    let topNum := toString16 (jsint_add (parseInt16 (charAt tempStr 0)) (JInt 8)) in
    (topNum ++ js_substring_from tempStr 1)%string.

Definition splitLongToH3Address (lower upper : jsint) : string :=
  (hexFrom32Bit upper ++ zeroPad 8 (hexFrom32Bit lower))%string.

(** [h3GetResolution] reads the second character of the string; it has no
    access to the engine or to the heap. *)
Definition h3GetResolution (h3Address : JSValue) : jsint :=
  match h3Address with
  | VStr s => parseInt16 (charAt s 1)
  | _ => JInt (-1)
  end.

Definition isLowerHexDigit (c : ascii) : bool :=
  let n := Z.of_N (N_of_ascii c) in
  ((48 <=? n) && (n <=? 57)) || ((97 <=? n) && (n <=? 102)).

Fixpoint allLowerHex (s : string) : bool :=
  match s with
  | String c r => isLowerHexDigit c && allLowerHex r
  | EmptyString => true
  end.

(** Identifier strings as the engine prints them ([%llx]): lowercase
    hexadecimal digits, no leading zero, and a non-zero high word, hence 9 to 16
    digits (15 for a cell, 16 for a directed edge). *)
Definition isIdentifierString (s : string) : bool :=
  (9 <=? String.length s)%nat && (String.length s <=? 16)%nat
  && allLowerHex s
  && match s with
     | String "0" _ => false
     | _ => true
     end.

(* ------------------------------------------------------------------------- *)
(** ** Numbers that are not integers: coordinates, resolutions *)

Local Open Scope float_scope.

Definition Math_PI : float := 0x1.921fb54442d18p+1.

(** An integer below 2^53 in magnitude as a number. *)
Definition floatOfZ (z : Z) : float :=
  SF2Prim (binary_normalize prec emax z 0%Z false).

(** [Math.floor]: the largest integer not above [x]; zeros, infinities and NaN
    are returned as they are. *)
Definition Math_floor (x : float) : float :=
  match Prim2SF x with
  | S754_finite s m e =>
      if (0 <=? e)%Z then x
      else
        let q := (cond_Zopp s (Zpos m) / 2 ^ (- e))%Z in
        if (q =? 0)%Z then 0 else floatOfZ q
  | _ => x
  end.

(** ToBoolean. *)
Definition truthy (v : JSValue) : bool :=
  match v with
  | VUndefined | VNull => false
  | VBool b => b
  | VNum x => negb ((x =? 0) || is_nan x)
  | VStr s => negb (String.eqb s "")
  | VObj => true
  end.

Definition degsToRads (deg : float) : float := (deg * Math_PI) / 180.

Definition radsToDegs (rad : float) : float := (rad * 180) / Math_PI.

Definition constrainLat (lat : float) : float :=
  if 90 <? lat then lat - 180 else lat.

Definition constrainLng (lng : float) : float :=
  if 180 <? lng then lng - 360 else lng.

(* ------------------------------------------------------------------------- *)
(** ** Errors and results *)

Inductive Error : Type :=
| InvalidResolution (res : JSValue)   (* `Invalid resolution: ${res}` *)
| UnknownUnit (unit : JSValue)        (* `Unknown unit: ${unit}` *)
| ErrorMsg (message : string)         (* new Error(message) *)
| TypeError.                          (* a property of undefined is read *)

Inductive Result (A : Type) : Type :=
| Return (a : A)
| Throw (e : Error).

Arguments Return {A} a.
Arguments Throw {A} e.

Definition validateRes (res : JSValue) : Result unit :=
  match res with
  | VNum x =>
      if (x <? 0) || (15 <? x) || negb (Math_floor x =? x)
      then Throw (InvalidResolution res)
      else Return tt
  | _ => Throw (InvalidResolution res)
  end.

(** The integers 0 to 15, as numbers. *)
Definition resolutions : list float :=
  [0; 1; 2; 3; 4; 5; 6; 7; 8; 9; 10; 11; 12; 13; 14; 15].

Definition isResolution (res : JSValue) : bool :=
  match res with
  | VNum x => existsb (fun k => x =? k) resolutions
  | _ => false
  end.

Local Close Scope float_scope.

(* ------------------------------------------------------------------------- *)
(** ** The Emscripten heap *)

(** The byte at each address. *)
Definition Buffer : Type := Z -> Z.

Fixpoint loadLE (b : Buffer) (addr : Z) (n : nat) : Z :=
  match n with
  | O => 0
  | S k => b addr mod 256 + 256 * loadLE b (addr + 1) k
  end.

Definition storeLE (b : Buffer) (addr : Z) (n : Z) (v : Z) : Buffer :=
  fun a =>
    if (addr <=? a) && (a <? addr + n)
    then (v / 256 ^ (a - addr)) mod 256
    else b a.

(** The IEEE 754 binary64 encoding. *)
Definition float_of_bits (bits : Z) : float :=
  let s := Z.testbit bits 63 in
  let ex := (bits / 2 ^ 52) mod 2 ^ 11 in
  let m := bits mod 2 ^ 52 in
  if ex =? 0 then
    if m =? 0 then (if s then neg_zero else zero)
    else SF2Prim (S754_finite s (Z.to_pos m) (-1074))
  else if ex =? 2047 then
    if m =? 0 then (if s then neg_infinity else infinity) else nan
  else SF2Prim (S754_finite s (Z.to_pos (m + 2 ^ 52)) (ex - 1075)).

Definition bits_of_float (x : float) : Z :=
  let sign (s : bool) := if s then 2 ^ 63 else 0 in
  match Prim2SF x with
  | S754_zero s => sign s
  | S754_infinity s => sign s + 2047 * 2 ^ 52
  | S754_nan => 2047 * 2 ^ 52 + 2 ^ 51
  | S754_finite s m e =>
      if Zpos m <? 2 ^ 52 then sign s + Zpos m
      else sign s + (e + 1075) * 2 ^ 52 + (Zpos m - 2 ^ 52)
  end.

(** What happens to foreign memory and to the engine during a call, in order:
    an allocation with its address and size, a free with its address, an
    engine call with the integer it returned, if it returns one. *)
Inductive Event : Type :=
| EvAlloc (ptr : Z) (bytes : Z)
| EvFree (ptr : Z)
| EvEngine (name : string) (status : option Z).

Record State : Type := mkState {
  buffer : Buffer;
  brk : Z;
  trace : list Event
}.

(** Computations of the marshaling layer: they read and change the state, and
    return or throw. *)
Definition M (A : Type) : Type := State -> Result A * State.

Definition ret {A : Type} (a : A) : M A := fun st => (Return a, st).

Definition throw {A : Type} (e : Error) : M A := fun st => (Throw e, st).

Definition bind {A B : Type} (m : M A) (k : A -> M B) : M B :=
  fun st =>
    match m st with
    | (Return a, st') => k a st'
    | (Throw e, st') => (Throw e, st')
    end.

Notation "x <- m ;; k" := (bind m (fun x => k))
  (at level 61, m at next level, right associativity).
Notation "m ;;; k" := (bind m (fun _ => k))
  (at level 61, right associativity).

Definition getBuffer : M Buffer := fun st => (Return (buffer st), st).

Definition modifyBuffer (f : Buffer -> Buffer) : M unit :=
  fun st => (Return tt, mkState (f (buffer st)) (brk st) (trace st)).

Definition emit (ev : Event) : M unit :=
  fun st => (Return tt, mkState (buffer st) (brk st) (trace st ++ [ev])).

Definition lift {A : Type} (r : Result A) : M A := fun st => (r, st).

(** [for (let i = 0; i < items.length; i++) body(i, items[i])] *)
Fixpoint forEachFrom {A : Type} (i : Z) (items : list A) (body : Z -> A -> M unit) : M unit :=
  match items with
  | [] => ret tt
  | x :: rest => body i x ;;; forEachFrom (i + 1) rest body
  end.

(** [for (let i = 0; i < n; i++) body(i)] *)
Fixpoint forRange (n : nat) (i : Z) (body : Z -> M unit) : M unit :=
  match n with
  | O => ret tt
  | S k => body i ;;; forRange k (i + 1) body
  end.

(** Modelled from the spec: the Emscripten module [C] (out/libh3.1), which is
    not part of lib/h3core.js.  It is the spec's memory gateway: the typed
    views of the heap and [getValue]/[setValue] read and write 32-bit integers
    and 64-bit floats at byte addresses, the allocator is described below.
    The three size constants are those of lib/h3core.js. *)
Module C.

Definition SZ_INT : Z := 4.
Definition SZ_PTR : Z := 4.
Definition SZ_DBL : Z := 8.

(** [HEAP32[index]] *)
Definition HEAP32 (b : Buffer) (index : Z) : Z :=
  let u := loadLE b (4 * index) 4 in
  if u <? 2 ^ 31 then u else u - 2 ^ 32.

(** [HEAPF64[index]] *)
Definition HEAPF64 (b : Buffer) (index : Z) : float :=
  float_of_bits (loadLE b (8 * index) 8).

(** [HEAPU32.set(values, offset)] *)
Fixpoint HEAPU32_set (b : Buffer) (values : list jsint) (offset : Z) : Buffer :=
  match values with
  | [] => b
  | v :: rest => HEAPU32_set (storeLE b (4 * offset) 4 (toUint32 v)) rest (offset + 1)
  end.

(** [HEAPF64.set(values, offset)] *)
Fixpoint HEAPF64_set (b : Buffer) (values : list float) (offset : Z) : Buffer :=
  match values with
  | [] => b
  | v :: rest => HEAPF64_set (storeLE b (8 * offset) 8 (bits_of_float v)) rest (offset + 1)
  end.

(** [getValue(ptr, 'i32')] and [getValue(ptr, 'i8*')]: [HEAP32[ptr >> 2]] *)
Definition getValue_i32 (b : Buffer) (ptr : Z) : Z :=
  HEAP32 b (Z.shiftr ptr 2).

(** [getValue(ptr, 'double')]: [HEAPF64[ptr >> 3]] *)
Definition getValue_double (b : Buffer) (ptr : Z) : float :=
  HEAPF64 b (Z.shiftr ptr 3).

(** [setValue(ptr, value, 'i32')]: [HEAP32[ptr >> 2] = value] *)
Definition setValue_i32 (b : Buffer) (ptr : Z) (value : jsint) : Buffer :=
  storeLE b (4 * Z.shiftr ptr 2) 4 (toUint32 value).

(** Modelled from the spec: the allocator of the Emscripten runtime
    ([_malloc], [_calloc], [_free]), which is not part of lib/h3core.js.  The
    spec's memory gateway allocates a block, allocates a zeroed block and
    frees a block; here every allocation returns a fresh 8-aligned address
    past an 8-byte header and is recorded, and a free is recorded. *)
Definition roundUp8 (n : Z) : Z := 8 * ((n + 7) / 8).

Definition allocate (bytes : Z) (zeroed : bool) : M Z :=
  fun st =>
    let ptr := roundUp8 (brk st) + 8 in
    let b := if zeroed
             then fun a => if (ptr <=? a) && (a <? ptr + bytes) then 0 else buffer st a
             else buffer st in
    (Return ptr,
     mkState b (ptr + Z.max 8 (roundUp8 bytes)) (trace st ++ [EvAlloc ptr bytes])).

Definition _malloc (bytes : Z) : M Z := allocate bytes false.

Definition _calloc (nmemb size : Z) : M Z := allocate (nmemb * size) true.

Definition _free (ptr : Z) : M unit := emit (EvFree ptr).

End C.

(* ------------------------------------------------------------------------- *)
(** ** The engine *)

(** The functions of libh3 bound by [cwrap], as black boxes: each reads and
    writes the heap it is given.  The struct sizes are the engine's own
    ([H3.sizeOfGeofence()] and the like). *)
Module H3.

Record Engine : Type := {
  sizeOfH3Index : Z;
  sizeOfGeoCoord : Z;
  sizeOfGeoBoundary : Z;
  sizeOfGeoPolygon : Z;
  sizeOfGeofence : Z;
  sizeOfLinkedGeoPolygon : Z;
  h3ToGeo : Z -> Z -> Z -> Buffer -> Buffer;
  h3ToGeoBoundary : Z -> Z -> Z -> Buffer -> Buffer;
  maxKringSize : Z -> Z;
  kRing : Z -> Z -> Z -> Z -> Buffer -> Buffer;
  hexRing : Z -> Z -> Z -> Z -> Buffer -> Z * Buffer;
  maxPolyfillSize : Z -> JSValue -> Buffer -> Z;
  polyfill : Z -> JSValue -> Z -> Buffer -> Buffer;
  compact : Z -> Z -> Z -> Buffer -> Z * Buffer;
  maxUncompactSize : Z -> Z -> JSValue -> Buffer -> Z;
  uncompact : Z -> Z -> Z -> Z -> JSValue -> Buffer -> Z * Buffer;
  getH3UnidirectionalEdgeBoundary : Z -> Z -> Z -> Buffer -> Buffer;
  hexAreaM2 : JSValue -> float;
  hexAreaKm2 : JSValue -> float;
  edgeLengthM : JSValue -> float;
  edgeLengthKm : JSValue -> float
}.

End H3.

(** An engine call that returns an integer and may write to the heap. *)
Definition callInt (name : string) (f : Buffer -> Z * Buffer) : M Z :=
  fun st =>
    let '(r, b) := f (buffer st) in
    (Return r, mkState b (brk st) (trace st ++ [EvEngine name (Some r)])).

(** An engine call that returns nothing and may write to the heap. *)
Definition callVoid (name : string) (f : Buffer -> Buffer) : M unit :=
  fun st =>
    (Return tt, mkState (f (buffer st)) (brk st) (trace st ++ [EvEngine name None])).

(** An engine call that returns a number and leaves the heap alone. *)
Definition callNum (name : string) (x : float) : M float :=
  fun st => (Return x, mkState (buffer st) (brk st) (trace st ++ [EvEngine name None])).

(** A point is a two-element array of numbers. *)
Definition Point : Type := (float * float)%type.

Definition coordAt (p : Point) (index : Z) : float :=
  if index =? 0 then fst p else snd p.

(** What [polyfill] accepts: an array of loops, or a single loop. *)
Inductive Coordinates : Type :=
| Loops (loops : list (list Point))
| SingleLoop (loop : list Point).

(** [coordinates.length === 0 || coordinates[0].length === 0]; the first
    element of a single loop is a point, whose length is 2. *)
Definition isEmptyCoordinates (coordinates : Coordinates) : bool :=
  match coordinates with
  | Loops [] => true
  | Loops (first :: _) => (List.length first =? 0)%nat
  | SingleLoop [] => true
  | SingleLoop (_ :: _) => false
  end.

(** [value === s] for a string constant [s] *)
Definition strictEqString (value : JSValue) (s : string) : bool :=
  match value with
  | VStr t => String.eqb t s
  | _ => false
  end.

Module UNITS.
Definition m : string := "m".
Definition km : string := "km".
Definition m2 : string := "m2".
Definition km2 : string := "km2".
End UNITS.

(* ------------------------------------------------------------------------- *)
(** ** lib/h3core.js over an engine *)

Section H3Core.

Variable E : H3.Engine.

Definition SZ_H3INDEX : Z := H3.sizeOfH3Index E.
Definition SZ_GEOCOORD : Z := H3.sizeOfGeoCoord E.
Definition SZ_GEOBOUNDARY : Z := H3.sizeOfGeoBoundary E.
Definition SZ_GEOPOLYGON : Z := H3.sizeOfGeoPolygon E.
Definition SZ_GEOFENCE : Z := H3.sizeOfGeofence E.
Definition SZ_LINKED_GEOPOLYGON : Z := H3.sizeOfLinkedGeoPolygon E.

(** *** Geometry structs *)

Definition polygonArrayToGeofence
    (polygonArray : list Point) (geofence : Z) (isGeoJson : bool) : M Z :=
  let numVerts := Z.of_nat (List.length polygonArray) in
  geoCoordArray <- C._calloc numVerts SZ_GEOCOORD ;;
  (* Support [lng, lat] pairs if GeoJSON is specified *)
  let latIndex := if isGeoJson then 1 else 0 in
  let lngIndex := if isGeoJson then 0 else 1 in
  (* the index [k] is [i / 2] of the source's loop *)
  forEachFrom 0 polygonArray (fun k p =>
    modifyBuffer (fun b =>
      C.HEAPF64_set b
        (map degsToRads
             [constrainLat (coordAt p latIndex); constrainLng (coordAt p lngIndex)])
        (Z.quot geoCoordArray C.SZ_DBL + 2 * k))) ;;;
  modifyBuffer (fun b =>
    C.HEAPU32_set b [JInt numVerts; JInt geoCoordArray] (Z.quot geofence C.SZ_INT)) ;;;
  ret geofence.

Definition coordinatesToGeoPolygon
    (coordinates : list (list Point)) (isGeoJson : bool) : M Z :=
  (* Any loops beyond the first loop are holes *)
  let numHoles := Z.of_nat (List.length coordinates) - 1 in
  (* [C._calloc(SZ_GEOPOLYGON)]: the call has one argument, so the element
     size is [undefined], which the engine boundary reads as 0 *)
  geoPolygon <- C._calloc SZ_GEOPOLYGON 0 ;;
  (* Byte positions within the struct *)
  let geofenceOffset := 0 in
  let numHolesOffset := geofenceOffset + SZ_GEOFENCE in
  let holesOffset := numHolesOffset + C.SZ_INT in
  match coordinates with
  | [] => throw TypeError
  | outer :: rest =>
      (* geofence is first part of struct *)
      polygonArrayToGeofence outer (geoPolygon + geofenceOffset) isGeoJson ;;;
      holes <- (if 0 <? numHoles then
                  holes <- C._calloc numHoles SZ_GEOFENCE ;;
                  forEachFrom 0 rest (fun i loop =>
                    polygonArrayToGeofence loop (holes + SZ_GEOFENCE * i) isGeoJson ;;;
                    ret tt) ;;;
                  ret (JInt holes)
                else
                  (* [holes] stays undefined, which is written as NaN is: 0 *)
                  ret JNaN) ;;
      modifyBuffer (fun b => C.setValue_i32 b (geoPolygon + numHolesOffset) (JInt numHoles)) ;;;
      modifyBuffer (fun b => C.setValue_i32 b (geoPolygon + holesOffset) holes) ;;;
      ret geoPolygon
  end.

Definition destroyGeoPolygon (geoPolygon : Z) : M unit :=
  (* Byte positions within the struct *)
  let geofenceOffset := 0 in
  let numHolesOffset := geofenceOffset + SZ_GEOFENCE in
  let holesOffset := numHolesOffset + C.SZ_INT in
  (* Free the outer loop *)
  b <- getBuffer ;;
  C._free (C.getValue_i32 b (geoPolygon + geofenceOffset)) ;;;
  (* Free the holes, if any *)
  b <- getBuffer ;;
  let numHoles := C.getValue_i32 b (geoPolygon + numHolesOffset) in
  forRange (Z.to_nat numHoles) 0 (fun i =>
    b <- getBuffer ;;
    C._free (C.getValue_i32 b (geoPolygon + holesOffset + SZ_GEOFENCE * i))) ;;;
  C._free geoPolygon.

(** *** Arrays of identifiers *)

(** The loop of [readArrayOfHexagons]: [n] iterations are left, [i] is the
    index of the next low word. *)
Fixpoint readArrayOfHexagons_loop
    (b : Buffer) (cAddress : Z) (n : nat) (i : Z) (out : list string) : list string :=
  match n with
  | O => out
  | S n' =>
      let lower := C.getValue_i32 b (cAddress + C.SZ_INT * i) in
      let upper := C.getValue_i32 b (cAddress + C.SZ_INT * (i + 1)) in
      let out :=
        if negb (lower =? 0) || negb (upper =? 0)
        then out ++ [splitLongToH3Address (JInt lower) (JInt upper)]
        else out in
      readArrayOfHexagons_loop b cAddress n' (i + 2) out
  end.

Definition readArrayOfHexagons (b : Buffer) (cAddress maxCount : Z) : list string :=
  readArrayOfHexagons_loop b cAddress (Z.to_nat maxCount) 0 [].

Definition storeArrayOfHexagons (cAddress : Z) (hexagons : list JSValue) : M unit :=
  forEachFrom 0 hexagons (fun i hexagon =>
    modifyBuffer (fun b =>
      C.HEAPU32_set b
        (let '(lower, upper) := h3AddressToSplitLong hexagon in [lower; upper])
        (Z.quot cAddress C.SZ_INT + 2 * i))).

(** *** Coordinates read back *)

Definition readSingleCoord (b : Buffer) (cAddress : Z) : float :=
  radsToDegs (C.getValue_double b cAddress).

Definition readGeoCoord (b : Buffer) (cAddress : Z) : Point :=
  (constrainLat (readSingleCoord b cAddress),
   constrainLng (readSingleCoord b (cAddress + C.SZ_DBL))).

Definition readGeoCoordGeoJson (b : Buffer) (cAddress : Z) : Point :=
  (constrainLng (readSingleCoord b (cAddress + C.SZ_DBL)),
   constrainLat (readSingleCoord b cAddress)).

(** The loop of [readGeoBoundary]; [k] is [i / 2].  An element of the output
    array is a point, or [undefined] ([None]). *)
Fixpoint readGeoBoundary_loop
    (b : Buffer) (readCoord : Buffer -> Z -> Point) (vertsPos : Z)
    (n : nat) (k : Z) (out : list (option Point)) : list (option Point) :=
  match n with
  | O => out
  | S n' =>
      readGeoBoundary_loop b readCoord vertsPos n' (k + 1)
        (out ++ [Some (readCoord b (vertsPos + C.SZ_DBL * (2 * k)))])
  end.

Definition readGeoBoundary
    (b : Buffer) (geoBoundary : Z) (geoJsonCoords closedLoop : JSValue)
  : list (option Point) :=
  let numVerts := C.getValue_i32 b geoBoundary in
  (* Note that though numVerts is an int, the coordinate doubles have to be
     aligned to 8 bytes, hence the 8-byte offset here *)
  let vertsPos := geoBoundary + C.SZ_DBL in
  (* Support [lng, lat] pairs if GeoJSON is specified *)
  let readCoord := if truthy geoJsonCoords then readGeoCoordGeoJson else readGeoCoord in
  let out := readGeoBoundary_loop b readCoord vertsPos (Z.to_nat numVerts) 0 [] in
  if truthy closedLoop
  then (* Close loop if GeoJSON is specified *) out ++ [nth 0 out None]
  else out.

(** The three nested [while] loops of [readMultiPolygon] follow pointers, so
    each takes fuel: [None] when a chain is longer than the fuel. *)
Fixpoint readMultiPolygon_coords
    (fuel : nat) (b : Buffer) (readCoord : Buffer -> Z -> Point)
    (coord : Z) (coords : list (option Point)) : option (list (option Point)) :=
  if coord =? 0 then Some coords
  else
    match fuel with
    | O => None
    | S fuel' =>
        readMultiPolygon_coords fuel' b readCoord
          (* Follow ->next pointer *)
          (C.getValue_i32 b (coord + C.SZ_DBL * 2))
          (coords ++ [Some (readCoord b coord)])
    end.

Fixpoint readMultiPolygon_loops
    (fuel : nat) (b : Buffer) (readCoord : Buffer -> Z -> Point) (formatAsGeoJson : JSValue)
    (loop : Z) (loops : list (list (option Point))) : option (list (list (option Point))) :=
  if loop =? 0 then Some loops
  else
    match fuel with
    | O => None
    | S fuel' =>
        (* Follow ->first pointer *)
        match readMultiPolygon_coords fuel b readCoord (C.getValue_i32 b loop) [] with
        | None => None
        | Some coords =>
            let coords :=
              if truthy formatAsGeoJson
              then (* Close loop if GeoJSON is requested *) coords ++ [nth 0 coords None]
              else coords in
            readMultiPolygon_loops fuel' b readCoord formatAsGeoJson
              (* Follow ->next pointer *)
              (C.getValue_i32 b (loop + C.SZ_PTR * 2))
              (loops ++ [coords])
        end
    end.

Fixpoint readMultiPolygon_polygons
    (fuel : nat) (b : Buffer) (readCoord : Buffer -> Z -> Point) (formatAsGeoJson : JSValue)
    (polygon : Z) (output : list (list (list (option Point))))
  : option (list (list (list (option Point)))) :=
  if polygon =? 0 then Some output
  else
    match fuel with
    | O => None
    | S fuel' =>
        (* Follow ->first pointer *)
        match readMultiPolygon_loops fuel b readCoord formatAsGeoJson
                (C.getValue_i32 b polygon) [] with
        | None => None
        | Some loops =>
            readMultiPolygon_polygons fuel' b readCoord formatAsGeoJson
              (* Follow ->next pointer *)
              (C.getValue_i32 b (polygon + C.SZ_PTR * 2))
              (output ++ [loops])
        end
    end.

Definition readMultiPolygon
    (fuel : nat) (b : Buffer) (polygon : Z) (formatAsGeoJson : JSValue)
  : option (list (list (list (option Point)))) :=
  let readCoord := if truthy formatAsGeoJson then readGeoCoordGeoJson else readGeoCoord in
  readMultiPolygon_polygons fuel b readCoord formatAsGeoJson polygon [].

(** *** Public API functions: Core *)

Definition h3ToGeo (h3Address : JSValue) : M Point :=
  latlng <- C._malloc SZ_GEOCOORD ;;
  let '(lower, upper) := h3AddressToSplitLong h3Address in
  callVoid "h3ToGeo" (H3.h3ToGeo E (toInt32 lower) (toInt32 upper) latlng) ;;;
  b <- getBuffer ;;
  let out := readGeoCoord b latlng in
  C._free latlng ;;;
  ret out.

Definition h3ToGeoBoundary (h3Address formatAsGeoJson : JSValue)
  : M (list (option Point)) :=
  geoBoundary <- C._malloc SZ_GEOBOUNDARY ;;
  let '(lower, upper) := h3AddressToSplitLong h3Address in
  callVoid "h3ToGeoBoundary"
    (H3.h3ToGeoBoundary E (toInt32 lower) (toInt32 upper) geoBoundary) ;;;
  b <- getBuffer ;;
  let out := readGeoBoundary b geoBoundary formatAsGeoJson formatAsGeoJson in
  C._free geoBoundary ;;;
  ret out.

(** *** Public API functions: Algorithms *)

Definition kRing (h3Address : JSValue) (ringSize : Z) : M (list string) :=
  let '(lower, upper) := h3AddressToSplitLong h3Address in
  maxCount <- callInt "maxKringSize" (fun b => (H3.maxKringSize E ringSize, b)) ;;
  hexagons <- C._calloc maxCount SZ_H3INDEX ;;
  callVoid "kRing" (H3.kRing E (toInt32 lower) (toInt32 upper) ringSize hexagons) ;;;
  b <- getBuffer ;;
  let out := readArrayOfHexagons b hexagons maxCount in
  C._free hexagons ;;;
  ret out.

Definition hexRing (h3Address : JSValue) (ringSize : Z) : M (list string) :=
  let maxCount := if ringSize =? 0 then 1 else 6 * ringSize in
  hexagons <- C._calloc maxCount SZ_H3INDEX ;;
  let '(lower, upper) := h3AddressToSplitLong h3Address in
  retVal <- callInt "hexRing"
              (H3.hexRing E (toInt32 lower) (toInt32 upper) ringSize hexagons) ;;
  if negb (retVal =? 0) then
    C._free hexagons ;;;
    throw (ErrorMsg "Failed to get hexRing (encountered a pentagon?)")
  else
    b <- getBuffer ;;
    let out := readArrayOfHexagons b hexagons maxCount in
    C._free hexagons ;;;
    ret out.

Definition polyfill (coordinates : Coordinates) (res isGeoJson : JSValue)
  : M (list string) :=
  lift (validateRes res) ;;;
  let isGeoJson := truthy isGeoJson in
  (* Guard against empty input *)
  if isEmptyCoordinates coordinates then ret []
  else
    (* Wrap to expected format if a single loop is provided *)
    let coordinates :=
      match coordinates with
      | SingleLoop loop => [loop]
      | Loops loops => loops
      end in
    geoPolygon <- coordinatesToGeoPolygon coordinates isGeoJson ;;
    arrayLen <- callInt "maxPolyfillSize"
                  (fun b => (H3.maxPolyfillSize E geoPolygon res b, b)) ;;
    hexagons <- C._calloc arrayLen SZ_H3INDEX ;;
    callVoid "polyfill" (H3.polyfill E geoPolygon res hexagons) ;;;
    b <- getBuffer ;;
    let out := readArrayOfHexagons b hexagons arrayLen in
    C._free hexagons ;;;
    destroyGeoPolygon geoPolygon ;;;
    ret out.

(** [h3Set] is [None] for [null] or [undefined]. *)
Definition compact (h3Set : option (list JSValue)) : M (list string) :=
  match h3Set with
  | None | Some [] => ret []
  | Some h3Set =>
      (* Set up input set *)
      let count := Z.of_nat (List.length h3Set) in
      set <- C._calloc count SZ_H3INDEX ;;
      storeArrayOfHexagons set h3Set ;;;
      (* Allocate memory for compacted hexagons, worst-case is no compaction *)
      compactedSet <- C._calloc count SZ_H3INDEX ;;
      retVal <- callInt "compact" (H3.compact E set compactedSet count) ;;
      if negb (retVal =? 0) then
        C._free set ;;;
        C._free compactedSet ;;;
        throw (ErrorMsg "Failed to compact, malformed input data (duplicate hexagons?)")
      else
        b <- getBuffer ;;
        let out := readArrayOfHexagons b compactedSet count in
        C._free set ;;;
        C._free compactedSet ;;;
        ret out
  end.

Definition uncompact (compactedSet : option (list JSValue)) (res : JSValue)
  : M (list string) :=
  lift (validateRes res) ;;;
  match compactedSet with
  | None | Some [] => ret []
  | Some compactedSet =>
      (* Set up input set *)
      let count := Z.of_nat (List.length compactedSet) in
      set <- C._calloc count SZ_H3INDEX ;;
      storeArrayOfHexagons set compactedSet ;;;
      (* Estimate how many hexagons we need (always overestimates if in error) *)
      maxUncompactedNum <- callInt "maxUncompactSize"
                             (fun b => (H3.maxUncompactSize E set count res b, b)) ;;
      (* Allocate memory for uncompacted hexagons *)
      uncompactedSet <- C._calloc maxUncompactedNum SZ_H3INDEX ;;
      retVal <- callInt "uncompact"
                  (H3.uncompact E set count uncompactedSet maxUncompactedNum res) ;;
      if negb (retVal =? 0) then
        C._free set ;;;
        C._free uncompactedSet ;;;
        throw (ErrorMsg "Failed to uncompact (bad resolution?)")
      else
        b <- getBuffer ;;
        let out := readArrayOfHexagons b uncompactedSet maxUncompactedNum in
        C._free set ;;;
        C._free uncompactedSet ;;;
        ret out
  end.

(** *** Public API functions: Unidirectional edges *)

(** [readGeoBoundary] is called with two arguments: [closedLoop] is
    [undefined]. *)
Definition getH3UnidirectionalEdgeBoundary (edgeAddress formatAsGeoJson : JSValue)
  : M (list (option Point)) :=
  geoBoundary <- C._malloc SZ_GEOBOUNDARY ;;
  let '(lower, upper) := h3AddressToSplitLong edgeAddress in
  callVoid "getH3UnidirectionalEdgeBoundary"
    (H3.getH3UnidirectionalEdgeBoundary E (toInt32 lower) (toInt32 upper) geoBoundary) ;;;
  b <- getBuffer ;;
  let out := readGeoBoundary b geoBoundary formatAsGeoJson VUndefined in
  C._free geoBoundary ;;;
  ret out.

(** *** Public informational utilities *)

Definition hexArea (res unit : JSValue) : M float :=
  lift (validateRes res) ;;;
  if strictEqString unit UNITS.m2 then callNum "hexAreaM2" (H3.hexAreaM2 E res)
  else if strictEqString unit UNITS.km2 then callNum "hexAreaKm2" (H3.hexAreaKm2 E res)
  else throw (UnknownUnit unit).

Definition edgeLength (res unit : JSValue) : M float :=
  lift (validateRes res) ;;;
  if strictEqString unit UNITS.m then callNum "edgeLengthM" (H3.edgeLengthM E res)
  else if strictEqString unit UNITS.km then callNum "edgeLengthKm" (H3.edgeLengthKm E res)
  else throw (UnknownUnit unit).

End H3Core.

(* ------------------------------------------------------------------------- *)
(** ** A concrete engine and heap to run the code on *)

(** A boundary record of two vertices, in radians, written at [geoBoundary]. *)
Definition sampleBoundary (geoBoundary : Z) (b : Buffer) : Buffer :=
  C.HEAPF64_set (C.HEAPU32_set b [JInt 2] (Z.quot geoBoundary 4))
    [0; 0; 0; Math_PI]%float (Z.quot geoBoundary 8 + 1).

(** Struct sizes of the 32-bit build (a loop record is a 4-byte count and a
    pointer; a polygon record is a loop record, a 4-byte count and a pointer;
    a boundary record is a count padded to 8 bytes and ten coordinate pairs).
    The status of the fallible functions is a parameter. *)
Definition sampleEngine (status : Z) : H3.Engine := {|
  H3.sizeOfH3Index := 8;
  H3.sizeOfGeoCoord := 16;
  H3.sizeOfGeoBoundary := 168;
  H3.sizeOfGeoPolygon := 16;
  H3.sizeOfGeofence := 8;
  H3.sizeOfLinkedGeoPolygon := 12;
  H3.h3ToGeo := fun _ _ _ b => b;
  H3.h3ToGeoBoundary := fun _ _ geoBoundary b => sampleBoundary geoBoundary b;
  H3.maxKringSize := fun k => 3 * k * (k + 1) + 1;
  H3.kRing := fun _ _ _ _ b => b;
  H3.hexRing := fun _ _ _ _ b => (status, b);
  H3.maxPolyfillSize := fun _ _ _ => 4;
  H3.polyfill := fun _ _ _ b => b;
  H3.compact := fun _ _ _ b => (status, b);
  H3.maxUncompactSize := fun _ count _ _ => 7 * count;
  H3.uncompact := fun _ _ _ _ _ b => (status, b);
  H3.getH3UnidirectionalEdgeBoundary := fun _ _ geoBoundary b => sampleBoundary geoBoundary b;
  H3.hexAreaM2 := fun _ => 0%float;
  H3.hexAreaKm2 := fun _ => 0%float;
  H3.edgeLengthM := fun _ => 0%float;
  H3.edgeLengthKm := fun _ => 0%float
|}.

Definition emptyState : State := mkState (fun _ => 0) 0 [].

(* ------------------------------------------------------------------------- *)
(** ** Vocabulary of the statements *)

(** The [k]-th 64-bit slot of an array of identifiers, as its two words. *)
Definition slot (b : Buffer) (cAddress : Z) (k : nat) : Z * Z :=
  (C.getValue_i32 b (cAddress + 4 * (2 * Z.of_nat k)),
   C.getValue_i32 b (cAddress + 4 * (2 * Z.of_nat k + 1))).

Definition isSentinel (words : Z * Z) : bool :=
  (fst words =? 0) && (snd words =? 0).

Definition slotToString (words : Z * Z) : string :=
  splitLongToH3Address (JInt (fst words)) (JInt (snd words)).

(** The operations with a documented engine failure mode. *)
Inductive FailingOp : Type :=
| OpHexRing (h3Address : JSValue) (ringSize : Z)
| OpCompact (h3Set : option (list JSValue))
| OpUncompact (compactedSet : option (list JSValue)) (res : JSValue).

Definition runOp (E : H3.Engine) (op : FailingOp) : M (list string) :=
  match op with
  | OpHexRing h3Address ringSize => hexRing E h3Address ringSize
  | OpCompact h3Set => compact E h3Set
  | OpUncompact compactedSet res => uncompact E compactedSet res
  end.

(** The engine function whose status decides the failure. *)
Definition engineFunction (op : FailingOp) : string :=
  match op with
  | OpHexRing _ _ => "hexRing"
  | OpCompact _ => "compact"
  | OpUncompact _ _ => "uncompact"
  end.

Definition failureMessage (op : FailingOp) : string :=
  match op with
  | OpHexRing _ _ => "Failed to get hexRing (encountered a pentagon?)"
  | OpCompact _ => "Failed to compact, malformed input data (duplicate hexagons?)"
  | OpUncompact _ _ => "Failed to uncompact (bad resolution?)"
  end.

(** The events of a run: what the trace has gained from [st] to [st']. *)
Definition eventsSince (st st' : State) : list Event :=
  skipn (List.length (trace st)) (trace st').

Definition allocated (events : list Event) : list Z :=
  flat_map (fun ev => match ev with EvAlloc ptr _ => [ptr] | _ => [] end) events.

Definition freed (events : list Event) : list Z :=
  flat_map (fun ev => match ev with EvFree ptr => [ptr] | _ => [] end) events.

Definition engineCalls (events : list Event) : list string :=
  flat_map (fun ev => match ev with EvEngine name _ => [name] | _ => [] end) events.

(** The two unit conversion operations and the units each recognizes. *)
Inductive Measurement : Type :=
| HexArea
| EdgeLength.

Definition measure (E : H3.Engine) (kind : Measurement) (res unit : JSValue) : M float :=
  match kind with
  | HexArea => hexArea E res unit
  | EdgeLength => edgeLength E res unit
  end.

Definition recognizedUnit (kind : Measurement) (unit : JSValue) : bool :=
  match kind with
  | HexArea => strictEqString unit "m2" || strictEqString unit "km2"
  | EdgeLength => strictEqString unit "m" || strictEqString unit "km"
  end.

(** The vertices of a boundary record, read in order. *)
Definition boundaryVertices (b : Buffer) (geoBoundary : Z) (geoJsonCoords : JSValue)
  : list (option Point) :=
  map (fun k => Some ((if truthy geoJsonCoords then readGeoCoordGeoJson else readGeoCoord)
                        b (geoBoundary + 8 + 16 * Z.of_nat k)))
      (seq 0 (Z.to_nat (C.getValue_i32 b geoBoundary))).

(** A loop with its first element repeated at the end ([undefined] when the
    loop is empty). *)
Definition closeLoop (loop : list (option Point)) : list (option Point) :=
  loop ++ [nth 0 loop None].

(** A null-terminated chain of nodes in the heap: [nodes] are the addresses
    met from [first] on, following the pointer at [nextOffset] in each. *)
Inductive LinkedList (b : Buffer) (nextOffset : Z) : Z -> list Z -> Prop :=
| LinkedList_null : LinkedList b nextOffset 0 []
| LinkedList_node (node : Z) (rest : list Z) :
    node <> 0 ->
    LinkedList b nextOffset (C.getValue_i32 b (node + nextOffset)) rest ->
    LinkedList b nextOffset node (node :: rest).

(** A linked list of loops, each a linked list of coordinates: [loops] are the
    addresses of the coordinate nodes, loop by loop. *)
Definition LinkedLoops (b : Buffer) (first : Z) (loops : list (list Z)) : Prop :=
  exists nodes,
    LinkedList b 8 first nodes
    /\ Forall2 (fun node coords => LinkedList b 16 (C.getValue_i32 b node) coords)
               nodes loops.

(** A linked list of polygons, each a linked list of loops. *)
Definition LinkedPolygons (b : Buffer) (first : Z) (polygons : list (list (list Z))) : Prop :=
  exists nodes,
    LinkedList b 8 first nodes
    /\ Forall2 (fun node loops => LinkedLoops b (C.getValue_i32 b node) loops)
               nodes polygons.

(** The number of nodes of a linked structure: fuel enough to walk it. *)
Definition loopsNodeCount (loops : list (list Z)) : nat :=
  List.length loops + list_sum (map (@List.length Z) loops).

Definition nodeCount (polygons : list (list (list Z))) : nat :=
  List.length polygons + list_sum (map loopsNodeCount polygons).

(** The loop read from a chain of coordinate nodes. *)
Definition loopOfNodes (b : Buffer) (formatAsGeoJson : JSValue) (coords : list Z)
  : list (option Point) :=
  let vertices :=
    map (fun coord => Some ((if truthy formatAsGeoJson then readGeoCoordGeoJson else readGeoCoord)
                              b coord)) coords in
  if truthy formatAsGeoJson then closeLoop vertices else vertices.

(** A heap holding one linked polygon of one loop of two coordinates: the
    polygon node at 8, the loop node at 32, the coordinate nodes at 64 and
    96. *)
Definition sampleLinkedHeap : Buffer :=
  let b := C.HEAPU32_set (fun _ => 0) [JInt 32; JInt 32; JInt 0] 2 in
  let b := C.HEAPU32_set b [JInt 64; JInt 96; JInt 0] 8 in
  let b := C.HEAPF64_set b [0; 0]%float 8 in
  let b := C.HEAPU32_set b [JInt 96] 20 in
  let b := C.HEAPF64_set b [0; Math_PI]%float 12 in
  C.HEAPU32_set b [JInt 0] 28.

(** The domains of the angles, in degrees: what the engine is expected to
    give back once converted, and the canonical domains of a point. *)
Definition engineLat (x : float) : bool := ((0 <=? x) && (x <=? 180))%float.

Definition engineLng (x : float) : bool := ((0 <=? x) && (x <=? 360))%float.

Definition canonicalLat (x : float) : bool := ((-90 <? x) && (x <=? 90))%float.

Definition canonicalLng (x : float) : bool := ((-180 <? x) && (x <=? 180))%float.

(** The coordinate record at [cAddress] holds a latitude and a longitude that
    are in the engine's domains once read as degrees. *)
Definition engineRange (b : Buffer) (cAddress : Z) : bool :=
  engineLat (readSingleCoord b cAddress) && engineLng (readSingleCoord b (cAddress + 8)).

(** A point in the order [[lat, lng]], or [[lng, lat]] in GeoJSON order. *)
Definition pointCanonical (geoJson : bool) (p : Point) : bool :=
  if geoJson
  then canonicalLng (fst p) && canonicalLat (snd p)
  else canonicalLat (fst p) && canonicalLng (snd p).

Definition elementCanonical (geoJson : bool) (element : option Point) : bool :=
  match element with
  | Some p => pointCanonical geoJson p
  | None => true
  end.

(* ------------------------------------------------------------------------- *)
(** ** Auxiliary definitions of the proofs *)

(** The string of a list of digit values. *)
Fixpoint digitsStr (ds : list Z) : string :=
  match ds with
  | d :: r => String (hexDigitChar d) (digitsStr r)
  | [] => EmptyString
  end.

Fixpoint stripZeros (ds : list Z) : list Z :=
  match ds with
  | 0 :: r => stripZeros r
  | _ => ds
  end.

Definition isDigit (d : Z) : Prop := 0 <= d < 16.

(** The mantissa shared by 90, 180 and 360: [90 = M90 * 2^-46],
    [180 = M90 * 2^-45], [360 = M90 * 2^-44]. *)
Definition M90 : positive := 6333186975989760.

(* ------------------------------------------------------------------------- *)
(** ** Arrays of identifiers written and read back *)

(** What [storeArrayOfHexagons] writes for one element, as the heap view
    HEAP32 reads it: the two words of the identifier, signed. *)
Definition wordsOf (hexagon : JSValue) : Z * Z :=
  let '(lower, upper) := h3AddressToSplitLong hexagon in (toInt32 lower, toInt32 upper).

(** An element of an input array that is an identifier string, or is not a
    string at all. *)
Definition identifierOrNonString (hexagon : JSValue) : bool :=
  match hexagon with
  | VStr s => isIdentifierString s
  | _ => true
  end.

(** The strings among the elements of an array. *)
Definition stringsOf (hexagons : list JSValue) : list string :=
  flat_map (fun hexagon => match hexagon with VStr s => [s] | _ => [] end) hexagons.

(* ------------------------------------------------------------------------- *)
(** ** The rest of the engine *)

(** Modelled from the spec: the bound functions of the engine that the
    record [H3.Engine] above does not hold (lib/bindings.js is not part of
    lib/h3core.js).  A function that returns a 64-bit identifier or count
    yields its low word as the ordinary return and leaves the high word in
    the out-of-band slot that [C.getTempRet0] reads: here such a function
    returns the pair of the low word and of the content of the slot after the
    call. *)
Module H3Rest.

Record Engine : Type := {
  h3IsValid : Z -> Z -> Z;
  h3IsPentagon : Z -> Z -> Z;
  h3IsResClassIII : Z -> Z -> Z;
  h3GetBaseCell : Z -> Z -> Z;
  geoToH3 : Z -> JSValue -> Buffer -> Z * Z;
  h3ToParent : Z -> Z -> JSValue -> Z * Z;
  maxH3ToChildrenSize : Z -> Z -> JSValue -> Z;
  h3ToChildren : Z -> Z -> JSValue -> Z -> Buffer -> Buffer;
  kRingDistances : Z -> Z -> Z -> Z -> Z -> Buffer -> Buffer;
  h3SetToLinkedGeo : Z -> Z -> Z -> Buffer -> Buffer;
  destroyLinkedPolygon : Z -> Buffer -> Buffer;
  h3IndexesAreNeighbors : Z -> Z -> Z -> Z -> Z;
  getH3UnidirectionalEdge : Z -> Z -> Z -> Z -> Z * Z;
  getOriginH3IndexFromUnidirectionalEdge : Z -> Z -> Z * Z;
  getDestinationH3IndexFromUnidirectionalEdge : Z -> Z -> Z * Z;
  h3UnidirectionalEdgeIsValid : Z -> Z -> Z;
  getH3IndexesFromUnidirectionalEdge : Z -> Z -> Z -> Buffer -> Buffer;
  getH3UnidirectionalEdgesFromHexagon : Z -> Z -> Z -> Buffer -> Buffer;
  numHexagons : JSValue -> Z * Z
}.

End H3Rest.

(** An engine call that returns a 64-bit value: the low word is the return
    value, the high word is left in the slot. *)
Definition callLong (name : string) (f : Buffer -> Z * Z) : M (Z * Z) :=
  fun st =>
    let r := f (buffer st) in
    (Return r, mkState (buffer st) (brk st) (trace st ++ [EvEngine name (Some (fst r))])).

(** [Boolean(n)] for an integer [n] *)
Definition Boolean (n : Z) : bool := negb (n =? 0).

(** [out[index].push(value)]: the array at [index] gains [value]. *)
Fixpoint pushAt {A : Type} (out : list (list A)) (index : nat) (value : A) : list (list A) :=
  match out, index with
  | [], _ => []
  | ring :: rest, O => (ring ++ [value]) :: rest
  | ring :: rest, S k => ring :: pushAt rest k value
  end.

Section H3CoreRest.

Variable E : H3.Engine.
Variable R : H3Rest.Engine.

(** *** 64-bit values read back *)

(** [invocation] is the value of the call expression together with the slot
    it leaves: the call is the argument of [readLong], so nothing runs between
    it and [C.getTempRet0()]. *)
Definition readLong (invocation : Z * Z) : Z * Z :=
  (* Upper 32-bits of the long set via side-effect *)
  let upper := snd invocation in
  (fst invocation, upper).

(** [null] is [None]. *)
Definition readH3Address (invocation : Z * Z) : option string :=
  let '(lower, upper) := readLong invocation in
  (* The lower bits are allowed to be 0s, but if the upper bits are 0
     this represents an invalid H3 address *)
  if negb (upper =? 0) then Some (splitLongToH3Address (JInt lower) (JInt upper)) else None.

(** *** Public API functions: Core *)

Definition h3IsValid (h3Address : JSValue) : M bool :=
  let '(lower, upper) := h3AddressToSplitLong h3Address in
  r <- callInt "h3IsValid" (fun b => (H3Rest.h3IsValid R (toInt32 lower) (toInt32 upper), b)) ;;
  ret (Boolean r).

Definition h3IsPentagon (h3Address : JSValue) : M bool :=
  let '(lower, upper) := h3AddressToSplitLong h3Address in
  r <- callInt "h3IsPentagon"
         (fun b => (H3Rest.h3IsPentagon R (toInt32 lower) (toInt32 upper), b)) ;;
  ret (Boolean r).

Definition h3IsResClassIII (h3Address : JSValue) : M bool :=
  let '(lower, upper) := h3AddressToSplitLong h3Address in
  r <- callInt "h3IsResClassIII"
         (fun b => (H3Rest.h3IsResClassIII R (toInt32 lower) (toInt32 upper), b)) ;;
  ret (Boolean r).

Definition h3GetBaseCell (h3Address : JSValue) : M Z :=
  let '(lower, upper) := h3AddressToSplitLong h3Address in
  callInt "h3GetBaseCell"
    (fun b => (H3Rest.h3GetBaseCell R (toInt32 lower) (toInt32 upper), b)).

Definition geoToH3 (lat lng : float) (res : JSValue) : M (option string) :=
  let lat := constrainLat lat in
  let lng := constrainLng lng in
  latlng <- C._malloc (SZ_GEOCOORD E) ;;
  (* Slightly more efficient way to set the memory *)
  modifyBuffer (fun b =>
    C.HEAPF64_set b (map degsToRads [lat; lng]) (Z.quot latlng C.SZ_DBL)) ;;;
  (* Read value as a split long *)
  r <- callLong "geoToH3" (H3Rest.geoToH3 R latlng res) ;;
  let h3Address := readH3Address r in
  C._free latlng ;;;
  ret h3Address.

(** *** Public API functions: Algorithms *)

Definition h3ToParent (h3Address res : JSValue) : M (option string) :=
  let '(lower, upper) := h3AddressToSplitLong h3Address in
  r <- callLong "h3ToParent"
         (fun _ => H3Rest.h3ToParent R (toInt32 lower) (toInt32 upper) res) ;;
  ret (readH3Address r).

Definition h3ToChildren (h3Address res : JSValue) : M (list string) :=
  let '(lower, upper) := h3AddressToSplitLong h3Address in
  maxCount <- callInt "maxH3ToChildrenSize"
                (fun b => (H3Rest.maxH3ToChildrenSize R (toInt32 lower) (toInt32 upper) res, b)) ;;
  hexagons <- C._calloc maxCount (SZ_H3INDEX E) ;;
  callVoid "h3ToChildren"
    (H3Rest.h3ToChildren R (toInt32 lower) (toInt32 upper) res hexagons) ;;;
  b <- getBuffer ;;
  let out := readArrayOfHexagons b hexagons maxCount in
  C._free hexagons ;;;
  ret out.

(** The loop of [kRingDistances] that reads the two arrays: [n] iterations
    are left, [i] is the index of the next low word.  [out[index]] is
    [undefined] when [index] is not an index of [out], and reading its [push]
    throws. *)
Fixpoint kRingDistances_loop
    (b : Buffer) (kRings distances : Z) (n : nat) (i : Z) (out : list (list string))
  : Result (list (list string)) :=
  match n with
  | O => Return out
  | S n' =>
      let hexLower := C.getValue_i32 b (kRings + C.SZ_INT * i) in
      let hexUpper := C.getValue_i32 b (kRings + C.SZ_INT * (i + 1)) in
      let index := C.getValue_i32 b (distances + C.SZ_INT * (i / 2)) in
      if negb (hexLower =? 0) || negb (hexUpper =? 0) then
        if (0 <=? index) && (index <? Z.of_nat (List.length out)) then
          kRingDistances_loop b kRings distances n' (i + 2)
            (pushAt out (Z.to_nat index) (splitLongToH3Address (JInt hexLower) (JInt hexUpper)))
        else Throw TypeError
      else kRingDistances_loop b kRings distances n' (i + 2) out
  end.

Definition kRingDistances (h3Address : JSValue) (ringSize : Z) : M (list (list string)) :=
  let '(lower, upper) := h3AddressToSplitLong h3Address in
  maxCount <- callInt "maxKringSize" (fun b => (H3.maxKringSize E ringSize, b)) ;;
  kRings <- C._calloc maxCount (SZ_H3INDEX E) ;;
  distances <- C._calloc maxCount C.SZ_INT ;;
  callVoid "kRingDistances"
    (H3Rest.kRingDistances R (toInt32 lower) (toInt32 upper) ringSize kRings distances) ;;;
  (* Create an array of empty arrays to hold the output *)
  let out := repeat [] (Z.to_nat (ringSize + 1)) in
  b <- getBuffer ;;
  out <- lift (kRingDistances_loop b kRings distances (Z.to_nat maxCount) 0 out) ;;
  C._free kRings ;;;
  C._free distances ;;;
  ret out.

(** [h3Addresses] is [None] for [null] or [undefined].  The walk of the
    linked output takes fuel; the result is [None] when it does not end within
    the fuel, and nothing after it runs.  [C._calloc(SZ_LINKED_GEOPOLYGON)] has
    one argument, as in [coordinatesToGeoPolygon]. *)
Definition h3SetToMultiPolygon
    (fuel : nat) (h3Addresses : option (list JSValue)) (formatAsGeoJson : JSValue)
  : M (option (list (list (list (option Point))))) :=
  match h3Addresses with
  | None | Some [] => ret (Some [])
  | Some h3Addresses =>
      (* Set up input set *)
      let addressCount := Z.of_nat (List.length h3Addresses) in
      set <- C._calloc addressCount (SZ_H3INDEX E) ;;
      storeArrayOfHexagons set h3Addresses ;;;
      (* Allocate memory for output linked polygon *)
      polygon <- C._calloc (SZ_LINKED_GEOPOLYGON E) 0 ;;
      (* Store a reference to the first polygon - that's the one we need for
         memory deallocation *)
      let originalPolygon := polygon in
      callVoid "h3SetToLinkedGeo" (H3Rest.h3SetToLinkedGeo R set addressCount polygon) ;;;
      b <- getBuffer ;;
      match readMultiPolygon fuel b polygon formatAsGeoJson with
      | None => ret None
      | Some multiPolygon =>
          (* Clean up *)
          callVoid "destroyLinkedPolygon" (H3Rest.destroyLinkedPolygon R originalPolygon) ;;;
          C._free originalPolygon ;;;
          C._free set ;;;
          ret (Some multiPolygon)
      end
  end.

(** *** Public API functions: Unidirectional edges *)

Definition h3IndexesAreNeighbors (origin destination : JSValue) : M bool :=
  let '(oLower, oUpper) := h3AddressToSplitLong origin in
  let '(dLower, dUpper) := h3AddressToSplitLong destination in
  r <- callInt "h3IndexesAreNeighbors"
         (fun b => (H3Rest.h3IndexesAreNeighbors R (toInt32 oLower) (toInt32 oUpper)
                      (toInt32 dLower) (toInt32 dUpper), b)) ;;
  ret (Boolean r).

Definition getH3UnidirectionalEdge (origin destination : JSValue) : M (option string) :=
  let '(oLower, oUpper) := h3AddressToSplitLong origin in
  let '(dLower, dUpper) := h3AddressToSplitLong destination in
  r <- callLong "getH3UnidirectionalEdge"
         (fun _ => H3Rest.getH3UnidirectionalEdge R (toInt32 oLower) (toInt32 oUpper)
                     (toInt32 dLower) (toInt32 dUpper)) ;;
  ret (readH3Address r).

Definition getOriginH3IndexFromUnidirectionalEdge (edgeAddress : JSValue) : M (option string) :=
  let '(lower, upper) := h3AddressToSplitLong edgeAddress in
  r <- callLong "getOriginH3IndexFromUnidirectionalEdge"
         (fun _ => H3Rest.getOriginH3IndexFromUnidirectionalEdge R
                     (toInt32 lower) (toInt32 upper)) ;;
  ret (readH3Address r).

Definition getDestinationH3IndexFromUnidirectionalEdge (edgeAddress : JSValue)
  : M (option string) :=
  let '(lower, upper) := h3AddressToSplitLong edgeAddress in
  r <- callLong "getDestinationH3IndexFromUnidirectionalEdge"
         (fun _ => H3Rest.getDestinationH3IndexFromUnidirectionalEdge R
                     (toInt32 lower) (toInt32 upper)) ;;
  ret (readH3Address r).

Definition h3UnidirectionalEdgeIsValid (edgeAddress : JSValue) : M bool :=
  let '(lower, upper) := h3AddressToSplitLong edgeAddress in
  r <- callInt "h3UnidirectionalEdgeIsValid"
         (fun b => (H3Rest.h3UnidirectionalEdgeIsValid R (toInt32 lower) (toInt32 upper), b)) ;;
  ret (Boolean r).

Definition getH3IndexesFromUnidirectionalEdge (edgeAddress : JSValue) : M (list string) :=
  let '(lower, upper) := h3AddressToSplitLong edgeAddress in
  let count := 2 in
  hexagons <- C._calloc count (SZ_H3INDEX E) ;;
  callVoid "getH3IndexesFromUnidirectionalEdge"
    (H3Rest.getH3IndexesFromUnidirectionalEdge R (toInt32 lower) (toInt32 upper) hexagons) ;;;
  b <- getBuffer ;;
  let out := readArrayOfHexagons b hexagons count in
  C._free hexagons ;;;
  ret out.

Definition getH3UnidirectionalEdgesFromHexagon (h3Address : JSValue) : M (list string) :=
  let '(lower, upper) := h3AddressToSplitLong h3Address in
  let count := 6 in
  edges <- C._calloc count (SZ_H3INDEX E) ;;
  callVoid "getH3UnidirectionalEdgesFromHexagon"
    (H3Rest.getH3UnidirectionalEdgesFromHexagon R (toInt32 lower) (toInt32 upper) edges) ;;;
  b <- getBuffer ;;
  let out := readArrayOfHexagons b edges count in
  C._free edges ;;;
  ret out.

(** *** Public informational utilities *)

Definition numHexagons (res : JSValue) : M jsint :=
  lift (validateRes res) ;;;
  (* Get number as a long value *)
  r <- callLong "numHexagons" (fun _ => H3Rest.numHexagons R res) ;;
  let '(lower, upper) := readLong r in
  (* If we're using <= 32 bits we can use normal JS numbers *)
  if upper =? 0 then ret (JInt lower)
  else
    (* Above 32 bit, make a JS number that's correct in order of magnitude *)
    ret (jsint_add (toNumber (upper * 2 ^ 32)) (JInt lower)).

End H3CoreRest.

(* ------------------------------------------------------------------------- *)
(** ** Vocabulary of the statements on the operations *)

(** The state a computation leaves. *)
Definition after {A : Type} (m : M A) (st : State) : State := snd (m st).

(** The operations of the module, [polyfill], [kRingDistances] and
    [h3SetToMultiPolygon] apart, with their arguments. *)
Inductive Call : Type :=
| CallH3IsValid (h3Address : JSValue)
| CallH3IsPentagon (h3Address : JSValue)
| CallH3IsResClassIII (h3Address : JSValue)
| CallH3GetBaseCell (h3Address : JSValue)
| CallGeoToH3 (lat lng : float) (res : JSValue)
| CallH3ToGeo (h3Address : JSValue)
| CallH3ToGeoBoundary (h3Address formatAsGeoJson : JSValue)
| CallH3ToParent (h3Address res : JSValue)
| CallH3ToChildren (h3Address res : JSValue)
| CallKRing (h3Address : JSValue) (ringSize : Z)
| CallHexRing (h3Address : JSValue) (ringSize : Z)
| CallCompact (h3Set : option (list JSValue))
| CallUncompact (compactedSet : option (list JSValue)) (res : JSValue)
| CallH3IndexesAreNeighbors (origin destination : JSValue)
| CallGetH3UnidirectionalEdge (origin destination : JSValue)
| CallGetOrigin (edgeAddress : JSValue)
| CallGetDestination (edgeAddress : JSValue)
| CallH3UnidirectionalEdgeIsValid (edgeAddress : JSValue)
| CallGetH3Indexes (edgeAddress : JSValue)
| CallGetEdgesFromHexagon (h3Address : JSValue)
| CallGetEdgeBoundary (edgeAddress formatAsGeoJson : JSValue)
| CallHexArea (res unit : JSValue)
| CallEdgeLength (res unit : JSValue)
| CallNumHexagons (res : JSValue).

Definition stateAfter (E : H3.Engine) (R : H3Rest.Engine) (call : Call) : State -> State :=
  match call with
  | CallH3IsValid h3Address => after (h3IsValid R h3Address)
  | CallH3IsPentagon h3Address => after (h3IsPentagon R h3Address)
  | CallH3IsResClassIII h3Address => after (h3IsResClassIII R h3Address)
  | CallH3GetBaseCell h3Address => after (h3GetBaseCell R h3Address)
  | CallGeoToH3 lat lng res => after (geoToH3 E R lat lng res)
  | CallH3ToGeo h3Address => after (h3ToGeo E h3Address)
  | CallH3ToGeoBoundary h3Address formatAsGeoJson =>
      after (h3ToGeoBoundary E h3Address formatAsGeoJson)
  | CallH3ToParent h3Address res => after (h3ToParent R h3Address res)
  | CallH3ToChildren h3Address res => after (h3ToChildren E R h3Address res)
  | CallKRing h3Address ringSize => after (kRing E h3Address ringSize)
  | CallHexRing h3Address ringSize => after (hexRing E h3Address ringSize)
  | CallCompact h3Set => after (compact E h3Set)
  | CallUncompact compactedSet res => after (uncompact E compactedSet res)
  | CallH3IndexesAreNeighbors origin destination =>
      after (h3IndexesAreNeighbors R origin destination)
  | CallGetH3UnidirectionalEdge origin destination =>
      after (getH3UnidirectionalEdge R origin destination)
  | CallGetOrigin edgeAddress => after (getOriginH3IndexFromUnidirectionalEdge R edgeAddress)
  | CallGetDestination edgeAddress =>
      after (getDestinationH3IndexFromUnidirectionalEdge R edgeAddress)
  | CallH3UnidirectionalEdgeIsValid edgeAddress =>
      after (h3UnidirectionalEdgeIsValid R edgeAddress)
  | CallGetH3Indexes edgeAddress => after (getH3IndexesFromUnidirectionalEdge E R edgeAddress)
  | CallGetEdgesFromHexagon h3Address =>
      after (getH3UnidirectionalEdgesFromHexagon E R h3Address)
  | CallGetEdgeBoundary edgeAddress formatAsGeoJson =>
      after (getH3UnidirectionalEdgeBoundary E edgeAddress formatAsGeoJson)
  | CallHexArea res unit => after (hexArea E res unit)
  | CallEdgeLength res unit => after (edgeLength E res unit)
  | CallNumHexagons res => after (numHexagons R res)
  end.

(** The operations that return an array of identifiers read from an array of
    a capacity known before the call. *)
Inductive ArrayQuery : Type :=
| QueryChildren (h3Address res : JSValue)
| QueryKRing (h3Address : JSValue) (ringSize : Z)
| QueryHexRing (h3Address : JSValue) (ringSize : Z)
| QueryCompact (h3Set : option (list JSValue))
| QueryEdgeIndexes (edgeAddress : JSValue)
| QueryEdgesFromHexagon (h3Address : JSValue).

Definition runArrayQuery (E : H3.Engine) (R : H3Rest.Engine) (query : ArrayQuery)
  : M (list string) :=
  match query with
  | QueryChildren h3Address res => h3ToChildren E R h3Address res
  | QueryKRing h3Address ringSize => kRing E h3Address ringSize
  | QueryHexRing h3Address ringSize => hexRing E h3Address ringSize
  | QueryCompact h3Set => compact E h3Set
  | QueryEdgeIndexes edgeAddress => getH3IndexesFromUnidirectionalEdge E R edgeAddress
  | QueryEdgesFromHexagon h3Address => getH3UnidirectionalEdgesFromHexagon E R h3Address
  end.

(** The number of slots of the output array. *)
Definition capacity (E : H3.Engine) (R : H3Rest.Engine) (query : ArrayQuery) : Z :=
  match query with
  | QueryChildren h3Address res =>
      let '(lower, upper) := h3AddressToSplitLong h3Address in
      H3Rest.maxH3ToChildrenSize R (toInt32 lower) (toInt32 upper) res
  | QueryKRing _ ringSize => H3.maxKringSize E ringSize
  | QueryHexRing _ ringSize => if ringSize =? 0 then 1 else 6 * ringSize
  | QueryCompact None => 0
  | QueryCompact (Some h3Set) => Z.of_nat (List.length h3Set)
  | QueryEdgeIndexes _ => 2
  | QueryEdgesFromHexagon _ => 6
  end.

(** The operations that return an identifier or [null]. *)
Inductive IdentifierQuery : Type :=
| QueryGeoToH3 (lat lng : float) (res : JSValue)
| QueryParent (h3Address res : JSValue)
| QueryEdge (origin destination : JSValue)
| QueryOrigin (edgeAddress : JSValue)
| QueryDestination (edgeAddress : JSValue).

Definition runIdentifierQuery (E : H3.Engine) (R : H3Rest.Engine) (query : IdentifierQuery)
  : M (option string) :=
  match query with
  | QueryGeoToH3 lat lng res => geoToH3 E R lat lng res
  | QueryParent h3Address res => h3ToParent R h3Address res
  | QueryEdge origin destination => getH3UnidirectionalEdge R origin destination
  | QueryOrigin edgeAddress => getOriginH3IndexFromUnidirectionalEdge R edgeAddress
  | QueryDestination edgeAddress => getDestinationH3IndexFromUnidirectionalEdge R edgeAddress
  end.

(** The coordinate record [geoToH3] hands to the engine: its address and the
    heap around it. *)
Definition geoToH3_latlng (st : State) : Z := C.roundUp8 (brk st) + 8.

Definition geoToH3_heap (lat lng : float) (st : State) : Buffer :=
  C.HEAPF64_set (buffer st)
    [degsToRads (constrainLat lat); degsToRads (constrainLng lng)]
    (Z.quot (geoToH3_latlng st) 8).

(** The two words the engine returns to the query: the low word and the
    content of the slot. *)
Definition engineWords (R : H3Rest.Engine) (query : IdentifierQuery) (st : State) : Z * Z :=
  match query with
  | QueryGeoToH3 lat lng res =>
      H3Rest.geoToH3 R (geoToH3_latlng st) res (geoToH3_heap lat lng st)
  | QueryParent h3Address res =>
      let '(lower, upper) := h3AddressToSplitLong h3Address in
      H3Rest.h3ToParent R (toInt32 lower) (toInt32 upper) res
  | QueryEdge origin destination =>
      let '(oLower, oUpper) := h3AddressToSplitLong origin in
      let '(dLower, dUpper) := h3AddressToSplitLong destination in
      H3Rest.getH3UnidirectionalEdge R (toInt32 oLower) (toInt32 oUpper)
        (toInt32 dLower) (toInt32 dUpper)
  | QueryOrigin edgeAddress =>
      let '(lower, upper) := h3AddressToSplitLong edgeAddress in
      H3Rest.getOriginH3IndexFromUnidirectionalEdge R (toInt32 lower) (toInt32 upper)
  | QueryDestination edgeAddress =>
      let '(lower, upper) := h3AddressToSplitLong edgeAddress in
      H3Rest.getDestinationH3IndexFromUnidirectionalEdge R (toInt32 lower) (toInt32 upper)
  end.

(** A signed 32-bit integer, as the engine returns them. *)
Definition isInt32 (z : Z) : Prop := - 2 ^ 31 <= z < 2 ^ 31.

(** *** The two arrays of [kRingDistances] *)

(** The distance the engine wrote for slot [k]. *)
Definition distanceAt (b : Buffer) (distances : Z) (k : nat) : Z :=
  C.getValue_i32 b (distances + 4 * Z.of_nat k).

(** The identifiers of the first [n] slots that are not empty and whose
    distance is [d], in the order of the slots. *)
Definition ringOf (b : Buffer) (kRings distances : Z) (n : nat) (d : nat) : list string :=
  map (fun k => slotToString (slot b kRings k))
      (filter (fun k => negb (isSentinel (slot b kRings k))
                        && (distanceAt b distances k =? Z.of_nat d))
              (seq 0 n)).

(** The heap the engine finds when [kRingDistances] calls it: the two arrays
    are zeroed, [kRings] first. *)
Definition kRingDistances_kRings (st : State) : Z := C.roundUp8 (brk st) + 8.

Definition kRingDistances_distances (E : H3.Engine) (ringSize : Z) (st : State) : Z :=
  C.roundUp8 (brk (after (C._calloc (H3.maxKringSize E ringSize) (SZ_H3INDEX E)) st)) + 8.

Definition kRingDistances_heap
    (E : H3.Engine) (R : H3Rest.Engine) (h3Address : JSValue) (ringSize : Z) (st : State)
  : Buffer :=
  let maxCount := H3.maxKringSize E ringSize in
  let st1 := after (C._calloc maxCount (SZ_H3INDEX E)) st in
  let st2 := after (C._calloc maxCount C.SZ_INT) st1 in
  let '(lower, upper) := h3AddressToSplitLong h3Address in
  H3Rest.kRingDistances R (toInt32 lower) (toInt32 upper) ringSize
    (kRingDistances_kRings st) (kRingDistances_distances E ringSize st) (buffer st2).

(** *** The linked output of [h3SetToMultiPolygon] *)

Definition h3SetToMultiPolygon_set (st : State) : Z := C.roundUp8 (brk st) + 8.

Definition h3SetToMultiPolygon_polygon
    (E : H3.Engine) (h3Addresses : list JSValue) (st : State) : Z :=
  C.roundUp8
    (brk (after (C._calloc (Z.of_nat (List.length h3Addresses)) (SZ_H3INDEX E)) st)) + 8.

(** The heap after the engine has linked the outlines. *)
Definition h3SetToMultiPolygon_heap
    (E : H3.Engine) (R : H3Rest.Engine) (h3Addresses : list JSValue) (st : State) : Buffer :=
  let addressCount := Z.of_nat (List.length h3Addresses) in
  let set := h3SetToMultiPolygon_set st in
  let st1 := after (C._calloc addressCount (SZ_H3INDEX E)) st in
  let st2 := after (storeArrayOfHexagons set h3Addresses) st1 in
  let st3 := after (C._calloc (SZ_LINKED_GEOPOLYGON E) 0) st2 in
  H3Rest.h3SetToLinkedGeo R set addressCount
    (h3SetToMultiPolygon_polygon E h3Addresses st) (buffer st3).

(* ------------------------------------------------------------------------- *)
(** ** A concrete rest of the engine *)

(** The engine's answers are fixed: the parent and the origin of an
    identifier are the identifier itself, a destination is never found; the
    arrays are filled with the words given, an empty slot between them; the
    outline of a set is one polygon of one loop of one vertex, in nodes at
    4096, 4128. *)
Definition sampleRest : H3Rest.Engine := {|
  H3Rest.h3IsValid := fun _ upper => if upper =? 0 then 0 else 1;
  H3Rest.h3IsPentagon := fun _ _ => 0;
  H3Rest.h3IsResClassIII := fun _ _ => 1;
  H3Rest.h3GetBaseCell := fun _ _ => 20;
  H3Rest.geoToH3 := fun _ _ _ => (-133169153, 143819528);
  H3Rest.h3ToParent := fun lower upper _ => (lower, upper);
  H3Rest.maxH3ToChildrenSize := fun _ _ _ => 7;
  H3Rest.h3ToChildren := fun lower upper _ hexagons b =>
    C.HEAPU32_set b [JInt lower; JInt upper; JInt 0; JInt 0; JInt (-1); JInt upper]
      (Z.quot hexagons 4);
  H3Rest.kRingDistances := fun lower upper _ kRings distances b =>
    C.HEAPU32_set
      (C.HEAPU32_set b [JInt lower; JInt upper; JInt 0; JInt 0; JInt (-1); JInt upper]
         (Z.quot kRings 4))
      [JInt 0; JInt 0; JInt 1] (Z.quot distances 4);
  H3Rest.h3SetToLinkedGeo := fun _ _ polygon b =>
    let b := C.HEAPU32_set b [JInt 4096; JInt 4096; JInt 0] (Z.quot polygon 4) in
    let b := C.HEAPU32_set b [JInt 4128; JInt 4128; JInt 0] 1024 in
    let b := C.HEAPF64_set b [0; Math_PI]%float 516 in
    C.HEAPU32_set b [JInt 0] 1036;
  H3Rest.destroyLinkedPolygon := fun _ b => b;
  H3Rest.h3IndexesAreNeighbors := fun _ _ _ _ => 1;
  H3Rest.getH3UnidirectionalEdge := fun oLower oUpper _ _ => (oLower, oUpper);
  H3Rest.getOriginH3IndexFromUnidirectionalEdge := fun lower upper => (lower, upper);
  H3Rest.getDestinationH3IndexFromUnidirectionalEdge := fun lower _ => (lower, 0);
  H3Rest.h3UnidirectionalEdgeIsValid := fun _ _ => 1;
  H3Rest.getH3IndexesFromUnidirectionalEdge := fun lower upper hexagons b =>
    C.HEAPU32_set b [JInt lower; JInt upper; JInt lower; JInt upper] (Z.quot hexagons 4);
  H3Rest.getH3UnidirectionalEdgesFromHexagon := fun lower upper edges b =>
    C.HEAPU32_set b [JInt lower; JInt upper] (Z.quot edges 4);
  H3Rest.numHexagons := fun _ => (547465546, 1)
|}.

(** The heap after the sample engine has linked the outline of one cell, from
    the empty state. *)
Definition sampleOutline : Buffer :=
  h3SetToMultiPolygon_heap (sampleEngine 0) sampleRest [VStr "8928308f80fffff"] emptyState.

(* ------------------------------------------------------------------------- *)
(** ** The heap around the engine call of [polyfill], for a single loop *)

Definition polyfill_geoPolygon (st : State) : Z := C.roundUp8 (brk st) + 8.

Definition polyfill_hexagons
    (E : H3.Engine) (outer : list Point) (isGeoJson : bool) (st : State) : Z :=
  C.roundUp8 (brk (after (coordinatesToGeoPolygon E [outer] isGeoJson) st)) + 8.

(** The heap the engine is given: the polygon is built, the output array is
    zeroed. *)
Definition polyfill_given
    (E : H3.Engine) (outer : list Point) (res : JSValue) (isGeoJson : bool) (st : State)
  : Buffer :=
  let st1 := after (coordinatesToGeoPolygon E [outer] isGeoJson) st in
  let arrayLen := H3.maxPolyfillSize E (polyfill_geoPolygon st) res (buffer st1) in
  buffer (after (C._calloc arrayLen (SZ_H3INDEX E)) st1).

(** The heap the engine leaves. *)
Definition polyfill_left
    (E : H3.Engine) (outer : list Point) (res : JSValue) (isGeoJson : bool) (st : State)
  : Buffer :=
  H3.polyfill E (polyfill_geoPolygon st) res (polyfill_hexagons E outer isGeoJson st)
    (polyfill_given E outer res isGeoJson st).

(* ------------------------------------------------------------------------- *)
(** ** Loop records in the heap *)

(** The loop record at [geofence] holds [loop]: its first word is the number
    of vertices, and the array its second word points to holds, for each
    vertex in order, the latitude then the longitude, constrained and in
    radians. *)
Definition geofenceHolds (b : Buffer) (geofence : Z) (isGeoJson : bool) (loop : list Point)
  : Prop :=
  C.getValue_i32 b geofence = Z.of_nat (List.length loop)
  /\ forall (k : nat) (p : Point), nth_error loop k = Some p ->
       C.getValue_double b (C.getValue_i32 b (geofence + 4) + 16 * Z.of_nat k)
       = degsToRads (constrainLat (if isGeoJson then snd p else fst p))
       /\ C.getValue_double b (C.getValue_i32 b (geofence + 4) + 16 * Z.of_nat k + 8)
          = degsToRads (constrainLng (if isGeoJson then fst p else snd p)).

(** Auxiliary definition of the proofs: the record holds the loop, and the
    array is 8-byte aligned and lies between [lo] and [hi]. *)
Definition loopStored
    (b : Buffer) (geofence : Z) (isGeoJson : bool) (loop : list Point) (lo hi : Z) : Prop :=
  geofenceHolds b geofence isGeoJson loop
  /\ exists q, C.getValue_i32 b (geofence + 4) = 8 * q
               /\ lo <= 8 * q /\ 8 * q + 16 * Z.of_nat (List.length loop) <= hi.

(* ------------------------------------------------------------------------- *)
(** * Properties *)

(** *** The identifier codec *)

Example splitLong_cell :
  h3AddressToSplitLong (VStr "85283473fffffff") = (JInt 1073741823, JInt 139625287).
Proof. vm_compute. reflexivity. Qed.

Example roundtrip_cell :
  (let '(lo, hi) := h3AddressToSplitLong (VStr "85283473fffffff") in
   splitLongToH3Address lo hi) = "85283473fffffff".
Proof. vm_compute. reflexivity. Qed.

Example roundtrip_edge :
  (let '(lo, hi) := h3AddressToSplitLong (VStr "115283473fffffff") in
   splitLongToH3Address lo hi) = "115283473fffffff".
Proof. vm_compute. reflexivity. Qed.

(** The high word is printed without padding: a leading zero is not given
    back, which is why identifier strings are taken without one. *)
Example roundtrip_drops_leading_zero :
  (let '(lo, hi) := h3AddressToSplitLong (VStr "085283473fffffff") in
   splitLongToH3Address lo hi) = "85283473fffffff".
Proof. vm_compute. reflexivity. Qed.

(** A string of fewer than 9 digits has no high word: [parseInt] of the empty
    string is NaN, printed as the word 0x80000000. *)
Example splitLong_short_string :
  h3AddressToSplitLong (VStr "ff") = (JInt 255, JNaN)
  /\ splitLongToH3Address (JInt 255) JNaN = "80000000000000ff".
Proof. vm_compute. split; reflexivity. Qed.

Example hexFrom32Bit_negative :
  hexFrom32Bit (JInt (-1)) = "ffffffff" /\ hexFrom32Bit (JInt (-2147483648)) = "80000000".
Proof. vm_compute. split; reflexivity. Qed.

Example resolution_examples :
  h3GetResolution (VStr "85283473fffffff") = JInt 5
  /\ h3GetResolution (VStr "8f283473fffffff") = JInt 15
  /\ h3GetResolution (VStr "8") = JNaN
  /\ h3GetResolution (VStr "8z") = JNaN.
Proof. vm_compute. repeat split; reflexivity. Qed.

Lemma lowerHex_char (c : ascii) :
  isLowerHexDigit c = true ->
  exists d, hexDigitValue c = Some d /\ hexDigitChar d = c /\ isDigit d
            /\ isWhiteSpace c = false /\ c <> "-"%char /\ c <> "+"%char
            /\ c <> "x"%char /\ c <> "X"%char.
Proof.
  destruct c as [b0 b1 b2 b3 b4 b5 b6 b7].
  destruct b0, b1, b2, b3, b4, b5, b6, b7; vm_compute; intros H;
    try discriminate H;
    (eexists; repeat split; try reflexivity; try discriminate; try lia).
Qed.

Lemma valueOfDigits_snoc (ds : list Z) (d : Z) :
  valueOfDigits (ds ++ [d]) = valueOfDigits ds * 16 + d.
Proof. unfold valueOfDigits. rewrite fold_left_app. reflexivity. Qed.

Lemma valueOfDigits_bounds (ds : list Z) :
  Forall isDigit ds -> 0 <= valueOfDigits ds < 16 ^ Z.of_nat (List.length ds).
Proof.
  induction ds as [|d ds IH] using rev_ind; intros Hds.
  - cbn. lia.
  - apply Forall_app in Hds as [Hds Hd]. inversion Hd as [|? ? Hd' _]; subst.
    specialize (IH Hds). rewrite valueOfDigits_snoc, List.length_app. cbn [List.length].
    replace (Z.of_nat (List.length ds + 1)) with (Z.succ (Z.of_nat (List.length ds))) by lia.
    rewrite Z.pow_succ_r by lia. unfold isDigit in Hd'. lia.
Qed.

Lemma stripZeros_snoc (ds : list Z) (d : Z) :
  stripZeros (ds ++ [d]) =
  match stripZeros ds with
  | [] => stripZeros [d]
  | c :: cs => (c :: cs) ++ [d]
  end.
Proof.
  induction ds as [|a ds IH]; [reflexivity|].
  destruct a as [| p | p]; cbn [stripZeros app]; [exact IH | reflexivity | reflexivity].
Qed.

Lemma stripZeros_nil_value (ds : list Z) :
  Forall isDigit ds -> (stripZeros ds = [] <-> valueOfDigits ds = 0).
Proof.
  induction ds as [|d ds IH] using rev_ind; intros Hds.
  - cbn. tauto.
  - apply Forall_app in Hds as [Hds Hd]. inversion Hd as [|? ? Hd' _]; subst.
    specialize (IH Hds). pose proof (valueOfDigits_bounds ds Hds) as Hb.
    rewrite stripZeros_snoc, valueOfDigits_snoc. unfold isDigit in Hd'.
    destruct (stripZeros ds) as [|c cs] eqn:Hs.
    + assert (valueOfDigits ds = 0) as -> by (apply (proj1 IH); reflexivity).
      destruct d; cbn; split; intros; try reflexivity; try discriminate; lia.
    + split; [discriminate|]. intros Hv.
      assert (valueOfDigits ds = 0) as Hz by lia.
      apply (proj2 IH) in Hz. discriminate Hz.
Qed.

Lemma digitsStr_app (a b : list Z) :
  digitsStr (a ++ b) = (digitsStr a ++ digitsStr b)%string.
Proof. induction a as [|x a IH]; cbn; [reflexivity | now rewrite IH]. Qed.

Lemma string_app_assoc (a b c : string) :
  ((a ++ b) ++ c = a ++ (b ++ c))%string.
Proof. induction a as [|x a IH]; cbn; [reflexivity | now rewrite IH]. Qed.

(** [hexDigitsOf] prints the digits of a positive value without its leading
    zeros, given enough fuel. *)
Lemma hexDigitsOf_digits (ds : list Z) :
  Forall isDigit ds ->
  forall (fuel : nat) (acc : string),
    0 < valueOfDigits ds < 16 ^ Z.of_nat fuel ->
    hexDigitsOf fuel (valueOfDigits ds) acc = (digitsStr (stripZeros ds) ++ acc)%string.
Proof.
  induction ds as [|d ds IH] using rev_ind; intros Hds fuel acc Hv.
  - cbn in Hv. lia.
  - apply Forall_app in Hds as [Hds Hd]. inversion Hd as [|? ? Hd' _]; subst.
    pose proof (valueOfDigits_bounds ds Hds) as Hb. unfold isDigit in Hd'.
    rewrite valueOfDigits_snoc in *.
    destruct fuel as [|fuel]; [cbn in Hv; lia|].
    cbn [hexDigitsOf].
    replace ((valueOfDigits ds * 16 + d) mod 16) with d
      by (rewrite Z.add_comm, Z.mod_add by lia; symmetry; apply Z.mod_small; lia).
    replace ((valueOfDigits ds * 16 + d) / 16) with (valueOfDigits ds)
      by (rewrite Z.add_comm, Z.div_add by lia; rewrite Z.div_small by lia; lia).
    rewrite stripZeros_snoc.
    destruct (Z.ltb_spec (valueOfDigits ds * 16 + d) 16) as [Hlt|Hge].
    + assert (valueOfDigits ds = 0) as Hz by lia.
      apply (proj2 (stripZeros_nil_value ds Hds)) in Hz. rewrite Hz.
      destruct d; cbn; try reflexivity; lia.
    + assert (0 < valueOfDigits ds) as Hpos by lia.
      destruct (stripZeros ds) as [|c cs] eqn:Hs.
      * apply (proj1 (stripZeros_nil_value ds Hds)) in Hs. lia.
      * rewrite IH; [|exact Hds|].
        -- rewrite digitsStr_app, string_app_assoc. reflexivity.
        -- replace (Z.of_nat (S fuel)) with (Z.succ (Z.of_nat fuel)) in Hv by lia.
           rewrite Z.pow_succ_r in Hv by lia. lia.
Qed.

Lemma hexOfZ_digits (ds : list Z) :
  Forall isDigit ds ->
  hexOfZ (valueOfDigits ds) =
  match stripZeros ds with
  | [] => "0"
  | cs => digitsStr cs
  end.
Proof.
  intros Hds. pose proof (valueOfDigits_bounds ds Hds) as Hb.
  destruct (stripZeros ds) as [|c cs] eqn:Hs.
  - apply (proj1 (stripZeros_nil_value ds Hds)) in Hs. rewrite Hs. reflexivity.
  - assert (0 < valueOfDigits ds) as Hpos.
    { destruct (Z.eq_dec (valueOfDigits ds) 0) as [Hz|Hz]; [|lia].
      apply (proj2 (stripZeros_nil_value ds Hds)) in Hz. congruence. }
    unfold hexOfZ. rewrite hexDigitsOf_digits; [| exact Hds |].
    + rewrite Hs. generalize (digitsStr (c :: cs)). intros s.
      induction s as [|x s IHs]; cbn; [reflexivity | now rewrite IHs].
    + split; [exact Hpos|].
      pose proof (Z.log2_spec (valueOfDigits ds) Hpos) as [_ Hlog].
      pose proof (Z.log2_nonneg (valueOfDigits ds)) as Hnn.
      replace (Z.of_nat (S (Z.to_nat (Z.log2 (valueOfDigits ds)))))
        with (Z.succ (Z.log2 (valueOfDigits ds))) by lia.
      eapply Z.lt_le_trans; [exact Hlog|].
      apply Z.pow_le_mono_l. lia.
Qed.

Lemma lowerHex_zero (c : ascii) :
  isLowerHexDigit c = true -> hexDigitValue c = Some 0 -> c = "0"%char.
Proof.
  destruct c as [b0 b1 b2 b3 b4 b5 b6 b7].
  destruct b0, b1, b2, b3, b4, b5, b6, b7; vm_compute; intros H1 H2;
    try discriminate H1; try discriminate H2; reflexivity.
Qed.

Lemma digitsStr_length (ds : list Z) :
  String.length (digitsStr ds) = List.length ds.
Proof. induction ds as [|d ds IH]; cbn; [reflexivity | now rewrite IH]. Qed.

Lemma zeroes_repeat (k : nat) (out : string) :
  zeroes k out = (out ++ digitsStr (repeat 0 k))%string.
Proof.
  revert out. induction k as [|k IH]; intros out; cbn [zeroes repeat digitsStr].
  - induction out as [|x out IHo]; cbn; [reflexivity | now rewrite <- IHo].
  - rewrite IH, string_app_assoc. reflexivity.
Qed.

Lemma stripZeros_split (ds : list Z) :
  exists k : nat, ds = repeat 0 k ++ stripZeros ds.
Proof.
  induction ds as [|d ds [k IH]].
  - exists 0%nat. reflexivity.
  - destruct d as [|p|p].
    + exists (S k). cbn [stripZeros repeat app]. now rewrite <- IH.
    + exists 0%nat. reflexivity.
    + exists 0%nat. reflexivity.
Qed.

Lemma stripZeros_nil_repeat (ds : list Z) :
  stripZeros ds = [] -> ds = repeat 0 (List.length ds).
Proof.
  induction ds as [|d ds IH]; [reflexivity|].
  destruct d; cbn [stripZeros]; try discriminate.
  intros H. cbn. now rewrite <- IH.
Qed.

(** Padding the printed value back to the width of the digits restores
    them. *)
Lemma zeroPad_hexOfZ (ds : list Z) :
  Forall isDigit ds -> ds <> [] ->
  zeroPad (Z.of_nat (List.length ds)) (hexOfZ (valueOfDigits ds)) = digitsStr ds.
Proof.
  intros Hds Hne. rewrite (hexOfZ_digits ds Hds). unfold zeroPad.
  destruct (stripZeros ds) as [|c cs] eqn:Hs.
  - apply stripZeros_nil_repeat in Hs.
    destruct ds as [|d ds']; [congruence|]. clear Hne.
    cbn [List.length] in *. change (String.length "0") with 1%nat.
    replace (Z.to_nat (Z.of_nat (S (List.length ds')) - Z.of_nat 1)) with (List.length ds') by lia.
    rewrite zeroes_repeat. cbn [append].
    rewrite Hs. change "0" with (digitsStr [0]).
    rewrite <- digitsStr_app, <- repeat_cons. reflexivity.
  - destruct (stripZeros_split ds) as [k Hk]. rewrite Hs in Hk.
    rewrite digitsStr_length.
    assert (List.length ds = (k + List.length (c :: cs))%nat) as Hlen.
    { rewrite Hk at 1. rewrite List.length_app, repeat_length. reflexivity. }
    rewrite Hlen.
    replace (Z.to_nat (Z.of_nat (k + List.length (c :: cs)) - Z.of_nat (List.length (c :: cs)))) with k by lia.
    rewrite zeroes_repeat. cbn [append]. rewrite <- digitsStr_app, <- Hk. reflexivity.
Qed.

(** [parseInt] of a non-empty run of at most 13 lowercase hexadecimal digits
    is its value, exactly. *)
Lemma digitsPrefix_lowerHex (s : string) :
  allLowerHex s = true ->
  digitsStr (digitsPrefix s) = s /\ Forall isDigit (digitsPrefix s)
  /\ List.length (digitsPrefix s) = String.length s.
Proof.
  induction s as [|c s IH]; cbn [allLowerHex digitsPrefix]; intros H.
  - repeat split. constructor.
  - apply andb_true_iff in H as [Hc Hs]. specialize (IH Hs) as (IH1 & IH2 & IH3).
    destruct (lowerHex_char c Hc) as (d & Hv & Hch & Hd & _). rewrite Hv.
    cbn [digitsStr List.length String.length]. rewrite Hch, IH1, IH3.
    repeat split. constructor; assumption.
Qed.

Lemma parseInt16_lowerHex (s : string) :
  allLowerHex s = true -> s <> EmptyString -> (String.length s <= 13)%nat ->
  parseInt16 s = JInt (valueOfDigits (digitsPrefix s)).
Proof.
  intros Hs Hne Hlen.
  destruct (digitsPrefix_lowerHex s Hs) as (_ & Hds & Hl).
  pose proof (valueOfDigits_bounds _ Hds) as Hb. rewrite Hl in Hb.
  assert (16 ^ Z.of_nat (String.length s) <= 16 ^ 13) as Hpow
      by (apply Z.pow_le_mono_r; lia).
  assert (toNumber (valueOfDigits (digitsPrefix s)) = JInt (valueOfDigits (digitsPrefix s))) as Hnum.
  { unfold toNumber.
    destruct (Z.ltb_spec (Z.abs (valueOfDigits (digitsPrefix s))) (2 ^ 53)) as [_|Hge];
      [reflexivity|].
    change (16 ^ 13) with 4503599627370496 in Hpow.
    change (2 ^ 53) with 9007199254740992 in Hge. lia. }
  destruct s as [|c r]; [congruence|].
  cbn [allLowerHex] in Hs. apply andb_true_iff in Hs as [Hc Hr].
  destruct (lowerHex_char c Hc) as (d & Hv & _ & _ & Hws & Hminus & Hplus & _).
  unfold parseInt16. cbn [trimStart]. rewrite Hws.
  assert (match String c r with
          | String "-" r0 => (true, r0)
          | String "+" r0 => (false, r0)
          | _ => (false, String c r)
          end = (false, String c r)) as ->.
  { destruct c as [b0 b1 b2 b3 b4 b5 b6 b7].
    destruct b0, b1, b2, b3, b4, b5, b6, b7; try reflexivity; congruence. }
  assert (match String c r with
          | String "0" (String "x" r0) => r0
          | String "0" (String "X" r0) => r0
          | _ => String c r
          end = String c r) as ->.
  { destruct r as [|c' r']; [destruct c as [[] [] [] [] [] [] [] []]; reflexivity|].
    cbn [allLowerHex] in Hr. apply andb_true_iff in Hr as [Hc' _].
    destruct (lowerHex_char c' Hc') as (_ & _ & _ & _ & _ & _ & _ & Hx & HX).
    destruct c as [[] [] [] [] [] [] [] []]; try reflexivity;
      destruct c' as [[] [] [] [] [] [] [] []]; try reflexivity; congruence. }
  cbn [digitsPrefix] in *. rewrite Hv in *. exact Hnum.
Qed.

(** *** Splitting a string at an index *)

Lemma substring_split (s : string) (k : nat) :
  (k <= String.length s)%nat ->
  s = (String.substring 0 k s ++ String.substring k (String.length s - k) s)%string
  /\ String.length (String.substring 0 k s) = k
  /\ String.length (String.substring k (String.length s - k) s) = (String.length s - k)%nat.
Proof.
  revert k. induction s as [|c s IH]; intros k Hk.
  - cbn in Hk. assert (k = 0%nat) as -> by lia. cbn. repeat split.
  - destruct k as [|k].
    + cbn [String.substring String.length Nat.sub append].
      destruct (IH 0%nat ltac:(lia)) as (H1 & H2 & H3).
      rewrite Nat.sub_0_r in *.
      assert (String.substring 0 0 s = EmptyString) as H0 by (destruct s; reflexivity).
      rewrite H0 in H1. cbn [append] in H1. rewrite <- H1. cbn. repeat split.
    + cbn [String.length] in Hk.
      destruct (IH k ltac:(lia)) as (H1 & H2 & H3).
      cbn [String.substring String.length Nat.sub append].
      rewrite <- H1, H2, H3. repeat split.
Qed.

Lemma allLowerHex_app (a b : string) :
  allLowerHex (a ++ b) = allLowerHex a && allLowerHex b.
Proof.
  induction a as [|c a IH]; cbn; [reflexivity|].
  rewrite IH, andb_assoc. reflexivity.
Qed.

Lemma stripZeros_head (c : ascii) (r : string) :
  isLowerHexDigit c = true -> c <> "0"%char ->
  stripZeros (digitsPrefix (String c r)) = digitsPrefix (String c r).
Proof.
  intros Hc Hnz. cbn [digitsPrefix].
  destruct (lowerHex_char c Hc) as (d & Hv & _).
  rewrite Hv. destruct d as [|p|p]; try reflexivity.
  exfalso. apply Hnz. apply lowerHex_zero; assumption.
Qed.

(** The two halves that [h3AddressToSplitLong] cuts out of a string of at
    least 8 characters. *)
Lemma js_substring_upper (s : string) :
  (8 <= String.length s)%nat ->
  js_substring s 0 (Z.of_nat (String.length s) - 8)
  = String.substring 0 (String.length s - 8) s.
Proof.
  intros H. unfold js_substring.
  replace (Z.to_nat (Z.min (Z.min (Z.max 0 0) (Z.of_nat (String.length s)))
                       (Z.min (Z.max (Z.of_nat (String.length s) - 8) 0) (Z.of_nat (String.length s)))))
    with 0%nat by lia.
  f_equal. lia.
Qed.

Lemma js_substring_lower (s : string) :
  (8 <= String.length s)%nat ->
  js_substring_from s (Z.of_nat (String.length s) - 8)
  = String.substring (String.length s - 8) 8 s.
Proof.
  intros H. unfold js_substring_from, js_substring. f_equal; lia.
Qed.

(** The round trip, for the three hypotheses spelled out. *)
Lemma roundtrip_lowerHex (s : string) :
  (9 <= String.length s)%nat -> (String.length s <= 16)%nat ->
  allLowerHex s = true ->
  (forall r, s <> String "0" r) ->
  (let '(lower, upper) := h3AddressToSplitLong (VStr s) in
   splitLongToH3Address lower upper) = s.
Proof.
  intros Hmin Hmax Hhex Hlead.
  cbn [h3AddressToSplitLong].
  rewrite js_substring_upper, js_substring_lower by lia.
  destruct (substring_split s (String.length s - 8) ltac:(lia)) as (Hsplit & Hlu & Hll).
  replace (String.length s - (String.length s - 8))%nat with 8%nat in * by lia.
  set (u := String.substring 0 (String.length s - 8) s) in *.
  set (l := String.substring (String.length s - 8) 8 s) in *.
  assert (allLowerHex u = true /\ allLowerHex l = true) as [Hu Hl].
  { rewrite Hsplit, allLowerHex_app in Hhex. apply andb_true_iff in Hhex. exact Hhex. }
  assert (u <> EmptyString) as Hune by (intros E; rewrite E in Hlu; cbn in Hlu; lia).
  assert (l <> EmptyString) as Hlne by (intros E; rewrite E in Hll; cbn in Hll; lia).
  rewrite (parseInt16_lowerHex u Hu Hune) by lia.
  rewrite (parseInt16_lowerHex l Hl Hlne) by lia.
  destruct (digitsPrefix_lowerHex u Hu) as (Hus & Hud & Hul).
  destruct (digitsPrefix_lowerHex l Hl) as (Hls & Hld & Hlen).
  pose proof (valueOfDigits_bounds _ Hud) as Hub.
  pose proof (valueOfDigits_bounds _ Hld) as Hlb.
  unfold splitLongToH3Address, hexFrom32Bit, jsint_ge0, toString16.
  destruct (Z.leb_spec 0 (valueOfDigits (digitsPrefix u))) as [_|?]; [|lia].
  destruct (Z.leb_spec 0 (valueOfDigits (digitsPrefix l))) as [_|?]; [|lia].
  destruct (Z.ltb_spec (valueOfDigits (digitsPrefix u)) 0) as [?|_]; [lia|].
  destruct (Z.ltb_spec (valueOfDigits (digitsPrefix l)) 0) as [?|_]; [lia|].
  (* the low word: eight digits, padded back *)
  assert (digitsPrefix l <> []) as Hlnil.
  { intros E. rewrite E in Hlen. cbn in Hlen. lia. }
  pose proof (zeroPad_hexOfZ _ Hld Hlnil) as Hpad.
  rewrite Hlen, Hll, Hls in Hpad. change (Z.of_nat 8) with 8 in Hpad. rewrite Hpad.
  (* the high word: printed without padding, it has no leading zero *)
  rewrite (hexOfZ_digits _ Hud).
  assert (stripZeros (digitsPrefix u) = digitsPrefix u) as Hstrip.
  { destruct u as [|c r] eqn:Eu; [congruence|].
    cbn [allLowerHex] in Hu. apply andb_true_iff in Hu as [Hc _].
    apply stripZeros_head; [exact Hc|].
    intros ->. apply (Hlead (r ++ l)%string). rewrite Hsplit at 1. reflexivity. }
  rewrite Hstrip.
  destruct (digitsPrefix u) as [|d ds] eqn:Ed.
  - cbn in Hul. lia.
  - rewrite Hus. symmetry. exact Hsplit.
Qed.

(** C2.  Decoding an identifier string into its two words and encoding the
    words again gives the string back: for every string of 9 to 16 lowercase
    hexadecimal digits without a leading zero (the width and form in which the
    engine prints a cell or edge identifier),
    [splitLongToH3Address (h3AddressToSplitLong s) = s]. *)
Theorem splitLong_roundtrip (s : string) :
  isIdentifierString s = true ->
  (let '(lower, upper) := h3AddressToSplitLong (VStr s) in
   splitLongToH3Address lower upper) = s.
Proof.
  unfold isIdentifierString. intros H.
  apply andb_true_iff in H as [H Hlead].
  apply andb_true_iff in H as [H Hhex].
  apply andb_true_iff in H as [Hmin Hmax].
  apply Nat.leb_le in Hmin, Hmax.
  apply roundtrip_lowerHex; try assumption.
  intros r ->. discriminate Hlead.
Qed.

Lemma splitLong_roundtrip_witness :
  isIdentifierString "8928308280fffff" = true
  /\ (let '(lower, upper) := h3AddressToSplitLong (VStr "8928308280fffff") in
      splitLongToH3Address lower upper) = "8928308280fffff".
Proof.
  split; [reflexivity | apply (splitLong_roundtrip "8928308280fffff"); reflexivity].
Defined.

(** C9.  A non-string input is not an error for [h3AddressToSplitLong]: it
    yields the pair [[0, 0]]. *)
Theorem h3AddressToSplitLong_nonstring (h3Address : JSValue) :
  typeof h3Address <> "string" ->
  h3AddressToSplitLong h3Address = (JInt 0, JInt 0).
Proof.
  destruct h3Address; cbn; intros H; try reflexivity.
  exfalso. apply H. reflexivity.
Qed.

Lemma h3AddressToSplitLong_nonstring_witness :
  typeof VNull <> "string" /\ h3AddressToSplitLong VNull = (JInt 0, JInt 0).
Proof.
  split; [discriminate | apply (h3AddressToSplitLong_nonstring VNull); discriminate].
Defined.

Lemma parseInt16_single (c : ascii) :
  parseInt16 (String c EmptyString)
  = match hexDigitValue c with Some d => JInt d | None => JNaN end.
Proof.
  destruct c as [b0 b1 b2 b3 b4 b5 b6 b7].
  destruct b0, b1, b2, b3, b4, b5, b6, b7; vm_compute; reflexivity.
Qed.

(** C10.  [h3GetResolution] is a function of its argument alone (it takes
    neither the engine nor the heap): -1 for a non-string, and for a string the
    value of its second character as one hexadecimal digit, NaN when that
    character is missing or is not a hexadecimal digit. *)
Theorem h3GetResolution_second_digit (h3Address : JSValue) :
  h3GetResolution h3Address =
  match h3Address with
  | VStr s =>
      match String.get 1 s with
      | Some c =>
          match hexDigitValue c with
          | Some d => JInt d
          | None => JNaN
          end
      | None => JNaN
      end
  | _ => JInt (-1)
  end.
Proof.
  destruct h3Address as [| | | |s|]; try reflexivity.
  unfold h3GetResolution, charAt.
  destruct (String.get 1 s) as [c|]; [apply parseInt16_single | reflexivity].
Qed.

(** *** Arrays of identifiers *)

Lemma readArrayOfHexagons_loop_filter (b : Buffer) (cAddress : Z) (n k : nat) (out : list string) :
  readArrayOfHexagons_loop b cAddress n (2 * Z.of_nat k) out
  = out ++ map slotToString
             (filter (fun w => negb (isSentinel w)) (map (slot b cAddress) (seq k n))).
Proof.
  revert k out. induction n as [|n IH]; intros k out.
  - cbn. now rewrite app_nil_r.
  - cbn [readArrayOfHexagons_loop seq map filter].
    replace (2 * Z.of_nat k + 2) with (2 * Z.of_nat (S k)) by lia.
    rewrite IH. unfold C.SZ_INT.
    assert (slot b cAddress k
            = (C.getValue_i32 b (cAddress + 4 * (2 * Z.of_nat k)),
               C.getValue_i32 b (cAddress + 4 * (2 * Z.of_nat k + 1)))) as Hslot
        by reflexivity.
    rewrite Hslot. unfold isSentinel at 2. cbn [fst snd].
    destruct (C.getValue_i32 b (cAddress + 4 * (2 * Z.of_nat k)) =? 0),
             (C.getValue_i32 b (cAddress + 4 * (2 * Z.of_nat k + 1)) =? 0);
      cbn [negb orb andb map]; try rewrite <- app_assoc; reflexivity.
Qed.

Lemma filter_length_le {A : Type} (p : A -> bool) (l : list A) :
  (List.length (filter p l) <= List.length l)%nat.
Proof.
  induction l as [|x l IH]; cbn; [lia|]. destruct (p x); cbn; lia.
Qed.

Lemma readArrayOfHexagons_filter (b : Buffer) (cAddress maxCount : Z) :
  readArrayOfHexagons b cAddress maxCount
  = map slotToString
        (filter (fun w => negb (isSentinel w))
                (map (slot b cAddress) (seq 0 (Z.to_nat maxCount)))).
Proof.
  unfold readArrayOfHexagons.
  change 0 with (2 * Z.of_nat 0) at 1.
  rewrite readArrayOfHexagons_loop_filter. reflexivity.
Qed.

Lemma readArrayOfHexagons_length (b : Buffer) (cAddress maxCount : Z) :
  (List.length (readArrayOfHexagons b cAddress maxCount) <= Z.to_nat maxCount)%nat.
Proof.
  rewrite readArrayOfHexagons_filter, length_map.
  eapply Nat.le_trans; [apply filter_length_le|].
  rewrite length_map, length_seq. lia.
Qed.

(** C7.  [readArrayOfHexagons] over a capacity [maxCount] returns, in buffer
    order, the strings of exactly the slots whose two words are not both
    zero, wherever the zero slots lie; so it never returns more than
    [maxCount] identifiers. *)
Theorem readArrayOfHexagons_skips_sentinels (b : Buffer) (cAddress maxCount : Z) :
  readArrayOfHexagons b cAddress maxCount
  = map slotToString
        (filter (fun w => negb (isSentinel w))
                (map (slot b cAddress) (seq 0 (Z.to_nat maxCount))))
  /\ (List.length (readArrayOfHexagons b cAddress maxCount) <= Z.to_nat maxCount)%nat.
Proof.
  split; [apply readArrayOfHexagons_filter | apply readArrayOfHexagons_length].
Qed.

(** A zero slot between two filled ones is skipped, the filled slot after it is
    still read. *)
Example readArrayOfHexagons_interior_sentinel :
  let b := C.HEAPU32_set (fun _ => 0)
             [JInt 1073741823; JInt 139625287; JInt 0; JInt 0; JInt 4294967295; JInt 139625288] 2 in
  readArrayOfHexagons b 8 3 = ["85283473fffffff"; "8528348ffffffff"].
Proof. vm_compute. reflexivity. Qed.

(** *** Binary64 numbers through their specification *)

(** A valid finite number has a mantissa below 2^53. *)
Lemma digits2_pos_bound (m : positive) :
  2 ^ (Zpos (digits2_pos m) - 1) <= Zpos m < 2 ^ Zpos (digits2_pos m).
Proof.
  induction m as [m IH | m IH |]; cbn [digits2_pos].
  - rewrite Pos2Z.inj_succ.
    replace (Z.succ (Zpos (digits2_pos m)) - 1) with (Z.succ (Zpos (digits2_pos m) - 1)) by lia.
    rewrite !Z.pow_succ_r by lia. lia.
  - rewrite Pos2Z.inj_succ.
    replace (Z.succ (Zpos (digits2_pos m)) - 1) with (Z.succ (Zpos (digits2_pos m) - 1)) by lia.
    rewrite !Z.pow_succ_r by lia. lia.
  - cbn. lia.
Qed.

Lemma bounded_mantissa (m : positive) (e : Z) :
  bounded prec emax m e = true ->
  Zpos m < 2 ^ 53 /\ -1074 <= e <= 971
  /\ (Zpos (digits2_pos m) = 53 \/ e = -1074).
Proof.
  unfold bounded, canonical_mantissa, fexp, emin, prec, emax.
  intros H. apply andb_true_iff in H as [Hc He].
  apply Z.eqb_eq in Hc. apply Z.leb_le in He.
  pose proof (digits2_pos_bound m) as [_ Hd].
  assert (Zpos (digits2_pos m) <= 53) as Hle by lia.
  split; [|lia].
  eapply Z.lt_le_trans; [exact Hd|]. apply Z.pow_le_mono_r; lia.
Qed.

Lemma Pos_compare_cont_Eq_Lt (p q : positive) :
  Pos.compare_cont Eq p q = Lt <-> (Zpos p < Zpos q).
Proof. change (Pos.compare_cont Eq p q) with (Pos.compare p q). rewrite Pos.compare_lt_iff. lia. Qed.

Lemma Pos_compare_cont_Eq_Eq (p q : positive) :
  Pos.compare_cont Eq p q = Eq <-> p = q.
Proof. change (Pos.compare_cont Eq p q) with (Pos.compare p q). apply Pos.compare_eq_iff. Qed.

Lemma Pos_compare_cont_Eq_Gt (p q : positive) :
  Pos.compare_cont Eq p q = Gt <-> (Zpos q < Zpos p).
Proof. change (Pos.compare_cont Eq p q) with (Pos.compare p q). rewrite Pos.compare_gt_iff. lia. Qed.

(** Equality with a positive finite number, read on the specification. *)
Lemma SFeqb_finite_eq (m1 m2 : positive) (e1 e2 : Z) (s : spec_float) :
  s = S754_finite false m2 e2 ->
  SFeqb (S754_finite false m1 e1) s = true -> m1 = m2 /\ e1 = e2.
Proof.
  intros -> H. unfold SFeqb, SFcompare in H.
  destruct (Z.compare_spec e1 e2) as [He|He|He]; try discriminate H.
  destruct (Pos.compare_cont Eq m1 m2) eqn:Hm; try discriminate H.
  apply Pos_compare_cont_Eq_Eq in Hm. tauto.
Qed.

(** *** [validateRes] accepts the sixteen resolutions only *)

Lemma floor_small_quotient (m : positive) (e : Z) :
  Zpos m < 2 ^ 53 -> e <= -49 -> (e = -49 -> Zpos m <= 8444249301319680) ->
  0 <= Zpos m / 2 ^ (- e) <= 15.
Proof.
  intros Hm He Hm15.
  assert (0 < 2 ^ (- e)) as Hpos by (apply Z.pow_pos_nonneg; lia).
  split; [apply Z.div_pos; lia|].
  destruct (Z.eq_dec e (-49)) as [->|Hne].
  - specialize (Hm15 eq_refl). change (2 ^ (- -49)) with 562949953421312 in *.
    apply Z.div_le_upper_bound; lia.
  - assert (2 ^ 50 <= 2 ^ (- e)) as Hp by (apply Z.pow_le_mono_r; lia).
    assert (Zpos m / 2 ^ (- e) < 8); [|lia].
    apply Z.div_lt_upper_bound; [lia|].
    change (2 ^ 53) with (2 ^ 50 * 8) in Hm. nia.
Qed.

Lemma validateRes_resolution (res : JSValue) :
  validateRes res = Return tt -> isResolution res = true.
Proof.
  destruct res as [| | |x| |]; cbn [validateRes]; try discriminate.
  destruct (x <? 0)%float eqn:Hneg; [discriminate|].
  destruct (15 <? x)%float eqn:Hbig; [discriminate|].
  destruct (Math_floor x =? x)%float eqn:Hfloor; [|discriminate].
  intros _. cbn [orb negb isResolution].
  rewrite ltb_spec in Hneg, Hbig. rewrite eqb_spec in Hfloor.
  unfold Math_floor in Hfloor.
  pose proof (Prim2SF_valid x) as Hvalid.
  assert (forall k : float, Prim2SF x = Prim2SF k ->
                            existsb (fun r => (k =? r)%float) resolutions = true ->
                            existsb (fun r => (x =? r)%float) resolutions = true) as Hfound.
  { intros k Hk Hex. apply Prim2SF_inj in Hk. now subst k. }
  destruct (Prim2SF x) as [s | s | | s m e] eqn:Hx.
  - (* a zero *)
    unfold resolutions. cbn [existsb]. rewrite eqb_spec, Hx.
    destruct s; reflexivity.
  - destruct s; [discriminate Hneg | discriminate Hbig].
  - rewrite Hx in Hfloor. discriminate Hfloor.
  - destruct s; [discriminate Hneg|].
    cbn [valid_binary] in Hvalid. apply bounded_mantissa in Hvalid as (Hm & He & _).
    change (Prim2SF 15) with (S754_finite false 8444249301319680 (-49)) in Hbig.
    unfold SFltb, SFcompare in Hbig.
    assert (e <= -49 /\ (e = -49 -> Zpos m <= 8444249301319680)) as [He49 Hm15].
    { destruct (Z.compare_spec (-49) e) as [Heq|Hlt|Hgt]; try discriminate Hbig.
      - split; [lia|]. intros _.
        destruct (Pos.compare_cont Eq 8444249301319680 m) eqn:Hc; try discriminate Hbig.
        + apply Pos_compare_cont_Eq_Eq in Hc. lia.
        + apply Pos_compare_cont_Eq_Gt in Hc. lia.
      - split; lia. }
    destruct (Z.leb_spec 0 e) as [?|_]; [lia|].
    cbn [cond_Zopp] in Hfloor.
    pose proof (floor_small_quotient m e Hm He49 Hm15) as Hq.
    remember (Zpos m / 2 ^ (- e)) as q eqn:Eq. clear Eq.
    assert (q = 0 \/ q = 1 \/ q = 2 \/ q = 3 \/ q = 4 \/ q = 5 \/ q = 6 \/ q = 7
            \/ q = 8 \/ q = 9 \/ q = 10 \/ q = 11 \/ q = 12 \/ q = 13 \/ q = 14 \/ q = 15)
      as Hcases by lia.
    repeat (destruct Hcases as [-> | Hcases]); try subst q;
      cbn [Z.eqb] in Hfloor;
      try (discriminate Hfloor);
      match type of Hfloor with
      | SFeqb (Prim2SF ?k) _ = true =>
          let sk := eval vm_compute in (Prim2SF k) in
          change (Prim2SF k) with sk in Hfloor;
          match sk with
          | S754_finite false ?mk ?ek =>
              destruct (SFeqb_finite_eq mk m ek e _ eq_refl Hfloor) as [<- <-];
              apply (Hfound (SF2Prim sk)); [vm_compute; reflexivity | vm_compute; reflexivity]
          end
      end.
Qed.

Lemma SFeqb_to_finite (s : spec_float) (m : positive) (e : Z) :
  SFeqb s (S754_finite false m e) = true -> s = S754_finite false m e.
Proof.
  destruct s as [s | s | | s m' e']; unfold SFeqb, SFcompare.
  - destruct s; discriminate.
  - destruct s; discriminate.
  - discriminate.
  - destruct s; [discriminate|].
    destruct (Z.compare_spec e' e) as [He|He|He]; try discriminate.
    destruct (Pos.compare_cont Eq m' m) eqn:Hm; try discriminate.
    apply Pos_compare_cont_Eq_Eq in Hm. now subst.
Qed.

Lemma isResolution_validateRes (res : JSValue) :
  isResolution res = true -> validateRes res = Return tt.
Proof.
  destruct res as [| | |x| |]; cbn [isResolution]; try discriminate.
  unfold resolutions. cbn [existsb]. intros H.
  repeat (apply orb_true_iff in H as [H | H]); try discriminate H;
    rewrite eqb_spec in H;
    match type of H with
    | SFeqb _ (Prim2SF ?k) = true =>
        let sk := eval vm_compute in (Prim2SF k) in
        change (Prim2SF k) with sk in H;
        match sk with
        | S754_finite false ?mk ?ek =>
            apply SFeqb_to_finite in H;
            assert (x = k) as -> by (apply Prim2SF_inj; rewrite H; vm_compute; reflexivity);
            vm_compute; reflexivity
        | _ => idtac
        end
    end.
  (* zero: of either sign *)
  destruct (Prim2SF x) as [s | s | | s m e] eqn:Hx;
    try (destruct s; discriminate H); try discriminate H.
  destruct s.
  - assert (x = neg_zero) as -> by (apply Prim2SF_inj; rewrite Hx; reflexivity).
    vm_compute; reflexivity.
  - assert (x = zero) as -> by (apply Prim2SF_inj; rewrite Hx; reflexivity).
    vm_compute; reflexivity.
Qed.

(** *** Traces *)

Lemma eventsSince_app (st st' : State) (events : list Event) :
  trace st' = trace st ++ events -> eventsSince st st' = events.
Proof.
  intros H. unfold eventsSince. rewrite H, skipn_app, skipn_all, Nat.sub_diag.
  reflexivity.
Qed.

(** Writing identifiers into an allocated array changes the heap only. *)
Lemma forEachFrom_modifyBuffer {A : Type} (f : Z -> A -> Buffer -> Buffer)
      (items : list A) (i : Z) (st : State) :
  exists b, forEachFrom i items (fun i x => modifyBuffer (f i x)) st
            = (Return tt, mkState b (brk st) (trace st)).
Proof.
  revert i st. induction items as [|x items IH]; intros i st.
  - exists (buffer st). destruct st; reflexivity.
  - cbn [forEachFrom]. unfold bind at 1, modifyBuffer at 1.
    destruct (IH (i + 1) (mkState (f i x (buffer st)) (brk st) (trace st))) as [b Hb].
    exists b. exact Hb.
Qed.

Lemma storeArrayOfHexagons_state (cAddress : Z) (hexagons : list JSValue) (st : State) :
  exists b, storeArrayOfHexagons cAddress hexagons st
            = (Return tt, mkState b (brk st) (trace st)).
Proof.
  unfold storeArrayOfHexagons.
  apply (forEachFrom_modifyBuffer
           (fun i hexagon b =>
              C.HEAPU32_set b
                (let '(lower, upper) := h3AddressToSplitLong hexagon in [lower; upper])
                (Z.quot cAddress C.SZ_INT + 2 * i))).
Qed.

Lemma roundUp8_ge (n : Z) : n <= C.roundUp8 n.
Proof. unfold C.roundUp8. pose proof (Z.div_mod (n + 7) 8 ltac:(lia)).
       pose proof (Z.mod_pos_bound (n + 7) 8 ltac:(lia)). lia. Qed.

(** Two allocations in a row return different addresses. *)
Lemma allocate_fresh (brk0 bytes : Z) :
  C.roundUp8 brk0 + 8
  <> C.roundUp8 (C.roundUp8 brk0 + 8 + Z.max 8 (C.roundUp8 bytes)) + 8.
Proof.
  pose proof (roundUp8_ge (C.roundUp8 brk0 + 8 + Z.max 8 (C.roundUp8 bytes))). lia.
Qed.

(** *** The runs of [hexRing], [compact] and [uncompact] *)

Lemma bind_return {A B : Type} (m : M A) (k : A -> M B) (st st' : State) (a : A) :
  m st = (Return a, st') -> bind m k st = k a st'.
Proof. intros H. unfold bind. rewrite H. reflexivity. Qed.

Lemma bind_throw {A B : Type} (m : M A) (k : A -> M B) (st st' : State) (e : Error) :
  m st = (Throw e, st') -> bind m k st = (Throw e, st').
Proof. intros H. unfold bind. rewrite H. reflexivity. Qed.

Lemma bind_assoc {A B D : Type} (m : M A) (f : A -> M B) (g : B -> M D) (st : State) :
  bind (bind m f) g st = bind m (fun x => bind (f x) g) st.
Proof. unfold bind. destruct (m st) as [[a|e] st']; reflexivity. Qed.

Lemma callInt_run (name : string) (f : Buffer -> Z * Buffer) (st : State) :
  callInt name f st
  = (Return (fst (f (buffer st))),
     mkState (snd (f (buffer st))) (brk st)
             (trace st ++ [EvEngine name (Some (fst (f (buffer st))))])).
Proof. unfold callInt. destruct (f (buffer st)); reflexivity. Qed.

(** One step of a run: the first computation of a [bind] is executed. *)
Ltac step :=
  match goal with
  | |- context [bind (storeArrayOfHexagons ?p ?hs) ?k ?s] =>
      let b := fresh "b" in
      let Hb := fresh "Hb" in
      destruct (storeArrayOfHexagons_state p hs s) as [b Hb];
      rewrite (bind_return _ k _ _ _ Hb); clear Hb; cbn [buffer brk trace]
  | |- context [bind (callInt ?n ?f) ?k ?s] =>
      rewrite (bind_return _ k _ _ _ (callInt_run n f s)); cbn [buffer brk trace fst snd]
  | |- context [bind ?m ?k ?s] =>
      rewrite (bind_return m k s _ _ eq_refl); cbn [buffer brk trace]
  end.

Lemma hexRing_run (E : H3.Engine) (h3Address : JSValue) (ringSize : Z) (st : State) :
  exists ptr bytes status,
    trace (snd (hexRing E h3Address ringSize st))
    = trace st ++ [EvAlloc ptr bytes; EvEngine "hexRing" (Some status); EvFree ptr]
    /\ (status <> 0 ->
        fst (hexRing E h3Address ringSize st)
        = Throw (ErrorMsg "Failed to get hexRing (encountered a pentagon?)")).
Proof.
  unfold hexRing. step.
  destruct (h3AddressToSplitLong h3Address) as [lower upper].
  step.
  match goal with |- context [H3.hexRing ?e ?a ?b ?c ?d ?f] =>
    destruct (H3.hexRing e a b c d f) as [status b'] eqn:Hcall end.
  cbn [fst snd].
  exists (C.roundUp8 (brk st) + 8),
         ((if ringSize =? 0 then 1 else 6 * ringSize) * SZ_H3INDEX E), status.
  destruct (Z.eqb_spec status 0) as [Hz|Hnz]; cbn [negb]; repeat step;
    cbn [fst snd trace]; rewrite <- !app_assoc; cbn [app];
    (split; [reflexivity|]); intros H; [contradiction | reflexivity].
Qed.

Lemma compact_run (E : H3.Engine) (h3Set : option (list JSValue)) (st : State) :
  (trace (snd (compact E h3Set st)) = trace st)
  \/ exists ptr1 ptr2 bytes status,
       trace (snd (compact E h3Set st))
       = trace st ++ [EvAlloc ptr1 bytes; EvAlloc ptr2 bytes;
                      EvEngine "compact" (Some status); EvFree ptr1; EvFree ptr2]
       /\ ptr1 <> ptr2
       /\ (status <> 0 ->
           fst (compact E h3Set st)
           = Throw (ErrorMsg "Failed to compact, malformed input data (duplicate hexagons?)")).
Proof.
  destruct h3Set as [[|x h3Set]|]; [left; reflexivity| |left; reflexivity].
  right. unfold compact.
  remember (Z.of_nat (List.length (x :: h3Set))) as count eqn:Hcount. clear Hcount.
  do 4 step.
  match goal with |- context [H3.compact ?e ?a ?b ?c ?f] =>
    destruct (H3.compact e a b c f) as [status b'] eqn:Hcall end.
  cbn [fst snd].
  exists (C.roundUp8 (brk st) + 8),
         (C.roundUp8 (C.roundUp8 (brk st) + 8 + Z.max 8 (C.roundUp8 (count * SZ_H3INDEX E))) + 8),
         (count * SZ_H3INDEX E), status.
  destruct (Z.eqb_spec status 0) as [Hz|Hnz]; cbn [negb]; repeat step;
    cbn [fst snd trace]; rewrite <- !app_assoc; cbn [app];
    (split; [reflexivity|]); (split; [apply allocate_fresh|]); intros H;
    [contradiction | reflexivity].
Qed.

Lemma uncompact_run (E : H3.Engine) (compactedSet : option (list JSValue)) (res : JSValue)
      (st : State) :
  (trace (snd (uncompact E compactedSet res st)) = trace st)
  \/ exists ptr1 ptr2 bytes1 bytes2 capacity status,
       trace (snd (uncompact E compactedSet res st))
       = trace st ++ [EvAlloc ptr1 bytes1; EvEngine "maxUncompactSize" (Some capacity);
                      EvAlloc ptr2 bytes2;
                      EvEngine "uncompact" (Some status); EvFree ptr1; EvFree ptr2]
       /\ ptr1 <> ptr2
       /\ (status <> 0 ->
           fst (uncompact E compactedSet res st)
           = Throw (ErrorMsg "Failed to uncompact (bad resolution?)")).
Proof.
  unfold uncompact.
  destruct (validateRes res) as [[]|e] eqn:Hres;
    [|left; rewrite (bind_throw _ _ st st e) by reflexivity; reflexivity].
  rewrite (bind_return _ _ st st tt) by reflexivity.
  destruct compactedSet as [[|x compactedSet]|]; [left; reflexivity| |left; reflexivity].
  right.
  remember (Z.of_nat (List.length (x :: compactedSet))) as count eqn:Hcount. clear Hcount.
  do 5 step.
  match goal with |- context [H3.uncompact ?e ?a ?b ?c ?d ?g ?f] =>
    destruct (H3.uncompact e a b c d g f) as [status b'] eqn:Hcall end.
  cbn [fst snd].
  eexists (C.roundUp8 (brk st) + 8),
         (C.roundUp8 (C.roundUp8 (brk st) + 8 + Z.max 8 (C.roundUp8 (count * SZ_H3INDEX E))) + 8),
         (count * SZ_H3INDEX E), _, _, status.
  destruct (Z.eqb_spec status 0) as [Hz|Hnz]; cbn [negb]; repeat step;
    cbn [fst snd trace]; rewrite <- !app_assoc; cbn [app];
    (split; [reflexivity|]); (split; [apply allocate_fresh|]); intros H;
    [contradiction | reflexivity].
Qed.

(** A capacity-estimated query: [kRing] returns at most as many identifiers
    as the engine's estimate, and frees the array it allocated. *)
Lemma kRing_within_capacity (E : H3.Engine) (h3Address : JSValue) (ringSize : Z) (st : State) :
  exists out ptr bytes,
    fst (kRing E h3Address ringSize st) = Return out
    /\ (List.length out <= Z.to_nat (H3.maxKringSize E ringSize))%nat
    /\ eventsSince st (snd (kRing E h3Address ringSize st))
       = [EvEngine "maxKringSize" (Some (H3.maxKringSize E ringSize));
          EvAlloc ptr bytes; EvEngine "kRing" None; EvFree ptr].
Proof.
  unfold kRing. destruct (h3AddressToSplitLong h3Address) as [lower upper].
  do 5 step. unfold ret. cbn [fst snd trace].
  eexists _, _, _. split; [reflexivity|]. split; [apply readArrayOfHexagons_length|].
  apply eventsSince_app. rewrite <- !app_assoc. reflexivity.
Qed.

(** C3.  When the engine call of [hexRing], [compact] or [uncompact] returns a
    non-zero status, the operation throws its own descriptive error, and by
    then it has freed exactly the blocks it allocated, each once: the frees
    are the last events of the run, after the engine call. *)
Theorem engine_failure_frees (E : H3.Engine) (op : FailingOp) (st : State) (status : Z) :
  In (EvEngine (engineFunction op) (Some status))
     (eventsSince st (snd (runOp E op st))) ->
  status <> 0 ->
  fst (runOp E op st) = Throw (ErrorMsg (failureMessage op))
  /\ freed (eventsSince st (snd (runOp E op st)))
     = allocated (eventsSince st (snd (runOp E op st)))
  /\ NoDup (allocated (eventsSince st (snd (runOp E op st))))
  /\ exists before,
       eventsSince st (snd (runOp E op st))
       = before ++ map EvFree (allocated (eventsSince st (snd (runOp E op st))))
       /\ freed before = [].
Proof.
  intros Hin Hstatus.
  destruct op as [h3Address ringSize | h3Set | compactedSet res]; cbn [runOp engineFunction failureMessage] in *.
  - destruct (hexRing_run E h3Address ringSize st) as (ptr & bytes & status' & Htrace & Hfail).
    rewrite (eventsSince_app _ _ _ Htrace) in *.
    assert (status' = status) as -> by (cbn in Hin; intuition congruence).
    split; [exact (Hfail Hstatus)|]. cbn.
    split; [reflexivity|]. split; [repeat constructor; cbn; tauto|].
    exists [EvAlloc ptr bytes; EvEngine "hexRing" (Some status)]. split; reflexivity.
  - destruct (compact_run E h3Set st)
      as [Htrace | (ptr1 & ptr2 & bytes & status' & Htrace & Hfresh & Hfail)].
    + rewrite (eventsSince_app st _ []) in Hin by (now rewrite app_nil_r). destruct Hin.
    + rewrite (eventsSince_app _ _ _ Htrace) in *.
      assert (status' = status) as -> by (cbn in Hin; intuition congruence).
      split; [exact (Hfail Hstatus)|]. cbn.
      split; [reflexivity|]. split.
      * repeat constructor; cbn; intuition congruence.
      * exists [EvAlloc ptr1 bytes; EvAlloc ptr2 bytes; EvEngine "compact" (Some status)].
        split; reflexivity.
  - destruct (uncompact_run E compactedSet res st)
      as [Htrace | (ptr1 & ptr2 & bytes1 & bytes2 & capacity & status' & Htrace & Hfresh & Hfail)].
    + rewrite (eventsSince_app st _ []) in Hin by (now rewrite app_nil_r). destruct Hin.
    + rewrite (eventsSince_app _ _ _ Htrace) in *.
      assert (status' = status) as -> by (cbn in Hin; intuition congruence).
      split; [exact (Hfail Hstatus)|]. cbn.
      split; [reflexivity|]. split.
      * repeat constructor; cbn; intuition congruence.
      * exists [EvAlloc ptr1 bytes1; EvEngine "maxUncompactSize" (Some capacity);
                EvAlloc ptr2 bytes2; EvEngine "uncompact" (Some status)].
        split; reflexivity.
Qed.

Lemma eventsSince_same (st : State) : eventsSince st st = [].
Proof. unfold eventsSince. apply skipn_all. Qed.

Lemma validateRes_rejects (res : JSValue) :
  isResolution res = false -> validateRes res = Throw (InvalidResolution res).
Proof.
  intros H. destruct (validateRes res) as [[]|e] eqn:Hv.
  - apply validateRes_resolution in Hv. congruence.
  - destruct res as [| | |x| |]; cbn [validateRes] in Hv; try congruence.
    destruct ((x <? 0)%float || (15 <? x)%float || negb (Math_floor x =? x)%float); congruence.
Qed.

(** C8.  [hexArea] and [edgeLength] throw for a resolution that is not one of
    the integers 0 to 15 and for a unit outside the two they recognize; the
    state is left as it was, so no engine function has been called. *)
Theorem unit_conversion_validates
    (E : H3.Engine) (kind : Measurement) (res unit : JSValue) (st : State) :
  isResolution res = false \/ recognizedUnit kind unit = false ->
  (exists e, measure E kind res unit st = (Throw e, st)
             /\ (e = InvalidResolution res \/ e = UnknownUnit unit))
  /\ engineCalls (eventsSince st (snd (measure E kind res unit st))) = [].
Proof.
  intros H.
  assert (exists e, measure E kind res unit st = (Throw e, st)
                    /\ (e = InvalidResolution res \/ e = UnknownUnit unit)) as Hthrow.
  { destruct (isResolution res) eqn:Hres.
    - destruct H as [H|H]; [discriminate|].
      apply isResolution_validateRes in Hres.
      exists (UnknownUnit unit). split; [|right; reflexivity].
      destruct kind; cbn [measure recognizedUnit] in *;
        apply orb_false_iff in H as [H1 H2];
        unfold hexArea, edgeLength, UNITS.m, UNITS.km, UNITS.m2, UNITS.km2;
        rewrite (bind_return _ _ st st tt) by (unfold lift; now rewrite Hres);
        rewrite H1, H2; reflexivity.
    - apply validateRes_rejects in Hres.
      exists (InvalidResolution res). split; [|left; reflexivity].
      destruct kind; cbn [measure]; unfold hexArea, edgeLength;
        rewrite (bind_throw _ _ st st (InvalidResolution res))
          by (unfold lift; now rewrite Hres); reflexivity. }
  split; [exact Hthrow|].
  destruct Hthrow as (e & -> & _). cbn [snd]. now rewrite eventsSince_same.
Qed.

Lemma unit_conversion_validates_witness :
  (isResolution (VNum 9) = false \/ recognizedUnit HexArea (VStr "acres") = false)
  /\ (exists e, measure (sampleEngine 0) HexArea (VNum 9) (VStr "acres") emptyState
                = (Throw e, emptyState)
                /\ (e = InvalidResolution (VNum 9) \/ e = UnknownUnit (VStr "acres")))
  /\ engineCalls (eventsSince emptyState
                    (snd (measure (sampleEngine 0) HexArea (VNum 9) (VStr "acres") emptyState)))
     = [].
Proof.
  split; [right; reflexivity|].
  apply (unit_conversion_validates (sampleEngine 0) HexArea (VNum 9) (VStr "acres") emptyState).
  right; reflexivity.
Defined.

(** A recognized unit at a valid resolution reaches the engine, once. *)
Example hexArea_km2_calls_engine :
  engineCalls (trace (snd (hexArea (sampleEngine 0) (VNum 9) (VStr "km2") emptyState)))
  = ["hexAreaKm2"].
Proof. vm_compute. reflexivity. Qed.

(** C6, as the code has it.  With a valid resolution, [polyfill] on an empty
    list of loops, or on one whose first loop is empty, returns the empty
    array and leaves the state as it was: nothing is allocated and no engine
    function is called. *)
Theorem polyfill_empty
    (E : H3.Engine) (coordinates : Coordinates) (res isGeoJson : JSValue) (st : State) :
  isResolution res = true ->
  isEmptyCoordinates coordinates = true ->
  polyfill E coordinates res isGeoJson st = (Return [], st).
Proof.
  intros Hres Hempty. apply isResolution_validateRes in Hres.
  unfold polyfill.
  rewrite (bind_return _ _ st st tt) by (unfold lift; now rewrite Hres).
  rewrite Hempty. reflexivity.
Qed.

Lemma polyfill_empty_witness :
  isResolution (VNum 9) = true
  /\ isEmptyCoordinates (Loops [[]; [(1, 2)%float]]) = true
  /\ polyfill (sampleEngine 0) (Loops [[]; [(1, 2)%float]]) (VNum 9) (VBool true) emptyState
     = (Return [], emptyState).
Proof.
  split; [reflexivity|]. split; [reflexivity|].
  apply (polyfill_empty (sampleEngine 0)); reflexivity.
Defined.

(** C6 as stated fails when the resolution is invalid: the empty list of loops
    is not reached, [validateRes] throws first. *)
Lemma polyfill_empty_invalid_resolution :
  isEmptyCoordinates (Loops []) = true
  /\ polyfill (sampleEngine 0) (Loops []) (VNum 16) VUndefined emptyState
     = (Throw (InvalidResolution (VNum 16)), emptyState)
  /\ fst (polyfill (sampleEngine 0) (Loops []) (VNum 16) VUndefined emptyState)
     <> Return [].
Proof.
  split; [reflexivity|].
  assert (polyfill (sampleEngine 0) (Loops []) (VNum 16) VUndefined emptyState
          = (Throw (InvalidResolution (VNum 16)), emptyState)) as H
      by (vm_compute; reflexivity).
  split; [exact H|]. rewrite H. discriminate.
Qed.

Lemma engine_failure_frees_witness :
  In (EvEngine (engineFunction (OpCompact (Some [VStr "85283473fffffff"]))) (Some 1))
     (eventsSince emptyState
        (snd (runOp (sampleEngine 1) (OpCompact (Some [VStr "85283473fffffff"])) emptyState)))
  /\ 1 <> 0
  /\ fst (runOp (sampleEngine 1) (OpCompact (Some [VStr "85283473fffffff"])) emptyState)
     = Throw (ErrorMsg (failureMessage (OpCompact (Some [VStr "85283473fffffff"])))).
Proof.
  assert (In (EvEngine (engineFunction (OpCompact (Some [VStr "85283473fffffff"]))) (Some 1))
             (eventsSince emptyState
                (snd (runOp (sampleEngine 1) (OpCompact (Some [VStr "85283473fffffff"]))
                            emptyState)))) as Hin
      by (vm_compute; tauto).
  split; [exact Hin|]. split; [discriminate|].
  exact (proj1 (engine_failure_frees (sampleEngine 1)
                  (OpCompact (Some [VStr "85283473fffffff"])) emptyState 1
                  Hin ltac:(discriminate))).
Defined.

(** *** Boundary records *)

Lemma readGeoBoundary_loop_map
      (b : Buffer) (readCoord : Buffer -> Z -> Point) (vertsPos : Z)
      (n k : nat) (out : list (option Point)) :
  readGeoBoundary_loop b readCoord vertsPos n (Z.of_nat k) out
  = out ++ map (fun j => Some (readCoord b (vertsPos + 8 * (2 * Z.of_nat j)))) (seq k n).
Proof.
  revert k out. induction n as [|n IH]; intros k out.
  - cbn. now rewrite app_nil_r.
  - cbn [readGeoBoundary_loop seq map].
    replace (Z.of_nat k + 1) with (Z.of_nat (S k)) by lia.
    rewrite IH, <- app_assoc. reflexivity.
Qed.

Lemma readGeoBoundary_vertices (b : Buffer) (geoBoundary : Z) (geoJsonCoords closedLoop : JSValue) :
  readGeoBoundary b geoBoundary geoJsonCoords closedLoop
  = if truthy closedLoop
    then closeLoop (boundaryVertices b geoBoundary geoJsonCoords)
    else boundaryVertices b geoBoundary geoJsonCoords.
Proof.
  unfold readGeoBoundary.
  assert (readGeoBoundary_loop b
            (if truthy geoJsonCoords then readGeoCoordGeoJson else readGeoCoord)
            (geoBoundary + C.SZ_DBL) (Z.to_nat (C.getValue_i32 b geoBoundary)) 0 []
          = boundaryVertices b geoBoundary geoJsonCoords) as ->.
  { rewrite (readGeoBoundary_loop_map b _ _ _ 0%nat []). cbn [app].
    unfold boundaryVertices, C.SZ_DBL. apply map_ext. intros j. do 2 f_equal. lia. }
  reflexivity.
Qed.

Lemma h3ToGeoBoundary_result (E : H3.Engine) (h3Address formatAsGeoJson : JSValue) (st : State) :
  let geoBoundary := C.roundUp8 (brk st) + 8 in
  let b := H3.h3ToGeoBoundary E (toInt32 (fst (h3AddressToSplitLong h3Address)))
             (toInt32 (snd (h3AddressToSplitLong h3Address))) geoBoundary (buffer st) in
  fst (h3ToGeoBoundary E h3Address formatAsGeoJson st)
  = Return (if truthy formatAsGeoJson
            then closeLoop (boundaryVertices b geoBoundary formatAsGeoJson)
            else boundaryVertices b geoBoundary formatAsGeoJson).
Proof.
  unfold h3ToGeoBoundary. step.
  destruct (h3AddressToSplitLong h3Address) as [lower upper]. cbn [fst snd].
  do 3 step. unfold ret. cbn [fst]. now rewrite readGeoBoundary_vertices.
Qed.

Lemma getH3UnidirectionalEdgeBoundary_result
      (E : H3.Engine) (edgeAddress formatAsGeoJson : JSValue) (st : State) :
  let geoBoundary := C.roundUp8 (brk st) + 8 in
  let b := H3.getH3UnidirectionalEdgeBoundary E
             (toInt32 (fst (h3AddressToSplitLong edgeAddress)))
             (toInt32 (snd (h3AddressToSplitLong edgeAddress))) geoBoundary (buffer st) in
  fst (getH3UnidirectionalEdgeBoundary E edgeAddress formatAsGeoJson st)
  = Return (boundaryVertices b geoBoundary formatAsGeoJson).
Proof.
  unfold getH3UnidirectionalEdgeBoundary. step.
  destruct (h3AddressToSplitLong edgeAddress) as [lower upper]. cbn [fst snd].
  do 3 step. unfold ret. cbn [fst]. now rewrite readGeoBoundary_vertices.
Qed.

(** *** Linked multi-polygons *)

Lemma loopsNodeCount_cons (coords : list Z) (loops : list (list Z)) :
  loopsNodeCount (coords :: loops) = S (List.length coords + loopsNodeCount loops).
Proof.
  unfold loopsNodeCount, list_sum. cbn [List.length map fold_right]. lia.
Qed.

Lemma nodeCount_cons (loops : list (list Z)) (polygons : list (list (list Z))) :
  nodeCount (loops :: polygons) = S (loopsNodeCount loops + nodeCount polygons).
Proof.
  unfold nodeCount, list_sum. cbn [List.length map fold_right]. lia.
Qed.

Lemma readMultiPolygon_coords_chain
      (b : Buffer) (readCoord : Buffer -> Z -> Point) (coord : Z) (nodes : list Z) :
  LinkedList b 16 coord nodes ->
  forall (fuel : nat) (coords : list (option Point)),
    (List.length nodes <= fuel)%nat ->
    readMultiPolygon_coords fuel b readCoord coord coords
    = Some (coords ++ map (fun c => Some (readCoord b c)) nodes).
Proof.
  induction 1 as [|node rest Hnz Hrest IH]; intros fuel coords Hfuel.
  - destruct fuel; cbn; now rewrite app_nil_r.
  - cbn [List.length] in Hfuel. destruct fuel as [|fuel]; [lia|].
    cbn [readMultiPolygon_coords].
    destruct (Z.eqb_spec node 0) as [?|_]; [contradiction|].
    unfold C.SZ_DBL. change (8 * 2) with 16.
    rewrite IH by lia. cbn [map]. now rewrite <- app_assoc.
Qed.

Lemma readMultiPolygon_loops_chain
      (b : Buffer) (formatAsGeoJson : JSValue) (loop : Z) (nodes : list Z) :
  LinkedList b 8 loop nodes ->
  forall (loops : list (list Z)),
    Forall2 (fun node coords => LinkedList b 16 (C.getValue_i32 b node) coords) nodes loops ->
    forall (fuel : nat) (acc : list (list (option Point))),
      (loopsNodeCount loops <= fuel)%nat ->
      readMultiPolygon_loops fuel b
        (if truthy formatAsGeoJson then readGeoCoordGeoJson else readGeoCoord)
        formatAsGeoJson loop acc
      = Some (acc ++ map (loopOfNodes b formatAsGeoJson) loops).
Proof.
  induction 1 as [|node rest Hnz Hrest IH]; intros loops Hloops fuel acc Hfuel.
  - inversion Hloops; subst. destruct fuel; cbn; now rewrite app_nil_r.
  - inversion Hloops as [|? coords ? loops' Hcoords Hloops']; subst.
    rewrite loopsNodeCount_cons in Hfuel.
    destruct fuel as [|fuel]; [lia|].
    cbn [readMultiPolygon_loops].
    destruct (Z.eqb_spec node 0) as [?|_]; [contradiction|].
    rewrite (readMultiPolygon_coords_chain b _ _ coords Hcoords) by lia.
    unfold C.SZ_PTR. change (4 * 2) with 8.
    rewrite (IH loops' Hloops') by lia.
    cbn [map app]. rewrite <- app_assoc. cbn [app].
    unfold loopOfNodes at 2, closeLoop. reflexivity.
Qed.

Lemma readMultiPolygon_polygons_chain
      (b : Buffer) (formatAsGeoJson : JSValue) (polygon : Z) (nodes : list Z) :
  LinkedList b 8 polygon nodes ->
  forall (polygons : list (list (list Z))),
    Forall2 (fun node loops => LinkedLoops b (C.getValue_i32 b node) loops) nodes polygons ->
    forall (fuel : nat) (acc : list (list (list (option Point)))),
      (nodeCount polygons <= fuel)%nat ->
      readMultiPolygon_polygons fuel b
        (if truthy formatAsGeoJson then readGeoCoordGeoJson else readGeoCoord)
        formatAsGeoJson polygon acc
      = Some (acc ++ map (map (loopOfNodes b formatAsGeoJson)) polygons).
Proof.
  induction 1 as [|node rest Hnz Hrest IH]; intros polygons Hpolys fuel acc Hfuel.
  - inversion Hpolys; subst. destruct fuel; cbn; now rewrite app_nil_r.
  - inversion Hpolys as [|? loops ? polygons' Hloops Hpolys']; subst.
    rewrite nodeCount_cons in Hfuel.
    destruct fuel as [|fuel]; [lia|].
    cbn [readMultiPolygon_polygons].
    destruct (Z.eqb_spec node 0) as [?|_]; [contradiction|].
    destruct Hloops as (loopNodes & Hchain & Hcoords).
    rewrite (readMultiPolygon_loops_chain b formatAsGeoJson _ loopNodes Hchain loops Hcoords)
      by lia.
    unfold C.SZ_PTR. change (4 * 2) with 8.
    rewrite (IH polygons' Hpolys') by lia.
    cbn [map app]. now rewrite <- app_assoc.
Qed.

Lemma readMultiPolygon_result
      (fuel : nat) (b : Buffer) (polygon : Z) (formatAsGeoJson : JSValue)
      (polygons : list (list (list Z))) :
  LinkedPolygons b polygon polygons ->
  (nodeCount polygons <= fuel)%nat ->
  readMultiPolygon fuel b polygon formatAsGeoJson
  = Some (map (map (loopOfNodes b formatAsGeoJson)) polygons).
Proof.
  intros (nodes & Hchain & Hpolys) Hfuel. unfold readMultiPolygon.
  now rewrite (readMultiPolygon_polygons_chain b formatAsGeoJson polygon nodes Hchain
                 polygons Hpolys fuel []).
Qed.

(** C5, as the code has it.  In GeoJSON mode [h3ToGeoBoundary] and
    [readMultiPolygon] return each loop with its first element repeated at the
    end, and in the other mode they append nothing;
    [getH3UnidirectionalEdgeBoundary] returns the vertices alone in both
    modes.  The multi-polygon is read from any well-formed linked structure,
    given fuel for its nodes. *)
Theorem geojson_closes_cell_and_polygon_loops (E : H3.Engine) :
  (forall (h3Address formatAsGeoJson : JSValue) (st : State),
      let geoBoundary := C.roundUp8 (brk st) + 8 in
      let b := H3.h3ToGeoBoundary E (toInt32 (fst (h3AddressToSplitLong h3Address)))
                 (toInt32 (snd (h3AddressToSplitLong h3Address))) geoBoundary (buffer st) in
      fst (h3ToGeoBoundary E h3Address formatAsGeoJson st)
      = Return (if truthy formatAsGeoJson
                then closeLoop (boundaryVertices b geoBoundary formatAsGeoJson)
                else boundaryVertices b geoBoundary formatAsGeoJson))
  /\ (forall (edgeAddress formatAsGeoJson : JSValue) (st : State),
         let geoBoundary := C.roundUp8 (brk st) + 8 in
         let b := H3.getH3UnidirectionalEdgeBoundary E
                    (toInt32 (fst (h3AddressToSplitLong edgeAddress)))
                    (toInt32 (snd (h3AddressToSplitLong edgeAddress))) geoBoundary (buffer st) in
         fst (getH3UnidirectionalEdgeBoundary E edgeAddress formatAsGeoJson st)
         = Return (boundaryVertices b geoBoundary formatAsGeoJson))
  /\ (forall (fuel : nat) (b : Buffer) (polygon : Z) (formatAsGeoJson : JSValue)
             (polygons : list (list (list Z))),
         LinkedPolygons b polygon polygons ->
         (nodeCount polygons <= fuel)%nat ->
         readMultiPolygon fuel b polygon formatAsGeoJson
         = Some (map (map (loopOfNodes b formatAsGeoJson)) polygons)).
Proof.
  split; [|split].
  - intros. apply h3ToGeoBoundary_result.
  - intros. apply getH3UnidirectionalEdgeBoundary_result.
  - intros. now apply readMultiPolygon_result.
Qed.

Lemma sampleLinkedHeap_linked : LinkedPolygons sampleLinkedHeap 8 [[[64; 96]]].
Proof.
  assert (C.getValue_i32 sampleLinkedHeap (8 + 8) = 0) as Hp8 by (vm_compute; reflexivity).
  assert (C.getValue_i32 sampleLinkedHeap 8 = 32) as Hp by (vm_compute; reflexivity).
  assert (C.getValue_i32 sampleLinkedHeap (32 + 8) = 0) as Hl8 by (vm_compute; reflexivity).
  assert (C.getValue_i32 sampleLinkedHeap 32 = 64) as Hl by (vm_compute; reflexivity).
  assert (C.getValue_i32 sampleLinkedHeap (64 + 16) = 96) as Hc1 by (vm_compute; reflexivity).
  assert (C.getValue_i32 sampleLinkedHeap (96 + 16) = 0) as Hc2 by (vm_compute; reflexivity).
  exists [8]. split.
  - apply LinkedList_node; [discriminate|]. rewrite Hp8. apply LinkedList_null.
  - apply Forall2_cons; [|apply Forall2_nil]. exists [32]. split.
    + rewrite Hp. apply LinkedList_node; [discriminate|]. rewrite Hl8. apply LinkedList_null.
    + apply Forall2_cons; [|apply Forall2_nil]. rewrite Hl.
      apply LinkedList_node; [discriminate|]. rewrite Hc1.
      apply LinkedList_node; [discriminate|]. rewrite Hc2.
      apply LinkedList_null.
Qed.

Lemma geojson_closes_cell_and_polygon_loops_witness :
  LinkedPolygons sampleLinkedHeap 8 [[[64; 96]]]
  /\ (nodeCount [[[64; 96]]]%Z <= 4)%nat
  /\ readMultiPolygon 4 sampleLinkedHeap 8 (VBool true)
     = Some (map (map (loopOfNodes sampleLinkedHeap (VBool true))) [[[64; 96]]]).
Proof.
  split; [exact sampleLinkedHeap_linked|]. split; [vm_compute; lia|].
  apply (proj2 (proj2 (geojson_closes_cell_and_polygon_loops (sampleEngine 0)))).
  - exact sampleLinkedHeap_linked.
  - vm_compute; lia.
Defined.

(** What the two modes return on the sample heap. *)
Example readMultiPolygon_sample :
  readMultiPolygon 4 sampleLinkedHeap 8 (VBool true)
  = Some [[[Some (0, 0); Some (180, 0); Some (0, 0)]]]%float
  /\ readMultiPolygon 4 sampleLinkedHeap 8 (VBool false)
     = Some [[[Some (0, 0); Some (0, 180)]]]%float.
Proof. split; vm_compute; reflexivity. Qed.

Example h3ToGeoBoundary_sample :
  fst (h3ToGeoBoundary (sampleEngine 0) (VStr "85283473fffffff") (VBool true) emptyState)
  = Return [Some (0, 0); Some (180, 0); Some (0, 0)]%float.
Proof. vm_compute. reflexivity. Qed.

(** C5 as stated fails on edge boundaries: in GeoJSON mode the two vertices of
    the sample edge come back as they are, and the last is not the first. *)
Lemma edge_boundary_geojson_not_closed :
  fst (getH3UnidirectionalEdgeBoundary (sampleEngine 0) (VStr "115283473fffffff")
         (VBool true) emptyState)
  = Return [Some (0, 0); Some (180, 0)]%float
  /\ ~ (exists vertices,
           fst (getH3UnidirectionalEdgeBoundary (sampleEngine 0) (VStr "115283473fffffff")
                  (VBool true) emptyState)
           = Return (closeLoop vertices)).
Proof.
  assert (fst (getH3UnidirectionalEdgeBoundary (sampleEngine 0) (VStr "115283473fffffff")
                 (VBool true) emptyState)
          = Return [Some (0, 0); Some (180, 0)]%float) as Hrun
      by (vm_compute; reflexivity).
  split; [exact Hrun|].
  intros [vertices H]. rewrite Hrun in H. injection H as H. unfold closeLoop in H.
  destruct vertices as [|v1 [|v2 [|v3 rest]]]; cbn in H; try discriminate H.
  pose proof (f_equal (hd None) H) as Hhead. cbn in Hhead. subst v1.
  apply (f_equal (fun l => match l with
                            | [_; Some (x, _)] => PrimFloat.eqb x 180
                            | _ => false
                            end)) in H.
  vm_compute in H. discriminate H.
Qed.

(** *** Exact subtraction of binary64 numbers *)

Lemma iter_xO_value (p k : positive) :
  Zpos (Pos.iter xO p k) = Zpos p * 2 ^ Zpos k.
Proof.
  induction k as [|k IH] using Pos.peano_ind.
  - cbn [Pos.iter]. lia.
  - rewrite Pos.iter_succ, Pos2Z.inj_xO, IH, Pos2Z.inj_succ, Z.pow_succ_r by lia. lia.
Qed.

Lemma iter_xO_digits (p k : positive) :
  digits2_pos (Pos.iter xO p k) = (digits2_pos p + k)%positive.
Proof.
  induction k as [|k IH] using Pos.peano_ind.
  - cbn [Pos.iter digits2_pos]. lia.
  - rewrite Pos.iter_succ. cbn [digits2_pos]. rewrite IH. lia.
Qed.

(** A mantissa of exactly 53 digits needs no rounding. *)
Lemma binary_round_aux_canonical (s : bool) (m : positive) (e : Z) :
  Zpos (digits2_pos m) = 53 -> -1074 <= e <= 971 ->
  binary_round_aux prec emax s (Zpos m) e loc_Exact = S754_finite s m e.
Proof.
  intros Hd He.
  assert (shr_fexp prec emax (Zpos m) e loc_Exact
          = ({| shr_m := Zpos m; shr_r := false; shr_s := false |}, e)) as Hshr.
  { unfold shr_fexp, fexp, emin, prec, emax. cbn [Zdigits2 shr_record_of_loc].
    rewrite Hd.
    replace (Z.max (53 + e - 53) (3 - 1024 - 53) - e) with 0 by lia.
    reflexivity. }
  unfold binary_round_aux. rewrite Hshr.
  cbn [shr_m loc_of_shr_record round_nearest_even]. rewrite Hshr. cbn [shr_m].
  unfold emax, prec. destruct (Z.leb_spec e (1024 - 53)) as [_|?]; [reflexivity | lia].
Qed.

(** Normalizing a mantissa of at most 53 digits shifts it left to 53 digits. *)
Lemma binary_round_exact (s : bool) (p : positive) (e : Z) :
  Zpos (digits2_pos p) <= 53 -> -1000 <= e <= 971 ->
  exists (m' : positive) (e' : Z),
    binary_round prec emax s p e = S754_finite s m' e'
    /\ e' = e - (53 - Zpos (digits2_pos p))
    /\ Zpos m' = Zpos p * 2 ^ (53 - Zpos (digits2_pos p)).
Proof.
  intros Hd He. unfold binary_round, shl_align, fexp, emin, prec, emax.
  replace (Z.max (Zpos (digits2_pos p) + e - 53) (3 - 1024 - 53) - e)
    with (Zpos (digits2_pos p) - 53) by lia.
  destruct (Zpos (digits2_pos p) - 53) as [|k|k] eqn:Hk; [| lia |].
  - exists p, e. rewrite binary_round_aux_canonical by lia.
    replace (53 - Zpos (digits2_pos p)) with 0 by lia.
    repeat split; lia.
  - exists (Pos.iter xO p k), (Z.max (Zpos (digits2_pos p) + e - 53) (3 - 1024 - 53)).
    assert (53 - Zpos (digits2_pos p) = Zpos k) as Hk' by lia.
    rewrite binary_round_aux_canonical.
    + rewrite Hk', iter_xO_value. repeat split; lia.
    + rewrite iter_xO_digits. lia.
    + lia.
Qed.

Lemma digits2_pos_lt (p : positive) (n : Z) :
  0 <= n -> Zpos p < 2 ^ n -> Zpos (digits2_pos p) <= n.
Proof.
  intros Hn Hp. pose proof (digits2_pos_bound p) as [Hlow _].
  destruct (Z.le_gt_cases (Zpos (digits2_pos p)) n) as [?|Hgt]; [assumption|].
  assert (2 ^ n <= 2 ^ (Zpos (digits2_pos p) - 1)) by (apply Z.pow_le_mono_r; lia).
  lia.
Qed.

(** Comparisons of negative finite numbers with [-(M * 2^E)]. *)
Lemma SFltb_neg (E : Z) (m : positive) (e : Z) :
  e < E \/ (e = E /\ Zpos m < Zpos M90) ->
  SFltb (S754_finite true M90 E) (S754_finite true m e) = true.
Proof.
  intros H. unfold SFltb, SFcompare.
  destruct (Z.compare_spec E e) as [Heq|Hlt|Hgt]; [| lia | reflexivity].
  destruct (Pos.compare_cont Eq M90 m) eqn:Hc; cbn [CompOpp]; [| | reflexivity].
  - apply (proj1 (Pos_compare_cont_Eq_Eq _ _)) in Hc. subst m. unfold M90 in *. lia.
  - apply (proj1 (Pos_compare_cont_Eq_Lt _ _)) in Hc. unfold M90 in *. lia.
Qed.

Lemma finite_order (E : Z) (m : positive) (e : Z) :
  SFltb (S754_finite false M90 E) (S754_finite false m e) = true ->
  SFleb (S754_finite false m e) (S754_finite false M90 (E + 1)) = true ->
  (e = E /\ Zpos M90 < Zpos m) \/ (e = E + 1 /\ Zpos m <= Zpos M90).
Proof.
  unfold SFltb, SFleb, SFcompare. intros Hlt Hle.
  destruct (Z.compare_spec E e) as [H1|H1|H1]; try discriminate Hlt;
    destruct (Z.compare_spec e (E + 1)) as [H2|H2|H2]; try discriminate Hle; try lia.
  - left. split; [lia|].
    destruct (Pos.compare_cont Eq M90 m) eqn:Hc; try discriminate Hlt.
    now apply (proj1 (Pos_compare_cont_Eq_Lt _ _)) in Hc.
  - right. split; [lia|].
    destruct (Pos.compare_cont Eq m M90) eqn:Hc; try discriminate Hle.
    + apply (proj1 (Pos_compare_cont_Eq_Eq _ _)) in Hc. subst m. lia.
    + apply (proj1 (Pos_compare_cont_Eq_Lt _ _)) in Hc. lia.
Qed.

(** Subtracting [2c] from a number in [(c, 2c]], for [c = M * 2^E], is exact
    and lands in [(-c, 0]]. *)
Lemma SFsub_constrain (E : Z) (m : positive) (e : Z) :
  -900 <= E <= 900 ->
  bounded prec emax m e = true ->
  SFltb (S754_finite false M90 E) (S754_finite false m e) = true ->
  SFleb (S754_finite false m e) (S754_finite false M90 (E + 1)) = true ->
  SFltb (S754_finite true M90 E)
        (SFsub prec emax (S754_finite false m e) (S754_finite false M90 (E + 1))) = true
  /\ SFleb (SFsub prec emax (S754_finite false m e) (S754_finite false M90 (E + 1)))
           (S754_finite false M90 E) = true.
Proof.
  intros HE Hb Hlt Hle.
  apply bounded_mantissa in Hb as (Hm & He & Hdig).
  pose proof (digits2_pos_bound m) as [Hmlow _].
  destruct (finite_order E m e Hlt Hle) as [[-> Hgt] | [-> Hsmall]].
  - (* e = E: the subtrahend is shifted by one *)
    destruct Hdig as [Hdig | ?]; [|lia]. rewrite Hdig in Hmlow.
    unfold SFsub, shl_align. rewrite Z.min_l by lia.
    rewrite Z.sub_diag. replace (E - (E + 1)) with (-1) by lia.
    cbn [fst cond_Zopp Pos.iter].
    destruct (Zpos m - Zpos M90~0) as [|p|p] eqn:Hp;
      [unfold M90 in *; lia | unfold M90 in *; lia |].
    assert (Zpos p = 2 * Zpos M90 - Zpos m) as Hpv by (unfold M90 in *; lia).
    assert (Zpos p < Zpos M90) as HpM by lia.
    cbn [binary_normalize].
    assert (Zpos (digits2_pos p) <= 53) as Hd.
    { apply digits2_pos_lt; [lia|]. unfold M90 in HpM.
      change (2 ^ 53) with 9007199254740992. lia. }
    destruct (binary_round_exact true p E Hd ltac:(lia)) as (m' & e' & -> & He' & Hm').
    split; [|reflexivity].
    apply SFltb_neg.
    destruct (Z.eq_dec (Zpos (digits2_pos p)) 53) as [H53|H53].
    + right. rewrite H53 in *. change (2 ^ (53 - 53)) with 1 in Hm'. lia.
    + left. lia.
  - (* e = E + 1: no shift *)
    destruct Hdig as [Hdig | ?]; [|lia]. rewrite Hdig in Hmlow.
    change (2 ^ (53 - 1)) with 4503599627370496 in Hmlow.
    unfold SFsub, shl_align. rewrite Z.min_id, Z.sub_diag.
    cbn [fst cond_Zopp].
    destruct (Zpos m - Zpos M90) as [|p|p] eqn:Hp; [| lia |].
    + cbn [binary_normalize]. split; reflexivity.
    + assert (Zpos p = Zpos M90 - Zpos m) as Hpv by lia.
      cbn [binary_normalize].
      assert (Zpos (digits2_pos p) <= 52) as Hd.
      { apply digits2_pos_lt; [lia|]. unfold M90 in Hpv.
        change (2 ^ 52) with 4503599627370496. lia. }
      destruct (binary_round_exact true p (E + 1) ltac:(lia) ltac:(lia))
        as (m' & e' & -> & He' & Hm').
      split; [|reflexivity].
      apply SFltb_neg.
      destruct (Z.eq_dec (Zpos (digits2_pos p)) 52) as [H52|H52].
      * right. rewrite H52 in *. change (2 ^ (53 - 52)) with 2 in Hm'.
        unfold M90 in *. lia.
      * left. lia.
Qed.

(** *** The canonical domains *)

Lemma SFleb_of_not_ltb (m1 m2 : positive) (e1 e2 : Z) :
  SFltb (S754_finite false m1 e1) (S754_finite false m2 e2) = false ->
  SFleb (S754_finite false m2 e2) (S754_finite false m1 e1) = true.
Proof.
  unfold SFltb, SFleb, SFcompare. intros H.
  destruct (Z.compare_spec e1 e2) as [H1|H1|H1]; try discriminate H;
    destruct (Z.compare_spec e2 e1) as [H2|H2|H2]; try lia; try reflexivity.
  destruct (Pos.compare_cont Eq m1 m2) eqn:Hc; try discriminate H.
  - apply (proj1 (Pos_compare_cont_Eq_Eq _ _)) in Hc. subst m2.
    change (Pos.compare_cont Eq m1 m1) with (Pos.compare m1 m1).
    now rewrite Pos.compare_refl.
  - apply (proj1 (Pos_compare_cont_Eq_Gt _ _)) in Hc.
    destruct (Pos.compare_cont Eq m2 m1) eqn:Hc'; try reflexivity.
    apply (proj1 (Pos_compare_cont_Eq_Gt _ _)) in Hc'. lia.
Qed.

(** The shape of [constrainLat] and [constrainLng]: for [c = M * 2^E], a
    number of [[0, 2c]] is brought into [(-c, c]]. *)
Lemma constrain_range (c c2 negc : float) (E : Z) (x : float) :
  Prim2SF c = S754_finite false M90 E ->
  Prim2SF c2 = S754_finite false M90 (E + 1) ->
  Prim2SF negc = S754_finite true M90 E ->
  -900 <= E <= 900 ->
  (0 <=? x)%float = true ->
  (x <=? c2)%float = true ->
  (negc <? (if (c <? x)%float then (x - c2)%float else x))%float = true
  /\ ((if (c <? x)%float then (x - c2)%float else x) <=? c)%float = true.
Proof.
  intros Hc Hc2 Hnegc HE Hlow Hhigh.
  pose proof (Prim2SF_valid x) as Hvalid.
  rewrite leb_spec in Hlow, Hhigh. rewrite Hc2 in Hhigh.
  change (Prim2SF 0) with (S754_zero false) in Hlow.
  destruct (c <? x)%float eqn:Hcmp; rewrite ltb_spec, Hc in Hcmp;
    rewrite ltb_spec, leb_spec, ?sub_spec, ?Hc, ?Hc2, ?Hnegc;
    destruct (Prim2SF x) as [s | s | | s m e].
  - discriminate Hcmp.
  - destruct s; [discriminate Hlow | discriminate Hhigh].
  - discriminate Hlow.
  - (* above c: 2c is subtracted *)
    destruct s; [discriminate Hlow|].
    apply SFsub_constrain; assumption.
  - (* a zero *)
    split; reflexivity.
  - destruct s; [discriminate Hlow | discriminate Hhigh].
  - discriminate Hlow.
  - (* a positive number, at most c *)
    destruct s; [discriminate Hlow|].
    split; [reflexivity | now apply SFleb_of_not_ltb].
Qed.

Lemma constrainLat_range (x : float) :
  engineLat x = true -> canonicalLat (constrainLat x) = true.
Proof.
  unfold engineLat, canonicalLat, constrainLat. intros H.
  apply andb_true_iff in H as [Hlow Hhigh].
  destruct (constrain_range 90 180 (-90) (-46) x) as [H1 H2];
    try reflexivity; try lia; try assumption.
  now rewrite H1, H2.
Qed.

Lemma constrainLng_range (x : float) :
  engineLng x = true -> canonicalLng (constrainLng x) = true.
Proof.
  unfold engineLng, canonicalLng, constrainLng. intros H.
  apply andb_true_iff in H as [Hlow Hhigh].
  destruct (constrain_range 180 360 (-180) (-45) x) as [H1 H2];
    try reflexivity; try lia; try assumption.
  now rewrite H1, H2.
Qed.

Lemma readGeoCoord_canonical (b : Buffer) (cAddress : Z) :
  engineRange b cAddress = true ->
  pointCanonical false (readGeoCoord b cAddress) = true
  /\ pointCanonical true (readGeoCoordGeoJson b cAddress) = true.
Proof.
  unfold engineRange, pointCanonical, readGeoCoord, readGeoCoordGeoJson, C.SZ_DBL.
  intros H. apply andb_true_iff in H as [Hlat Hlng]. cbn [fst snd].
  now rewrite (constrainLat_range _ Hlat), (constrainLng_range _ Hlng).
Qed.

Lemma readCoord_canonical (b : Buffer) (cAddress : Z) (geoJson : bool) :
  engineRange b cAddress = true ->
  elementCanonical geoJson
    (Some ((if geoJson then readGeoCoordGeoJson else readGeoCoord) b cAddress)) = true.
Proof.
  intros H. destruct (readGeoCoord_canonical b cAddress H) as [H1 H2].
  destruct geoJson; assumption.
Qed.

Lemma closeLoop_canonical (geoJson : bool) (loop : list (option Point)) :
  Forall (fun element => elementCanonical geoJson element = true) loop ->
  Forall (fun element => elementCanonical geoJson element = true) (closeLoop loop).
Proof.
  intros H. unfold closeLoop. apply Forall_app. split; [exact H|].
  constructor; [|constructor].
  destruct loop as [|first rest]; [reflexivity|].
  cbn [nth]. now inversion H.
Qed.

Lemma boundaryVertices_canonical (b : Buffer) (geoBoundary : Z) (geoJsonCoords : JSValue) :
  (forall k : nat, (k < Z.to_nat (C.getValue_i32 b geoBoundary))%nat ->
                   engineRange b (geoBoundary + 8 + 16 * Z.of_nat k) = true) ->
  Forall (fun element => elementCanonical (truthy geoJsonCoords) element = true)
         (boundaryVertices b geoBoundary geoJsonCoords).
Proof.
  intros H. unfold boundaryVertices. apply Forall_forall. intros element Hin.
  apply in_map_iff in Hin as (k & <- & Hk). apply in_seq in Hk.
  apply (readCoord_canonical b _ (truthy geoJsonCoords)). apply H. lia.
Qed.

Lemma readGeoBoundary_canonical
      (b : Buffer) (geoBoundary : Z) (geoJsonCoords closedLoop : JSValue) :
  (forall k : nat, (k < Z.to_nat (C.getValue_i32 b geoBoundary))%nat ->
                   engineRange b (geoBoundary + 8 + 16 * Z.of_nat k) = true) ->
  Forall (fun element => elementCanonical (truthy geoJsonCoords) element = true)
         (readGeoBoundary b geoBoundary geoJsonCoords closedLoop).
Proof.
  intros H. rewrite readGeoBoundary_vertices.
  pose proof (boundaryVertices_canonical b geoBoundary geoJsonCoords H) as Hv.
  destruct (truthy closedLoop); [now apply closeLoop_canonical | exact Hv].
Qed.

Lemma loopOfNodes_canonical (b : Buffer) (formatAsGeoJson : JSValue) (coords : list Z) :
  Forall (fun coord => engineRange b coord = true) coords ->
  Forall (fun element => elementCanonical (truthy formatAsGeoJson) element = true)
         (loopOfNodes b formatAsGeoJson coords).
Proof.
  intros H. unfold loopOfNodes.
  assert (Forall (fun element => elementCanonical (truthy formatAsGeoJson) element = true)
                 (map (fun coord =>
                         Some ((if truthy formatAsGeoJson
                                then readGeoCoordGeoJson else readGeoCoord) b coord))
                      coords)) as Hv.
  { apply Forall_map. eapply Forall_impl; [|exact H].
    intros coord Hc. now apply readCoord_canonical. }
  destruct (truthy formatAsGeoJson) eqn:Hfmt; [|exact Hv].
  now apply closeLoop_canonical.
Qed.

Lemma readMultiPolygon_canonical
      (fuel : nat) (b : Buffer) (polygon : Z) (formatAsGeoJson : JSValue)
      (polygons : list (list (list Z))) :
  LinkedPolygons b polygon polygons ->
  (nodeCount polygons <= fuel)%nat ->
  Forall (Forall (Forall (fun coord => engineRange b coord = true))) polygons ->
  exists output,
    readMultiPolygon fuel b polygon formatAsGeoJson = Some output
    /\ Forall (Forall (Forall (fun element =>
                                 elementCanonical (truthy formatAsGeoJson) element = true)))
              output.
Proof.
  intros Hlinked Hfuel Hrange.
  exists (map (map (loopOfNodes b formatAsGeoJson)) polygons).
  split; [now apply readMultiPolygon_result|].
  apply Forall_map. eapply Forall_impl; [|exact Hrange].
  intros loops Hloops. apply Forall_map. eapply Forall_impl; [|exact Hloops].
  intros coords Hcoords. now apply loopOfNodes_canonical.
Qed.

Lemma h3ToGeo_result (E : H3.Engine) (h3Address : JSValue) (st : State) :
  let latlng := C.roundUp8 (brk st) + 8 in
  let b := H3.h3ToGeo E (toInt32 (fst (h3AddressToSplitLong h3Address)))
             (toInt32 (snd (h3AddressToSplitLong h3Address))) latlng (buffer st) in
  fst (h3ToGeo E h3Address st) = Return (readGeoCoord b latlng).
Proof.
  unfold h3ToGeo. step.
  destruct (h3AddressToSplitLong h3Address) as [lower upper]. cbn [fst snd].
  do 3 step. reflexivity.
Qed.

(** C4.  Every point that a read path produces from coordinates the engine
    left within [0, 180] (latitude) and [0, 360] (longitude), in degrees, has
    its latitude in (-90, 90] and its longitude in (-180, 180]: a single
    coordinate in either order, the center of a cell, the vertices of a
    boundary record (closed or not), and the loops of a linked multi-polygon. *)
Theorem read_paths_canonical :
  (forall (b : Buffer) (cAddress : Z),
      engineRange b cAddress = true ->
      pointCanonical false (readGeoCoord b cAddress) = true
      /\ pointCanonical true (readGeoCoordGeoJson b cAddress) = true)
  /\ (forall (E : H3.Engine) (h3Address : JSValue) (st : State),
         let latlng := C.roundUp8 (brk st) + 8 in
         let b := H3.h3ToGeo E (toInt32 (fst (h3AddressToSplitLong h3Address)))
                    (toInt32 (snd (h3AddressToSplitLong h3Address))) latlng (buffer st) in
         engineRange b latlng = true ->
         exists p, fst (h3ToGeo E h3Address st) = Return p
                   /\ pointCanonical false p = true)
  /\ (forall (b : Buffer) (geoBoundary : Z) (geoJsonCoords closedLoop : JSValue),
         (forall k : nat, (k < Z.to_nat (C.getValue_i32 b geoBoundary))%nat ->
                          engineRange b (geoBoundary + 8 + 16 * Z.of_nat k) = true) ->
         Forall (fun element => elementCanonical (truthy geoJsonCoords) element = true)
                (readGeoBoundary b geoBoundary geoJsonCoords closedLoop))
  /\ (forall (fuel : nat) (b : Buffer) (polygon : Z) (formatAsGeoJson : JSValue)
             (polygons : list (list (list Z))),
         LinkedPolygons b polygon polygons ->
         (nodeCount polygons <= fuel)%nat ->
         Forall (Forall (Forall (fun coord => engineRange b coord = true))) polygons ->
         exists output,
           readMultiPolygon fuel b polygon formatAsGeoJson = Some output
           /\ Forall (Forall (Forall (fun element =>
                                        elementCanonical (truthy formatAsGeoJson) element
                                        = true)))
                     output).
Proof.
  split; [|split; [|split]].
  - apply readGeoCoord_canonical.
  - intros E h3Address st latlng b H. exists (readGeoCoord b latlng).
    split; [apply h3ToGeo_result | apply (readGeoCoord_canonical b latlng H)].
  - apply readGeoBoundary_canonical.
  - apply readMultiPolygon_canonical.
Qed.

(** On the sample heap the coordinate at 96 is [(0, pi)] in radians. *)
Lemma read_paths_canonical_witness :
  engineRange sampleLinkedHeap 96 = true
  /\ pointCanonical false (readGeoCoord sampleLinkedHeap 96) = true
  /\ pointCanonical true (readGeoCoordGeoJson sampleLinkedHeap 96) = true.
Proof.
  split; [vm_compute; reflexivity|].
  apply (proj1 read_paths_canonical sampleLinkedHeap 96).
  vm_compute; reflexivity.
Defined.

(** The ends of the engine's domains, read from radians. *)
Example radsToDegs_ends :
  radsToDegs 0 = 0%float /\ radsToDegs Math_PI = 180%float
  /\ radsToDegs (2 * Math_PI) = 360%float.
Proof. vm_compute. repeat split; reflexivity. Qed.

(** The latitude the engine gives for the far half of its domain comes back
    negative. *)
Example constrainLat_examples :
  constrainLat 135 = (-45)%float /\ constrainLat 180 = 0%float
  /\ constrainLat 90 = 90%float /\ constrainLng 270 = (-90)%float.
Proof. vm_compute. repeat split; reflexivity. Qed.

(** *** Building and destroying a polygon struct *)

(** C1 fails on the code.  A triangle with one hole of four vertices is built
    and destroyed on the sample engine: four blocks are allocated (the header
    at 8, the outer coordinates at 24, the holes array at 80, the hole's
    coordinates at 96), and [destroyGeoPolygon] frees the address 3 (the vertex
    count of the outer loop, read where it looks for the coordinate pointer),
    the holes array and the header.  Neither coordinate array is freed. *)
Theorem destroyGeoPolygon_frees_wrong_blocks :
  let E := sampleEngine 0 in
  let outer : list Point := [(0, 0); (0, 1); (1, 0)]%float in
  let hole : list Point := [(0.25, 0.25); (0.25, 0.5); (0.5, 0.5); (0.5, 0.25)]%float in
  let events :=
    trace (snd ((geoPolygon <- coordinatesToGeoPolygon E [outer; hole] false ;;
                 destroyGeoPolygon E geoPolygon) emptyState)) in
  allocated events = [8; 24; 80; 96]
  /\ freed events = [3; 80; 8].
Proof. vm_compute. split; reflexivity. Qed.

(** Without holes the outer coordinate array is the only block lost. *)
Example destroyGeoPolygon_no_holes :
  let E := sampleEngine 0 in
  let outer : list Point := [(0, 0); (0, 1); (1, 0)]%float in
  let events :=
    trace (snd ((geoPolygon <- coordinatesToGeoPolygon E [outer] false ;;
                 destroyGeoPolygon E geoPolygon) emptyState)) in
  allocated events = [8; 24] /\ freed events = [3; 8].
Proof. vm_compute. split; reflexivity. Qed.

(** [polyfill] on a triangle: the engine is called, and of the three blocks
    allocated the coordinate array (at 24) is still allocated at the end. *)
Example polyfill_triangle :
  let events :=
    trace (snd (polyfill (sampleEngine 0) (SingleLoop [(0, 0); (0, 1); (1, 0)]%float)
                         (VNum 9) VUndefined emptyState)) in
  engineCalls events = ["maxPolyfillSize"; "polyfill"]
  /\ allocated events = [8; 24; 80]
  /\ freed events = [80; 3; 8].
Proof. vm_compute. repeat split; reflexivity. Qed.

(** *** Words in the byte buffer *)

Lemma loadLE_ext (b1 b2 : Buffer) (n : nat) (addr : Z) :
  (forall a, addr <= a < addr + Z.of_nat n -> b1 a = b2 a) ->
  loadLE b1 addr n = loadLE b2 addr n.
Proof.
  revert addr. induction n as [|n IH]; intros addr H; [reflexivity|].
  cbn [loadLE]. rewrite (H addr) by lia. rewrite (IH (addr + 1)); [reflexivity|].
  intros a Ha. apply H. lia.
Qed.

Lemma storeLE_outside (b : Buffer) (addr n v a : Z) :
  a < addr \/ addr + n <= a -> storeLE b addr n v a = b a.
Proof.
  intros H. unfold storeLE.
  destruct (Z.leb_spec addr a), (Z.ltb_spec a (addr + n)); cbn [andb]; try reflexivity; lia.
Qed.

Lemma loadLE_storeLE_other (b : Buffer) (addr n v addr' : Z) (k : nat) :
  addr' + Z.of_nat k <= addr \/ addr + n <= addr' ->
  loadLE (storeLE b addr n v) addr' k = loadLE b addr' k.
Proof.
  intros H. apply loadLE_ext. intros a Ha. apply storeLE_outside. lia.
Qed.

Lemma loadLE_storeLE_word (b : Buffer) (addr v : Z) :
  0 <= v < 2 ^ 32 -> loadLE (storeLE b addr 4 v) addr 4 = v.
Proof.
  intros Hv. cbn [loadLE]. unfold storeLE.
  replace (addr + 1 + 1 + 1) with (addr + 3) by lia.
  replace (addr + 1 + 1) with (addr + 2) by lia.
  repeat match goal with
         | |- context [(?x <=? ?y) && (?z <? ?w)] =>
             replace ((x <=? y) && (z <? w)) with true
               by (symmetry; apply andb_true_iff; split; [apply Z.leb_le | apply Z.ltb_lt]; lia)
         end.
  replace (addr - addr) with 0 by lia.
  replace (addr + 1 - addr) with 1 by lia.
  replace (addr + 2 - addr) with 2 by lia.
  replace (addr + 3 - addr) with 3 by lia.
  change (256 ^ 0) with 1. change (256 ^ 1) with 256.
  change (256 ^ 2) with 65536. change (256 ^ 3) with 16777216.
  change (2 ^ 32) with 4294967296 in Hv.
  rewrite !Z.mod_mod by lia.
  pose proof (Z.div_mod v 256 ltac:(lia)).
  pose proof (Z.div_mod (v / 256) 256 ltac:(lia)).
  pose proof (Z.div_mod (v / 256 / 256) 256 ltac:(lia)).
  pose proof (Z.mod_pos_bound v 256 ltac:(lia)).
  pose proof (Z.mod_pos_bound (v / 256) 256 ltac:(lia)).
  pose proof (Z.mod_pos_bound (v / 256 / 256) 256 ltac:(lia)).
  rewrite Z.div_1_r.
  replace (v / 65536) with (v / 256 / 256) by (rewrite Z.div_div by lia; reflexivity).
  replace (v / 16777216) with (v / 256 / 256 / 256) by (rewrite !Z.div_div by lia; reflexivity).
  assert (v / 256 / 256 / 256 < 256) as Htop.
  { rewrite !Z.div_div by lia. apply Z.div_lt_upper_bound; lia. }
  assert (0 <= v / 256 / 256 / 256) as Htop0 by (repeat apply Z.div_pos; lia).
  rewrite (Z.mod_small (v / 256 / 256 / 256)) by lia.
  lia.
Qed.

Lemma roundUp8_multiple (k : Z) : C.roundUp8 (8 * k) = 8 * k.
Proof.
  unfold C.roundUp8. f_equal.
  rewrite Z.add_comm, Z.mul_comm, Z.div_add by lia. reflexivity.
Qed.

Lemma getValue_i32_aligned (b : Buffer) (k : Z) :
  C.getValue_i32 b (4 * k)
  = let u := loadLE b (4 * k) 4 in if u <? 2 ^ 31 then u else u - 2 ^ 32.
Proof.
  unfold C.getValue_i32, C.HEAP32.
  rewrite Z.shiftr_div_pow2 by lia. change (2 ^ 2) with 4.
  replace (4 * k / 4) with k by (rewrite Z.mul_comm, Z.div_mul by lia; reflexivity).
  reflexivity.
Qed.

(** The word that [polygonArrayToGeofence] leaves at offset 0 of the loop
    record is the vertex count; the pointer is in the next word. *)
Lemma HEAPU32_set_pair_first (b : Buffer) (k n ptr : Z) :
  0 <= n < 2 ^ 31 ->
  C.getValue_i32 (C.HEAPU32_set b [JInt n; JInt ptr] k) (4 * k) = n.
Proof.
  intros Hn. rewrite getValue_i32_aligned. cbn [C.HEAPU32_set].
  rewrite loadLE_storeLE_other by (change (Z.of_nat 4) with 4; lia).
  assert (toUint32 (JInt n) = n) as ->.
  { cbn [toUint32]. apply Z.mod_small. change (2 ^ 32) with 4294967296.
    change (2 ^ 31) with 2147483648 in Hn. lia. }
  rewrite loadLE_storeLE_word by (change (2 ^ 32) with 4294967296;
                                  change (2 ^ 31) with 2147483648 in Hn; lia).
  cbv zeta. destruct (Z.ltb_spec n (2 ^ 31)); [reflexivity | lia].
Qed.

Lemma setValue_i32_aligned (b : Buffer) (k : Z) (v : jsint) :
  C.setValue_i32 b (4 * k) v = storeLE b (4 * k) 4 (toUint32 v).
Proof.
  unfold C.setValue_i32. rewrite Z.shiftr_div_pow2 by lia. change (2 ^ 2) with 4.
  replace (4 * k / 4) with k by (rewrite Z.mul_comm, Z.div_mul by lia; reflexivity).
  reflexivity.
Qed.

(** The header of a polygon without holes, as [coordinatesToGeoPolygon]
    leaves it: the vertex count at offset 0 and a hole count of 0 at offset
    8. *)
Lemma header_words (b : Buffer) (k header n ptr : Z) (holes : jsint) :
  header = 8 * k ->
  0 <= n < 2 ^ 31 ->
  let b' := C.setValue_i32
              (C.setValue_i32 (C.HEAPU32_set b [JInt n; JInt ptr] (2 * k))
                              (header + 8) (JInt 0))
              (header + 12) holes in
  C.getValue_i32 b' header = n /\ C.getValue_i32 b' (header + 8) = 0.
Proof.
  intros -> Hn b'. subst b'.
  replace (8 * k + 12) with (4 * (2 * k + 3)) by lia.
  replace (8 * k + 8) with (4 * (2 * k + 2)) by lia.
  replace (8 * k) with (4 * (2 * k)) by lia.
  rewrite !setValue_i32_aligned, !getValue_i32_aligned. cbv zeta.
  rewrite !loadLE_storeLE_other by (change (Z.of_nat 4) with 4; lia).
  rewrite loadLE_storeLE_word by (cbn [toUint32]; change (0 mod 2 ^ 32) with 0;
                                  change (2 ^ 32) with 4294967296; lia).
  split; [|reflexivity].
  rewrite <- getValue_i32_aligned. now apply HEAPU32_set_pair_first.
Qed.

(** For every polygon of a single loop, on any engine whose loop record is 8
    bytes, and from any state: the header and the coordinate array are
    allocated, and [destroyGeoPolygon] frees the vertex count and the header.
    The coordinate array, 16 bytes past the header, is not freed. *)
Lemma destroyGeoPolygon_single_loop
      (E : H3.Engine) (outer : list Point) (isGeoJson : bool) (st : State) :
  H3.sizeOfGeofence E = 8 ->
  Z.of_nat (List.length outer) < 2 ^ 31 ->
  let header := C.roundUp8 (brk st) + 8 in
  let events :=
    eventsSince st
      (snd ((geoPolygon <- coordinatesToGeoPolygon E [outer] isGeoJson ;;
             destroyGeoPolygon E geoPolygon) st)) in
  allocated events = [header; header + 16]
  /\ freed events = [Z.of_nat (List.length outer); header].
Proof.
  intros Hsize Hlen header events. subst events.
  remember (Z.of_nat (List.length outer)) as n eqn:Hn.
  assert (0 <= n) as Hn0 by lia.
  set (q := (brk st + 7) / 8).
  assert (header = 8 * (q + 1)) as Hheader by (unfold header, C.roundUp8; lia).
  assert (exists bytes1 bytes2,
             trace (snd ((geoPolygon <- coordinatesToGeoPolygon E [outer] isGeoJson ;;
                          destroyGeoPolygon E geoPolygon) st))
             = trace st ++ [EvAlloc header bytes1; EvAlloc (header + 16) bytes2;
                            EvFree n; EvFree header]) as (bytes1 & bytes2 & Htrace).
  { unfold coordinatesToGeoPolygon, polygonArrayToGeofence, destroyGeoPolygon.
    unfold SZ_GEOFENCE. rewrite Hsize.
    cbn [List.length]. change (Z.of_nat 1 - 1) with 0. change (0 <? 0) with false.
    cbv iota. fold header. rewrite <- Hn.
    rewrite !bind_assoc. step. fold header. rewrite !bind_assoc.
    replace (header + Z.max 8 (C.roundUp8 (SZ_GEOPOLYGON E * 0))) with (8 * (q + 2))
      by (rewrite Z.mul_0_r, Hheader; change (C.roundUp8 0) with 0;
          change (Z.max 8 0) with 8; lia).
    step. rewrite roundUp8_multiple.
    replace (8 * (q + 2) + 8) with (header + 16) by lia.
    rewrite !bind_assoc.
    match goal with
    | |- context [bind (forEachFrom ?i ?items (fun j p => modifyBuffer (@?f j p))) ?g ?s] =>
        destruct (forEachFrom_modifyBuffer f items i s) as [b1 Hb1];
        rewrite (bind_return _ g s _ _ Hb1); clear Hb1; cbn [buffer brk trace]
    end.
    rewrite ?bind_assoc. step. rewrite ?bind_assoc. step. rewrite ?bind_assoc.
    step. rewrite ?bind_assoc. step. rewrite ?bind_assoc. step.
    rewrite ?bind_assoc. step. rewrite ?bind_assoc. step.
    replace (Z.quot (header + 0) C.SZ_INT) with (2 * (q + 1))
      by (rewrite Z.add_0_r, Hheader; unfold C.SZ_INT;
          replace (8 * (q + 1)) with (2 * (q + 1) * 4) by lia;
          rewrite Z.quot_mul by discriminate; reflexivity).
    unfold C.SZ_INT. rewrite Z.add_0_r.
    replace (header + (0 + 8 + 4)) with (header + 12) by lia.
    replace (header + (0 + 8)) with (header + 8) by lia.
    destruct (header_words b1 (q + 1) header n (header + 16) JNaN Hheader ltac:(lia))
      as [Hfirst Hholes].
    rewrite Hfirst. rewrite ?bind_assoc. step. rewrite ?bind_assoc. step.
    rewrite Hholes. cbn [Z.to_nat forRange].
    rewrite ?bind_assoc. step. unfold C._free, emit.
    cbn [snd trace]. rewrite <- !app_assoc. cbn [app].
    eexists _, _. reflexivity. }
  rewrite (eventsSince_app _ _ _ Htrace). cbn. split; reflexivity.
Qed.

(* ------------------------------------------------------------------------- *)
(** ** The codec on arbitrary 32-bit words *)

(** Every number below [16^n] has [n] hexadecimal digits. *)
Lemma digits_exist (n : nat) :
  forall v, 0 <= v < 16 ^ Z.of_nat n ->
  exists ds, Forall isDigit ds /\ List.length ds = n /\ valueOfDigits ds = v.
Proof.
  induction n as [|n IH]; intros v Hv.
  - exists []. repeat split; [constructor|]. cbn in *. lia.
  - rewrite Nat2Z.inj_succ, Z.pow_succ_r in Hv by lia.
    destruct (IH (v / 16)) as (ds & Hds & Hlen & Hval).
    { split; [apply Z.div_pos; lia | apply Z.div_lt_upper_bound; lia]. }
    exists (ds ++ [v mod 16]). repeat split.
    + apply Forall_app. split; [exact Hds|]. constructor; [|constructor].
      unfold isDigit. apply Z.mod_pos_bound. lia.
    + rewrite List.length_app, Hlen. cbn. lia.
    + rewrite valueOfDigits_snoc, Hval. pose proof (Z.div_mod v 16). lia.
Qed.

Lemma valueOfDigits_cons (d : Z) (ds : list Z) :
  valueOfDigits (d :: ds) = d * 16 ^ Z.of_nat (List.length ds) + valueOfDigits ds.
Proof.
  induction ds as [|c ds IH] using rev_ind.
  - cbn. lia.
  - rewrite app_comm_cons, !valueOfDigits_snoc, IH, List.length_app.
    cbn [List.length]. rewrite Nat2Z.inj_add. change (Z.of_nat 1) with 1.
    rewrite Z.pow_add_r by lia. lia.
Qed.

Lemma valueOfDigits_stripZeros (ds : list Z) :
  valueOfDigits (stripZeros ds) = valueOfDigits ds.
Proof.
  induction ds as [|d ds IH]; [reflexivity|].
  destruct d; try reflexivity.
  cbn [stripZeros]. rewrite IH, valueOfDigits_cons. lia.
Qed.

Lemma hexDigit_roundtrip (d : Z) :
  isDigit d -> hexDigitValue (hexDigitChar d) = Some d /\ isLowerHexDigit (hexDigitChar d) = true.
Proof.
  unfold isDigit. intros H.
  assert (d = 0 \/ d = 1 \/ d = 2 \/ d = 3 \/ d = 4 \/ d = 5 \/ d = 6 \/ d = 7 \/ d = 8
          \/ d = 9 \/ d = 10 \/ d = 11 \/ d = 12 \/ d = 13 \/ d = 14 \/ d = 15) as Hd by lia.
  repeat (destruct Hd as [->|Hd]; [split; reflexivity|]). subst. split; reflexivity.
Qed.

Lemma allLowerHex_digitsStr (ds : list Z) :
  Forall isDigit ds -> allLowerHex (digitsStr ds) = true /\ digitsPrefix (digitsStr ds) = ds.
Proof.
  induction 1 as [|d ds Hd _ [IH1 IH2]]; [split; reflexivity|].
  cbn [digitsStr allLowerHex digitsPrefix].
  destruct (hexDigit_roundtrip d Hd) as [-> ->]. rewrite IH1, IH2. split; reflexivity.
Qed.

Lemma stripZeros_digits (ds : list Z) :
  Forall isDigit ds -> Forall isDigit (stripZeros ds).
Proof.
  induction 1 as [|d ds Hd H IH]; [constructor|].
  destruct d; cbn [stripZeros]; try (constructor; assumption). exact IH.
Qed.

Lemma stripZeros_length (ds : list Z) :
  (List.length (stripZeros ds) <= List.length ds)%nat.
Proof.
  induction ds as [|d ds IH]; [cbn; lia|].
  destruct d; cbn [stripZeros List.length]; lia.
Qed.

(** The digits [hexOfZ] prints: no leading zero, and the value is kept. *)
Lemma hexOfZ_canonical (n : nat) (v : Z) :
  0 <= v < 16 ^ Z.of_nat n ->
  exists ds, hexOfZ v = digitsStr ds /\ Forall isDigit ds /\ valueOfDigits ds = v
             /\ (1 <= List.length ds)%nat /\ (List.length ds <= Nat.max 1 n)%nat
             /\ (0 < v -> exists c cs, ds = c :: cs /\ c <> 0).
Proof.
  intros Hv. destruct (digits_exist n v Hv) as (ds & Hds & Hlen & Hval).
  rewrite <- Hval, (hexOfZ_digits ds Hds).
  destruct (stripZeros ds) as [|c cs] eqn:Hs.
  - exists [0]. apply (stripZeros_nil_value ds Hds) in Hs.
    split; [reflexivity|]. split; [constructor; [unfold isDigit; lia | constructor]|].
    split; [cbn; lia|]. split; [cbn; lia|]. split; [cbn [List.length]; lia|]. lia.
  - exists (c :: cs). pose proof (stripZeros_digits ds Hds) as Hcs.
    pose proof (stripZeros_length ds) as Hl. pose proof (valueOfDigits_stripZeros ds) as Hvs.
    rewrite Hs in *. repeat split; try assumption; try (cbn [List.length] in *; lia).
    intros _. exists c, cs. split; [reflexivity|].
    intros ->. destruct ds as [|d ds']; [discriminate|].
    clear - Hs. induction (d :: ds') as [|e es IH]; [discriminate|].
    destruct e; cbn [stripZeros] in Hs; try discriminate; auto.
Qed.

Lemma substring_all (s : string) : String.substring 0 (String.length s) s = s.
Proof. induction s as [|c s IH]; cbn; [reflexivity | rewrite IH; reflexivity]. Qed.

Lemma js_substring_from_tail (c : ascii) (r : string) :
  js_substring_from (String c r) 1 = r.
Proof.
  unfold js_substring_from, js_substring. cbn [String.length].
  set (len := Z.of_nat (S (String.length r))).
  assert (1 <= len) by (unfold len; lia).
  replace (Z.min (Z.max 1 0) len) with 1 by lia.
  replace (Z.min (Z.max len 0) len) with len by lia.
  replace (Z.min 1 len) with 1 by lia. replace (Z.max 1 len) with len by lia.
  replace (Z.to_nat (len - 1)) with (String.length r) by (unfold len; lia).
  change (Z.to_nat 1) with 1%nat. cbn [String.substring]. apply substring_all.
Qed.

(** The negative branch of [hexFrom32Bit]: the sign bit is cleared, the rest
    is padded to eight digits, and 8 is added to the first of them. *)
Lemma hexFrom32Bit_negative_digits (z : Z) :
  - 2 ^ 31 <= z < 0 ->
  exists d tl,
    isDigit (d + 8) /\ Forall isDigit tl /\ List.length tl = 7%nat
    /\ valueOfDigits ((d + 8) :: tl) = z + 2 ^ 32
    /\ hexFrom32Bit (JInt z) = digitsStr ((d + 8) :: tl).
Proof.
  intros Hz. set (w := z + 2 ^ 31).
  destruct (digits_exist 8 w) as (ds & Hds & Hlen & Hval).
  { unfold w. change (16 ^ Z.of_nat 8) with (2 ^ 32). lia. }
  destruct ds as [|d tl]; [discriminate|].
  injection Hlen as Hlen. inversion Hds as [|? ? Hd Htl]; subst.
  pose proof (valueOfDigits_bounds tl Htl) as Hb. rewrite Hlen in Hb.
  rewrite valueOfDigits_cons, Hlen in Hval.
  change (16 ^ Z.of_nat 7) with 268435456 in *.
  unfold isDigit in Hd.
  assert (0 <= d <= 7) as Hd7 by (unfold w in Hval; lia).
  exists d, tl. split; [unfold isDigit; lia|]. split; [exact Htl|]. split; [exact Hlen|].
  split.
  { rewrite valueOfDigits_cons, Hlen. change (16 ^ Z.of_nat 7) with 268435456.
    unfold w in Hval. lia. }
  unfold hexFrom32Bit, jsint_ge0.
  destruct (Z.leb_spec 0 z) as [?|_]; [lia|].
  assert (Z.land (toInt32 (JInt z)) 2147483647 = valueOfDigits (d :: tl)) as ->.
  { unfold toInt32. change 2147483647 with (Z.ones 31). rewrite Z.land_ones by lia.
    rewrite valueOfDigits_cons, Hlen. change (16 ^ Z.of_nat 7) with 268435456.
    rewrite Hval. unfold w.
    replace ((z + 2 ^ 31) mod 2 ^ 32) with (z + 2 ^ 31) by (symmetry; apply Z.mod_small; lia).
    replace (z + 2 ^ 31 - 2 ^ 31) with (z + 2 ^ 31 + (-1) * 2 ^ 31) by lia.
    rewrite Z.mod_add by lia. apply Z.mod_small. lia. }
  assert (toString16 (JInt (valueOfDigits (d :: tl))) = hexOfZ (valueOfDigits (d :: tl))) as ->.
  { unfold toString16.
    destruct (Z.ltb_spec (valueOfDigits (d :: tl)) 0) as [?|_]; [|reflexivity].
    rewrite valueOfDigits_cons, Hlen in *. change (16 ^ Z.of_nat 7) with 268435456 in *. lia. }
  pose proof (zeroPad_hexOfZ (d :: tl) Hds ltac:(discriminate)) as Hpad.
  cbn [List.length] in Hpad. rewrite Hlen in Hpad. change (Z.of_nat 8) with 8 in Hpad.
  rewrite Hpad. cbn [digitsStr]. rewrite js_substring_from_tail.
  unfold charAt. cbn [String.get]. rewrite parseInt16_single.
  destruct (hexDigit_roundtrip d ltac:(unfold isDigit; lia)) as [-> _].
  assert (d = 0 \/ d = 1 \/ d = 2 \/ d = 3 \/ d = 4 \/ d = 5 \/ d = 6 \/ d = 7) as Hc by lia.
  repeat (destruct Hc as [->|Hc]; [reflexivity|]). subst. reflexivity.
Qed.

Lemma hexFrom32Bit_word (z : Z) :
  - 2 ^ 31 <= z < 2 ^ 32 ->
  hexFrom32Bit (JInt z) = hexOfZ (z mod 2 ^ 32).
Proof.
  intros Hz. destruct (Z.lt_ge_cases z 0) as [Hneg|Hpos].
  - destruct (hexFrom32Bit_negative_digits z ltac:(lia)) as (d & tl & Hd & Htl & Hlen & Hval & ->).
    replace (z mod 2 ^ 32) with (z + 2 ^ 32).
    2:{ replace z with (z + 2 ^ 32 + (-1) * 2 ^ 32) at 2 by lia.
        rewrite Z.mod_add by lia. symmetry. apply Z.mod_small. lia. }
    rewrite <- Hval, hexOfZ_digits by (constructor; assumption).
    assert (d + 8 <> 0) as Hne.
    { intros E. rewrite E, valueOfDigits_cons in Hval.
      pose proof (valueOfDigits_bounds tl Htl) as Hb.
      rewrite Hlen in *.
      change (16 ^ Z.of_nat 7) with 268435456 in *. lia. }
    destruct (d + 8); try reflexivity. congruence.
  - rewrite Z.mod_small by lia. unfold hexFrom32Bit, jsint_ge0, toString16.
    destruct (Z.leb_spec 0 z) as [_|?]; [|lia].
    destruct (Z.ltb_spec z 0) as [?|_]; [lia|]. reflexivity.
Qed.

(** X1.  [hexFrom32Bit] prints a 32-bit word the same whether the number
    holds it signed (as the heap views give it) or unsigned (as [parseInt]
    gives it): for every [z] from -2^31 up to 2^32 - 1 the result is the
    hexadecimal form of [z mod 2^32], lowercase and without leading zeros. *)
Theorem hexFrom32Bit_unsigned (z : Z) :
  - 2 ^ 31 <= z < 2 ^ 32 ->
  hexFrom32Bit (JInt z) = hexOfZ (z mod 2 ^ 32).
Proof. exact (hexFrom32Bit_word z). Qed.

Lemma hexFrom32Bit_unsigned_witness :
  - 2 ^ 31 <= -1073741825 < 2 ^ 32
  /\ hexFrom32Bit (JInt (-1073741825)) = hexOfZ ((-1073741825) mod 2 ^ 32).
Proof.
  split; [lia | apply (hexFrom32Bit_unsigned (-1073741825)); lia].
Defined.

Lemma string_length_app (a b : string) :
  String.length (a ++ b) = (String.length a + String.length b)%nat.
Proof. induction a as [|c a IH]; cbn; [reflexivity | rewrite IH; reflexivity]. Qed.

Lemma substring_app_left (a b : string) :
  String.substring 0 (String.length a) (a ++ b) = a.
Proof. induction a as [|c a IH]; cbn; [destruct b; reflexivity | rewrite IH; reflexivity]. Qed.

Lemma substring_app_right (a b : string) :
  String.substring (String.length a) (String.length b) (a ++ b) = b.
Proof. induction a as [|c a IH]; cbn; [apply substring_all | exact IH]. Qed.

(** What [splitLongToH3Address] prints: the digits of the upper word without
    leading zeros, then the eight digits of the lower word. *)
Lemma splitLongToH3Address_digits (lower upper : Z) :
  - 2 ^ 31 <= lower < 2 ^ 32 -> - 2 ^ 31 <= upper < 2 ^ 32 ->
  exists dh dl,
    splitLongToH3Address (JInt lower) (JInt upper) = (digitsStr dh ++ digitsStr dl)%string
    /\ Forall isDigit dh /\ Forall isDigit dl
    /\ (1 <= List.length dh <= 8)%nat /\ List.length dl = 8%nat
    /\ valueOfDigits dh = upper mod 2 ^ 32 /\ valueOfDigits dl = lower mod 2 ^ 32
    /\ (0 < upper mod 2 ^ 32 -> exists c cs, dh = c :: cs /\ c <> 0).
Proof.
  intros Hl Hu. unfold splitLongToH3Address.
  rewrite !hexFrom32Bit_word by assumption.
  pose proof (Z.mod_pos_bound lower (2 ^ 32) ltac:(lia)) as Hlm.
  pose proof (Z.mod_pos_bound upper (2 ^ 32) ltac:(lia)) as Hum.
  destruct (hexOfZ_canonical 8 (upper mod 2 ^ 32)) as (dh & -> & Hdh & Hvh & Hh1 & Hh8 & Hhead).
  { change (16 ^ Z.of_nat 8) with (2 ^ 32). lia. }
  destruct (digits_exist 8 (lower mod 2 ^ 32)) as (dl & Hdl & Hlen & Hvl).
  { change (16 ^ Z.of_nat 8) with (2 ^ 32). lia. }
  exists dh, dl.
  pose proof (zeroPad_hexOfZ dl Hdl ltac:(intros ->; discriminate)) as Hpad.
  rewrite Hlen, Hvl in Hpad. change (Z.of_nat 8) with 8 in Hpad. rewrite Hpad.
  repeat split; try assumption.
Qed.

Lemma splitLong_decode (lower upper : Z) :
  - 2 ^ 31 <= lower < 2 ^ 32 -> - 2 ^ 31 <= upper < 2 ^ 32 ->
  h3AddressToSplitLong (VStr (splitLongToH3Address (JInt lower) (JInt upper)))
  = (JInt (lower mod 2 ^ 32), JInt (upper mod 2 ^ 32)).
Proof.
  intros Hl Hu.
  destruct (splitLongToH3Address_digits lower upper Hl Hu)
    as (dh & dl & -> & Hdh & Hdl & Hlh & Hll & <- & <- & _).
  cbn [h3AddressToSplitLong].
  assert (String.length (digitsStr dh ++ digitsStr dl) = (List.length dh + 8)%nat) as Hlen.
  { rewrite string_length_app, !digitsStr_length, Hll. reflexivity. }
  rewrite js_substring_upper, js_substring_lower by lia.
  rewrite Hlen. replace (List.length dh + 8 - 8)%nat with (String.length (digitsStr dh))
    by (rewrite digitsStr_length; lia).
  rewrite substring_app_left.
  replace 8%nat with (String.length (digitsStr dl)) by (rewrite digitsStr_length; exact Hll).
  rewrite substring_app_right.
  destruct (allLowerHex_digitsStr dh Hdh) as [Hhh Hph].
  destruct (allLowerHex_digitsStr dl Hdl) as [Hhl Hpl].
  rewrite !parseInt16_lowerHex, Hph, Hpl; try assumption;
    try (rewrite digitsStr_length; lia);
    try (intros E; apply (f_equal String.length) in E; rewrite digitsStr_length in E; cbn in E; lia).
  reflexivity.
Qed.

(** X2.  Encoding two 32-bit words and decoding the string gives the words
    back as unsigned 32-bit integers, whether they were given signed or
    unsigned; the zero identifier included. *)
Theorem splitLong_words_roundtrip (lower upper : Z) :
  - 2 ^ 31 <= lower < 2 ^ 32 -> - 2 ^ 31 <= upper < 2 ^ 32 ->
  h3AddressToSplitLong (VStr (splitLongToH3Address (JInt lower) (JInt upper)))
  = (JInt (toUint32 (JInt lower)), JInt (toUint32 (JInt upper))).
Proof. exact (splitLong_decode lower upper). Qed.

Lemma splitLong_words_roundtrip_witness :
  - 2 ^ 31 <= -1 < 2 ^ 32 /\ - 2 ^ 31 <= 139625287 < 2 ^ 32
  /\ h3AddressToSplitLong (VStr (splitLongToH3Address (JInt (-1)) (JInt 139625287)))
     = (JInt (toUint32 (JInt (-1))), JInt (toUint32 (JInt 139625287))).
Proof.
  split; [lia|]. split; [lia|]. apply (splitLong_words_roundtrip (-1) 139625287); lia.
Defined.

Lemma leading_digit (c : Z) (cs : list Z) (t : string) :
  isDigit c ->
  match (digitsStr (c :: cs) ++ t)%string with
  | String "0" _ => false
  | _ => true
  end = negb (c =? 0).
Proof.
  unfold isDigit. intros H. cbn [digitsStr append].
  assert (c = 0 \/ c = 1 \/ c = 2 \/ c = 3 \/ c = 4 \/ c = 5 \/ c = 6 \/ c = 7 \/ c = 8
          \/ c = 9 \/ c = 10 \/ c = 11 \/ c = 12 \/ c = 13 \/ c = 14 \/ c = 15) as Hc by lia.
  repeat (destruct Hc as [->|Hc]; [reflexivity|]). subst. reflexivity.
Qed.

Lemma splitLongToH3Address_digits_identifier (lower upper : Z) :
  - 2 ^ 31 <= lower < 2 ^ 32 -> - 2 ^ 31 <= upper < 2 ^ 32 ->
  isIdentifierString (splitLongToH3Address (JInt lower) (JInt upper))
  = negb (toUint32 (JInt upper) =? 0).
Proof.
  intros Hl Hu.
  destruct (splitLongToH3Address_digits lower upper Hl Hu)
    as (dh & dl & -> & Hdh & Hdl & Hlh & Hll & Hvh & _ & Hhead).
  unfold isIdentifierString, toUint32.
  rewrite string_length_app, !digitsStr_length, Hll, allLowerHex_app.
  destruct (allLowerHex_digitsStr dh Hdh) as [-> _].
  destruct (allLowerHex_digitsStr dl Hdl) as [-> _].
  destruct (Nat.leb_spec 9 (List.length dh + 8)) as [_|?]; [|lia].
  destruct (Nat.leb_spec (List.length dh + 8) 16) as [_|?]; [|lia].
  cbn [andb].
  destruct dh as [|c cs]; [cbn in Hlh; lia|].
  inversion Hdh as [|? ? Hc Hcs]; subst.
  rewrite leading_digit by exact Hc. f_equal.
  pose proof (Z.mod_pos_bound upper (2 ^ 32) ltac:(lia)) as Hum.
  destruct (Z.eqb_spec (upper mod 2 ^ 32) 0) as [E|E].
  - rewrite E, valueOfDigits_cons in Hvh.
    pose proof (valueOfDigits_bounds cs Hcs). unfold isDigit in Hc.
    apply Z.eqb_eq. nia.
  - destruct Hhead as (c' & cs' & Hcc & Hne); [lia|].
    injection Hcc as -> ->. apply Z.eqb_neq. exact Hne.
Qed.

(** X3.  The string [splitLongToH3Address] makes of two 32-bit words is an
    identifier string (9 to 16 lowercase hexadecimal digits, no leading zero)
    exactly when the upper word is not zero; with a zero upper word it is "0"
    followed by the eight digits of the lower word. *)
Theorem splitLongToH3Address_identifier (lower upper : Z) :
  - 2 ^ 31 <= lower < 2 ^ 32 -> - 2 ^ 31 <= upper < 2 ^ 32 ->
  isIdentifierString (splitLongToH3Address (JInt lower) (JInt upper))
  = negb (toUint32 (JInt upper) =? 0).
Proof. exact (splitLongToH3Address_digits_identifier lower upper). Qed.

Lemma splitLongToH3Address_identifier_witness :
  - 2 ^ 31 <= -1 < 2 ^ 32 /\ - 2 ^ 31 <= -2013265920 < 2 ^ 32
  /\ isIdentifierString (splitLongToH3Address (JInt (-1)) (JInt (-2013265920)))
     = negb (toUint32 (JInt (-2013265920)) =? 0).
Proof.
  split; [lia|]. split; [lia|].
  apply (splitLongToH3Address_identifier (-1) (-2013265920)); lia.
Defined.

(** The words of an identifier string. *)
Lemma decode_identifier (s : string) :
  isIdentifierString s = true ->
  exists lower upper,
    h3AddressToSplitLong (VStr s) = (JInt lower, JInt upper)
    /\ 0 <= lower < 2 ^ 32 /\ 0 < upper < 2 ^ 32.
Proof.
  unfold isIdentifierString. intros H.
  apply andb_true_iff in H as [H Hlead].
  apply andb_true_iff in H as [H Hhex].
  apply andb_true_iff in H as [Hmin Hmax].
  apply Nat.leb_le in Hmin, Hmax.
  cbn [h3AddressToSplitLong].
  rewrite js_substring_upper, js_substring_lower by lia.
  destruct (substring_split s (String.length s - 8) ltac:(lia)) as (Hsplit & Hlu & Hll).
  replace (String.length s - (String.length s - 8))%nat with 8%nat in * by lia.
  set (u := String.substring 0 (String.length s - 8) s) in *.
  set (l := String.substring (String.length s - 8) 8 s) in *.
  assert (allLowerHex u = true /\ allLowerHex l = true) as [Hu Hl].
  { rewrite Hsplit, allLowerHex_app in Hhex. apply andb_true_iff in Hhex. exact Hhex. }
  assert (u <> EmptyString) as Hune by (intros E; rewrite E in Hlu; cbn in Hlu; lia).
  assert (l <> EmptyString) as Hlne by (intros E; rewrite E in Hll; cbn in Hll; lia).
  rewrite (parseInt16_lowerHex u Hu Hune) by lia.
  rewrite (parseInt16_lowerHex l Hl Hlne) by lia.
  destruct (digitsPrefix_lowerHex u Hu) as (Hus & Hud & Hul).
  destruct (digitsPrefix_lowerHex l Hl) as (Hls & Hld & Hlen).
  pose proof (valueOfDigits_bounds _ Hud) as Hub.
  pose proof (valueOfDigits_bounds _ Hld) as Hlb.
  rewrite Hlen, Hll in Hlb. change (16 ^ Z.of_nat 8) with (2 ^ 32) in Hlb.
  assert (16 ^ Z.of_nat (List.length (digitsPrefix u)) <= 2 ^ 32) as Hpow.
  { change (2 ^ 32) with (16 ^ 8). apply Z.pow_le_mono_r; lia. }
  eexists _, _. split; [reflexivity|]. split; [exact Hlb|].
  assert (valueOfDigits (digitsPrefix u) <> 0); [|lia].
  intros E. apply (stripZeros_nil_value _ Hud) in E.
  destruct u as [|c r] eqn:Eu; [congruence|].
  cbn [allLowerHex] in Hu. apply andb_true_iff in Hu as [Hc _].
  rewrite stripZeros_head in E; [|exact Hc|].
  - rewrite E in Hul. cbn in Hul. lia.
  - intros ->. rewrite Hsplit in Hlead. cbn in Hlead. discriminate Hlead.
Qed.

Lemma toInt32_word (z : Z) :
  0 <= z < 2 ^ 32 ->
  - 2 ^ 31 <= toInt32 (JInt z) < 2 ^ 31 /\ toInt32 (JInt z) mod 2 ^ 32 = z.
Proof.
  intros Hz. unfold toInt32.
  pose proof (Z.mod_pos_bound (z + 2 ^ 31) (2 ^ 32) ltac:(lia)).
  split; [lia|].
  rewrite Zminus_mod_idemp_l. replace (z + 2 ^ 31 - 2 ^ 31) with z by lia.
  apply Z.mod_small. exact Hz.
Qed.

Lemma identifier_words (s : string) :
  isIdentifierString s = true ->
  exists lower upper,
    h3AddressToSplitLong (VStr s) = (JInt lower, JInt upper)
    /\ 0 <= lower < 2 ^ 32 /\ 0 < upper < 2 ^ 32
    /\ splitLongToH3Address (JInt (toInt32 (JInt lower))) (JInt (toInt32 (JInt upper))) = s.
Proof.
  intros Hs. destruct (decode_identifier s Hs) as (lower & upper & Hdec & Hl & Hu).
  exists lower, upper. repeat split; try assumption; try lia.
  destruct (toInt32_word lower Hl) as [Hrl Hml].
  destruct (toInt32_word upper ltac:(lia)) as [Hru Hmu].
  unfold splitLongToH3Address.
  rewrite !hexFrom32Bit_word, Hml, Hmu by lia.
  rewrite <- (Z.mod_small lower (2 ^ 32)) at 1 by lia.
  rewrite <- (Z.mod_small upper (2 ^ 32)) at 1 by lia.
  rewrite <- !hexFrom32Bit_word by lia.
  unfold isIdentifierString in Hs.
  apply andb_true_iff in Hs as [H Hlead].
  apply andb_true_iff in H as [H Hhex].
  apply andb_true_iff in H as [Hmin Hmax].
  apply Nat.leb_le in Hmin, Hmax.
  pose proof (roundtrip_lowerHex s Hmin Hmax Hhex) as Hrt.
  rewrite Hdec in Hrt. apply Hrt. intros r ->. discriminate Hlead.
Qed.

(** X4.  An identifier string decodes to two words of the unsigned 32-bit
    range, the upper one not zero (so it is never taken for the null
    sentinel); and the string survives the engine boundary: converting both
    words to signed 32-bit integers, as a call into the engine and a read
    from the heap do, and encoding them gives the same string. *)
Theorem identifier_survives_int32 (s : string) :
  isIdentifierString s = true ->
  exists lower upper,
    h3AddressToSplitLong (VStr s) = (JInt lower, JInt upper)
    /\ 0 <= lower < 2 ^ 32 /\ 0 < upper < 2 ^ 32
    /\ splitLongToH3Address (JInt (toInt32 (JInt lower))) (JInt (toInt32 (JInt upper))) = s.
Proof. exact (identifier_words s). Qed.

Lemma identifier_survives_int32_witness :
  isIdentifierString "8928308f80fffff" = true
  /\ exists lower upper,
       h3AddressToSplitLong (VStr "8928308f80fffff") = (JInt lower, JInt upper)
       /\ 0 <= lower < 2 ^ 32 /\ 0 < upper < 2 ^ 32
       /\ splitLongToH3Address (JInt (toInt32 (JInt lower))) (JInt (toInt32 (JInt upper)))
          = "8928308f80fffff".
Proof.
  split; [reflexivity | apply (identifier_survives_int32 "8928308f80fffff"); reflexivity].
Defined.

(** X5.  On an identifier string [h3GetResolution] returns an integer from 0
    to 15, never NaN and never -1: the value of the second digit. *)
Theorem h3GetResolution_identifier (s : string) :
  isIdentifierString s = true ->
  exists r, h3GetResolution (VStr s) = JInt r /\ 0 <= r <= 15.
Proof.
  unfold isIdentifierString. intros H.
  apply andb_true_iff in H as [H _].
  apply andb_true_iff in H as [H Hhex].
  apply andb_true_iff in H as [Hmin _].
  apply Nat.leb_le in Hmin.
  destruct s as [|c0 [|c1 r]]; try (cbn in Hmin; lia).
  cbn [allLowerHex] in Hhex.
  apply andb_true_iff in Hhex as [_ Hhex]. apply andb_true_iff in Hhex as [Hc1 _].
  destruct (lowerHex_char c1 Hc1) as (d & Hd & _ & Hdig & _).
  exists d. unfold h3GetResolution, charAt. cbn [String.get].
  rewrite parseInt16_single, Hd. unfold isDigit in Hdig. split; [reflexivity | lia].
Qed.

Lemma h3GetResolution_identifier_witness :
  isIdentifierString "8f283473fffffff" = true
  /\ exists r, h3GetResolution (VStr "8f283473fffffff") = JInt r /\ 0 <= r <= 15.
Proof.
  split; [reflexivity | apply (h3GetResolution_identifier "8f283473fffffff"); reflexivity].
Defined.

(** X6.  [zeroPad] never truncates: the result has [fullLen] characters, or
    those of [numStr] when it is longer, it ends with [numStr], and a string
    that is long enough is returned as it is. *)
Theorem zeroPad_length (fullLen : Z) (numStr : string) :
  String.length (zeroPad fullLen numStr) = Nat.max (Z.to_nat fullLen) (String.length numStr)
  /\ String.substring (String.length (zeroPad fullLen numStr) - String.length numStr)
                      (String.length numStr) (zeroPad fullLen numStr) = numStr
  /\ (fullLen <= Z.of_nat (String.length numStr) -> zeroPad fullLen numStr = numStr).
Proof.
  unfold zeroPad. rewrite zeroes_repeat. cbn [append].
  set (k := Z.to_nat (fullLen - Z.of_nat (String.length numStr))).
  assert (String.length (digitsStr (repeat 0 k)) = k) as Hk
    by (rewrite digitsStr_length; apply repeat_length).
  rewrite string_length_app, Hk. split; [unfold k; lia|]. split.
  - replace (k + String.length numStr - String.length numStr)%nat
      with (String.length (digitsStr (repeat 0 k))) by lia.
    apply substring_app_right.
  - intros Hle. replace k with 0%nat by (unfold k; lia). reflexivity.
Qed.

(** X20.  A string of at most eight characters has no upper part: its
    upper word is NaN, which the engine boundary reads as 0, and its lower
    word is [parseInt] of the whole string.  So a short string reaches the
    engine as an identifier with a zero upper word, never as an error. *)
Theorem h3AddressToSplitLong_short (s : string) :
  (String.length s <= 8)%nat ->
  h3AddressToSplitLong (VStr s) = (parseInt16 s, JNaN)
  /\ toInt32 (snd (h3AddressToSplitLong (VStr s))) = 0.
Proof.
  intros Hlen. cbn [h3AddressToSplitLong].
  assert (js_substring s 0 (Z.of_nat (String.length s) - 8) = EmptyString) as ->.
  { unfold js_substring.
    replace (Z.min (Z.max (Z.of_nat (String.length s) - 8) 0) (Z.of_nat (String.length s)))
      with 0 by lia.
    replace (Z.min (Z.max 0 0) (Z.of_nat (String.length s))) with 0 by lia.
    change (Z.to_nat (Z.max 0 0 - Z.min 0 0)) with 0%nat. change (Z.to_nat (Z.min 0 0)) with 0%nat.
    destruct s; reflexivity. }
  assert (js_substring_from s (Z.of_nat (String.length s) - 8) = s) as ->.
  { unfold js_substring_from, js_substring.
    replace (Z.min (Z.max (Z.of_nat (String.length s) - 8) 0) (Z.of_nat (String.length s)))
      with 0 by lia.
    replace (Z.min (Z.max (Z.of_nat (String.length s)) 0) (Z.of_nat (String.length s)))
      with (Z.of_nat (String.length s)) by lia.
    replace (Z.min 0 (Z.of_nat (String.length s))) with 0 by lia.
    replace (Z.max 0 (Z.of_nat (String.length s))) with (Z.of_nat (String.length s)) by lia.
    rewrite Z.sub_0_r, Nat2Z.id. apply substring_all. }
  split; reflexivity.
Qed.

Lemma h3AddressToSplitLong_short_witness :
  (String.length "fffff" <= 8)%nat
  /\ h3AddressToSplitLong (VStr "fffff") = (parseInt16 "fffff", JNaN)
  /\ toInt32 (snd (h3AddressToSplitLong (VStr "fffff"))) = 0.
Proof.
  split; [cbn; lia | apply (h3AddressToSplitLong_short "fffff"); cbn; lia].
Defined.

(* ------------------------------------------------------------------------- *)
(** ** Arrays of identifiers: what is stored is what is read *)

(** HEAP32 reads signed what HEAPU32 wrote. *)
Lemma int32_of_uint32 (x : jsint) :
  (let u := toUint32 x in if u <? 2 ^ 31 then u else u - 2 ^ 32) = toInt32 x.
Proof.
  destruct x as [| |z]; try reflexivity. cbn [toUint32 toInt32]. cbv zeta.
  pose proof (Z.div_mod z (2 ^ 32) ltac:(lia)) as Hz.
  pose proof (Z.mod_pos_bound z (2 ^ 32) ltac:(lia)) as Hu.
  set (u := z mod 2 ^ 32) in *. set (q := z / 2 ^ 32) in *.
  replace (z + 2 ^ 31) with (u + 2 ^ 31 + q * 2 ^ 32) by lia.
  rewrite Z.mod_add by lia.
  destruct (Z.ltb_spec u (2 ^ 31)).
  - rewrite Z.mod_small by lia. lia.
  - replace (u + 2 ^ 31) with (u - 2 ^ 31 + 1 * 2 ^ 32) by lia.
    rewrite Z.mod_add, Z.mod_small by lia. lia.
Qed.

Lemma toUint32_range (x : jsint) : 0 <= toUint32 x < 2 ^ 32.
Proof.
  destruct x as [| |z]; cbn [toUint32]; try lia. apply Z.mod_pos_bound. lia.
Qed.

(** The two words [HEAPU32.set([lower, upper], k)] leaves at [4 * k]. *)
Lemma HEAPU32_set_pair (b : Buffer) (k : Z) (lower upper : jsint) :
  let b' := C.HEAPU32_set b [lower; upper] k in
  C.getValue_i32 b' (4 * k) = toInt32 lower
  /\ C.getValue_i32 b' (4 * k + 4) = toInt32 upper
  /\ forall a, a < 4 * k \/ 4 * k + 8 <= a -> b' a = b a.
Proof.
  cbv zeta. cbn [C.HEAPU32_set]. repeat split.
  - rewrite getValue_i32_aligned.
    rewrite loadLE_storeLE_other by (change (Z.of_nat 4) with 4; lia).
    rewrite loadLE_storeLE_word by apply toUint32_range. apply int32_of_uint32.
  - replace (4 * k + 4) with (4 * (k + 1)) by lia. rewrite getValue_i32_aligned.
    rewrite loadLE_storeLE_word by apply toUint32_range. apply int32_of_uint32.
  - intros a Ha. rewrite !storeLE_outside by lia. reflexivity.
Qed.

Lemma getValue_i32_ext (b1 b2 : Buffer) (k : Z) :
  (forall a, 4 * k <= a < 4 * k + 4 -> b1 a = b2 a) ->
  C.getValue_i32 b1 (4 * k) = C.getValue_i32 b2 (4 * k).
Proof.
  intros H. rewrite !getValue_i32_aligned. cbv zeta.
  rewrite (loadLE_ext b1 b2 4 (4 * k)) by (change (Z.of_nat 4) with 4; exact H). reflexivity.
Qed.

(** After [storeArrayOfHexagons], slot [i + k] holds the words of element
    [k], and nothing outside the slots has changed. *)
Lemma storeArrayOfHexagons_slots (c : Z) (hexagons : list JSValue) :
  forall (i : nat) (st : State),
    let body := fun (i : Z) (hexagon : JSValue) =>
      modifyBuffer (fun b =>
        C.HEAPU32_set b
          (let '(lower, upper) := h3AddressToSplitLong hexagon in [lower; upper])
          (c + 2 * i)) in
    let b' := buffer (snd (forEachFrom (Z.of_nat i) hexagons body st)) in
    (forall a, a < 4 * c + 8 * Z.of_nat i
               \/ 4 * c + 8 * (Z.of_nat i + Z.of_nat (List.length hexagons)) <= a ->
               b' a = buffer st a)
    /\ (forall k : nat, (k < List.length hexagons)%nat ->
          slot b' (4 * c) (i + k) = wordsOf (nth k hexagons VUndefined)).
Proof.
  induction hexagons as [|h rest IH]; intros i st; cbv zeta.
  - split; [reflexivity | cbn; lia].
  - cbn [forEachFrom].
    set (body := fun (i : Z) (hexagon : JSValue) => modifyBuffer _).
    rewrite (bind_return (body (Z.of_nat i) h) _ st
               (mkState (C.HEAPU32_set (buffer st)
                           (let '(lower, upper) := h3AddressToSplitLong h in [lower; upper])
                           (c + 2 * Z.of_nat i)) (brk st) (trace st)) tt eq_refl).
    set (st1 := mkState _ _ _).
    replace (Z.of_nat i + 1) with (Z.of_nat (S i)) by lia.
    destruct (IH (S i) st1) as [Hframe Hslots]. fold body in Hframe, Hslots.
    set (b' := buffer (snd (forEachFrom (Z.of_nat (S i)) rest body st1))) in *.
    destruct (h3AddressToSplitLong h) as [lower upper] eqn:Hh.
    destruct (HEAPU32_set_pair (buffer st) (c + 2 * Z.of_nat i) lower upper)
      as (Hlo & Hhi & Hout).
    cbn [List.length]. split.
    + intros a Ha. rewrite Hframe by lia. unfold st1. cbn [buffer]. apply Hout. lia.
    + intros [|k] Hk.
      * cbn [nth]. unfold wordsOf. rewrite Hh. unfold slot.
        replace (4 * c + 4 * (2 * Z.of_nat (i + 0))) with (4 * (c + 2 * Z.of_nat i)) by lia.
        replace (4 * c + 4 * (2 * Z.of_nat (i + 0) + 1)) with (4 * (c + 2 * Z.of_nat i + 1)) by lia.
        rewrite (getValue_i32_ext b' (buffer st1)) by (intros; apply Hframe; lia).
        rewrite (getValue_i32_ext b' (buffer st1) (c + 2 * Z.of_nat i + 1))
          by (intros; apply Hframe; lia).
        unfold st1. cbn [buffer].
        replace (4 * (c + 2 * Z.of_nat i + 1)) with (4 * (c + 2 * Z.of_nat i) + 4) by lia.
        rewrite Hlo, Hhi. reflexivity.
      * cbn [nth]. replace (i + S k)%nat with (S i + k)%nat by lia.
        apply Hslots. cbn [List.length] in Hk. lia.
Qed.

Lemma map_seq_nth {A B : Type} (f : nat -> B) (g : A -> B) (d : A) (l : list A) :
  (forall k : nat, (k < List.length l)%nat -> f k = g (nth k l d)) ->
  map f (seq 0 (List.length l)) = map g l.
Proof.
  induction l as [|x l IH] using rev_ind; intros H; [reflexivity|].
  rewrite List.length_app. cbn [List.length]. rewrite Nat.add_1_r, seq_S, !map_app.
  cbn [map Nat.add]. f_equal.
  - apply IH. intros k Hk. rewrite (H k) by (rewrite List.length_app; cbn; lia).
    rewrite app_nth1 by exact Hk. reflexivity.
  - rewrite (H (List.length l)) by (rewrite List.length_app; cbn; lia).
    rewrite app_nth2, Nat.sub_diag by lia. reflexivity.
Qed.

Lemma wordsOf_identifiers (hexagons : list JSValue) :
  forallb identifierOrNonString hexagons = true ->
  map slotToString (filter (fun w => negb (isSentinel w)) (map wordsOf hexagons))
  = stringsOf hexagons.
Proof.
  induction hexagons as [|h rest IH]; [reflexivity|].
  cbn [forallb]. intros H. apply andb_true_iff in H as [Hh Hrest].
  specialize (IH Hrest). cbn [map filter]. unfold stringsOf in *. cbn [flat_map].
  destruct h as [| | | |s|]; try (cbn; exact IH).
  cbn [identifierOrNonString] in Hh.
  destruct (identifier_words s Hh) as (lower & upper & Hdec & Hl & Hu & Hrt).
  assert (wordsOf (VStr s) = (toInt32 (JInt lower), toInt32 (JInt upper))) as Hw
    by (unfold wordsOf; rewrite Hdec; reflexivity).
  rewrite Hw.
  destruct (toInt32_word upper ltac:(lia)) as [_ Hm].
  assert (toInt32 (JInt upper) <> 0) as Hne.
  { intros E. rewrite E in Hm. cbn in Hm. lia. }
  assert (isSentinel (toInt32 (JInt lower), toInt32 (JInt upper)) = false) as Hs.
  { unfold isSentinel. cbn [fst snd]. apply Z.eqb_neq in Hne. rewrite Hne. apply andb_false_r. }
  rewrite Hs. cbn [negb map app].
  unfold slotToString at 1. cbn [fst snd]. rewrite Hrt, IH. reflexivity.
Qed.

(** X7.  What [storeArrayOfHexagons] writes, [readArrayOfHexagons] reads
    back: for an array whose elements are identifier strings or are not
    strings at all, stored at a 4-byte aligned address, reading as many slots
    as the array has elements gives the strings in order; the elements that
    are not strings are stored as the zero identifier and skipped. *)
Theorem store_then_read_identifiers
    (cAddress : Z) (hexagons : list JSValue) (st : State) :
  0 <= cAddress -> cAddress mod 4 = 0 ->
  forallb identifierOrNonString hexagons = true ->
  readArrayOfHexagons (buffer (snd (storeArrayOfHexagons cAddress hexagons st)))
                      cAddress (Z.of_nat (List.length hexagons))
  = stringsOf hexagons.
Proof.
  intros Hpos Hal Hok.
  assert (cAddress = 4 * (cAddress / 4)) as Hc.
  { pose proof (Z.div_mod cAddress 4 ltac:(lia)). lia. }
  assert (Z.quot cAddress C.SZ_INT = cAddress / 4) as Hq
    by (apply Z.quot_div_nonneg; [lia | reflexivity]).
  rewrite readArrayOfHexagons_filter, Nat2Z.id.
  unfold storeArrayOfHexagons. rewrite Hq.
  destruct (storeArrayOfHexagons_slots (cAddress / 4) hexagons 0 st) as [_ Hslots].
  cbv zeta in Hslots. change (Z.of_nat 0) with 0 in Hslots.
  rewrite <- Hc in Hslots.
  rewrite (map_seq_nth _ wordsOf VUndefined hexagons) by (intros k Hk; apply (Hslots k Hk)).
  apply wordsOf_identifiers. exact Hok.
Qed.

Lemma store_then_read_identifiers_witness :
  0 <= 16 /\ 16 mod 4 = 0
  /\ forallb identifierOrNonString [VStr "8928308f80fffff"; VNull; VStr "115283473fffffff"] = true
  /\ readArrayOfHexagons
       (buffer (snd (storeArrayOfHexagons 16
                       [VStr "8928308f80fffff"; VNull; VStr "115283473fffffff"] emptyState)))
       16 (Z.of_nat (List.length [VStr "8928308f80fffff"; VNull; VStr "115283473fffffff"]))
     = stringsOf [VStr "8928308f80fffff"; VNull; VStr "115283473fffffff"].
Proof.
  split; [lia|]. split; [reflexivity|]. split; [reflexivity|].
  apply (store_then_read_identifiers 16
           [VStr "8928308f80fffff"; VNull; VStr "115283473fffffff"] emptyState);
    [lia | reflexivity | reflexivity].
Defined.

(* ------------------------------------------------------------------------- *)
(** ** Numbers in the byte buffer *)

Lemma loadLE_storeLE_bytes (b : Buffer) (addr size v : Z) (n : nat) :
  forall i, 0 <= i -> i + Z.of_nat n <= size ->
  loadLE (storeLE b addr size v) (addr + i) n = (v / 256 ^ i) mod 256 ^ Z.of_nat n.
Proof.
  induction n as [|n IH]; intros i Hi Hn.
  - cbn [loadLE]. change (256 ^ Z.of_nat 0) with 1. rewrite Z.mod_1_r. reflexivity.
  - cbn [loadLE]. replace (addr + i + 1) with (addr + (i + 1)) by lia.
    rewrite IH by lia. unfold storeLE.
    replace ((addr <=? addr + i) && (addr + i <? addr + size)) with true
      by (symmetry; apply andb_true_iff; split; [apply Z.leb_le | apply Z.ltb_lt]; lia).
    replace (addr + i - addr) with i by lia.
    rewrite Z.mod_mod by lia.
    rewrite Nat2Z.inj_succ, Z.pow_succ_r, Z.pow_add_r by lia.
    change (256 ^ 1) with 256.
    rewrite <- Z.div_div by (try lia; apply Z.pow_pos_nonneg; lia).
    rewrite Z.rem_mul_r; [reflexivity | lia | apply Z.pow_pos_nonneg; lia].
Qed.

Lemma loadLE_storeLE_double (b : Buffer) (addr v : Z) :
  0 <= v < 2 ^ 64 -> loadLE (storeLE b addr 8 v) addr 8 = v.
Proof.
  intros Hv. replace addr with (addr + 0) at 2 by lia.
  rewrite loadLE_storeLE_bytes by (cbn; lia).
  change (256 ^ 0) with 1. rewrite Z.div_1_r. apply Z.mod_small.
  change (256 ^ Z.of_nat 8) with (2 ^ 64). exact Hv.
Qed.

Lemma bits_of_float_range (x : float) : 0 <= bits_of_float x < 2 ^ 64.
Proof.
  unfold bits_of_float. pose proof (Prim2SF_valid x) as Hv.
  destruct (Prim2SF x) as [s|s| |s m e]; [destruct s; lia | destruct s; lia | lia |].
  cbn [valid_binary] in Hv. apply bounded_mantissa in Hv as (Hm & He & _).
  change (2 ^ 53) with 9007199254740992 in Hm.
  change (2 ^ 52) with 4503599627370496. change (2 ^ 63) with 9223372036854775808.
  change (2 ^ 64) with 18446744073709551616.
  destruct (Z.ltb_spec (Zpos m) 4503599627370496); destruct s; lia.
Qed.

(** The encoding of a binary64 number decodes to the number. *)
Lemma float_of_bits_of_float (x : float) : float_of_bits (bits_of_float x) = x.
Proof.
  unfold bits_of_float. pose proof (Prim2SF_valid x) as Hv.
  destruct (Prim2SF x) as [s|s| |s m e] eqn:Ex.
  - apply Prim2SF_inj. rewrite Ex. destruct s; vm_compute; reflexivity.
  - apply Prim2SF_inj. rewrite Ex. destruct s; vm_compute; reflexivity.
  - apply Prim2SF_inj. rewrite Ex. vm_compute. reflexivity.
  - cbn [valid_binary] in Hv. pose proof (bounded_mantissa m e Hv) as (Hm & He & Hd).
    rewrite <- (SF2Prim_Prim2SF x), Ex.
    change (2 ^ 53) with 9007199254740992 in Hm.
    unfold float_of_bits.
    change (2 ^ 52) with 4503599627370496. change (2 ^ 63) with 9223372036854775808.
    change (2 ^ 11) with 2048.
    destruct (Z.ltb_spec (Zpos m) 4503599627370496) as [Hsub|Hnorm].
    + assert (e = -1074) as ->.
      { destruct Hd as [Hd|Hd]; [|exact Hd].
        pose proof (digits2_pos_lt m 52 ltac:(lia) ltac:(exact Hsub)). lia. }
      set (bits := (if s then 9223372036854775808 else 0) + Zpos m).
      assert (bits / 9223372036854775808 = if s then 1 else 0) as Hs.
      { symmetry. apply Z.div_unique with (r := Zpos m); unfold bits; destruct s; lia. }
      assert (bits / 4503599627370496 = if s then 2048 else 0) as Hq.
      { symmetry. apply Z.div_unique with (r := Zpos m); unfold bits; destruct s; lia. }
      assert (bits mod 4503599627370496 = Zpos m) as Hr.
      { symmetry. apply Z.mod_unique with (q := if s then 2048 else 0);
          unfold bits; destruct s; lia. }
      rewrite Z.testbit_odd, Z.shiftr_div_pow2 by lia.
      change (2 ^ 63) with 9223372036854775808. rewrite Hs, Hq, Hr.
      replace ((if s then 2048 else 0) mod 2048) with 0 by (destruct s; reflexivity).
      cbn [Z.eqb]. rewrite Pos2Z.id. destruct s; reflexivity.
    + set (bits := (if s then 9223372036854775808 else 0) + (e + 1075) * 4503599627370496
                   + (Zpos m - 4503599627370496)).
      assert (bits / 9223372036854775808 = if s then 1 else 0) as Hs.
      { symmetry.
        apply Z.div_unique with (r := (e + 1075) * 4503599627370496 + (Zpos m - 4503599627370496));
          unfold bits; destruct s; lia. }
      assert (bits / 4503599627370496 = (if s then 2048 else 0) + (e + 1075)) as Hq.
      { symmetry. apply Z.div_unique with (r := Zpos m - 4503599627370496);
          unfold bits; destruct s; lia. }
      assert (bits mod 4503599627370496 = Zpos m - 4503599627370496) as Hr.
      { symmetry. apply Z.mod_unique with (q := (if s then 2048 else 0) + (e + 1075));
          unfold bits; destruct s; lia. }
      rewrite Z.testbit_odd, Z.shiftr_div_pow2 by lia.
      change (2 ^ 63) with 9223372036854775808. rewrite Hs, Hq, Hr.
      assert (((if s then 2048 else 0) + (e + 1075)) mod 2048 = e + 1075) as ->.
      { symmetry. apply Z.mod_unique with (q := if s then 1 else 0); destruct s; lia. }
      destruct (Z.eqb_spec (e + 1075) 0) as [?|_]; [lia|].
      destruct (Z.eqb_spec (e + 1075) 2047) as [?|_]; [lia|].
      replace (Zpos m - 4503599627370496 + 4503599627370496) with (Zpos m) by lia.
      replace (e + 1075 - 1075) with e by lia.
      rewrite Pos2Z.id. destruct s; reflexivity.
Qed.

Lemma getValue_double_aligned (b : Buffer) (k : Z) :
  C.getValue_double b (8 * k) = float_of_bits (loadLE b (8 * k) 8).
Proof.
  unfold C.getValue_double, C.HEAPF64.
  rewrite Z.shiftr_div_pow2 by lia. change (2 ^ 3) with 8.
  replace (8 * k / 8) with k by (rewrite Z.mul_comm, Z.div_mul; lia). reflexivity.
Qed.

Lemma getValue_double_ext (b1 b2 : Buffer) (k : Z) :
  (forall a, 8 * k <= a < 8 * k + 8 -> b1 a = b2 a) ->
  C.getValue_double b1 (8 * k) = C.getValue_double b2 (8 * k).
Proof.
  intros H. rewrite !getValue_double_aligned.
  rewrite (loadLE_ext b1 b2 8 (8 * k)) by (change (Z.of_nat 8) with 8; exact H). reflexivity.
Qed.

(** The two numbers [HEAPF64.set([x, y], k)] leaves at [8 * k]. *)
Lemma HEAPF64_set_pair (b : Buffer) (k : Z) (x y : float) :
  let b' := C.HEAPF64_set b [x; y] k in
  C.getValue_double b' (8 * k) = x
  /\ C.getValue_double b' (8 * k + 8) = y
  /\ forall a, a < 8 * k \/ 8 * k + 16 <= a -> b' a = b a.
Proof.
  cbv zeta. cbn [C.HEAPF64_set]. repeat split.
  - rewrite getValue_double_aligned.
    rewrite loadLE_storeLE_other by (change (Z.of_nat 8) with 8; lia).
    rewrite loadLE_storeLE_double by apply bits_of_float_range.
    apply float_of_bits_of_float.
  - replace (8 * k + 8) with (8 * (k + 1)) by lia. rewrite getValue_double_aligned.
    rewrite loadLE_storeLE_double by apply bits_of_float_range.
    apply float_of_bits_of_float.
  - intros a Ha. rewrite !storeLE_outside by lia. reflexivity.
Qed.

(** The loop that writes the vertices: pair [i + k] holds what was computed
    from vertex [k], and nothing outside the pairs has changed. *)
Lemma storeCoords_slots (q : Z) (g1 g2 : Point -> float) (items : list Point) :
  forall (i : nat) (st : State),
    let body := fun (k : Z) (p : Point) =>
      modifyBuffer (fun b => C.HEAPF64_set b [g1 p; g2 p] (q + 2 * k)) in
    let b' := buffer (snd (forEachFrom (Z.of_nat i) items body st)) in
    (forall a, a < 8 * q + 16 * Z.of_nat i
               \/ 8 * q + 16 * (Z.of_nat i + Z.of_nat (List.length items)) <= a ->
               b' a = buffer st a)
    /\ (forall (k : nat) (p : Point), nth_error items k = Some p ->
          C.getValue_double b' (8 * q + 16 * Z.of_nat (i + k)) = g1 p
          /\ C.getValue_double b' (8 * q + 16 * Z.of_nat (i + k) + 8) = g2 p).
Proof.
  induction items as [|x rest IH]; intros i st; cbv zeta.
  - split; [reflexivity | intros [|k] p Hk; discriminate Hk].
  - cbn [forEachFrom].
    set (body := fun (k : Z) (p : Point) => modifyBuffer _).
    rewrite (bind_return (body (Z.of_nat i) x) _ st
               (mkState (C.HEAPF64_set (buffer st) [g1 x; g2 x] (q + 2 * Z.of_nat i))
                        (brk st) (trace st)) tt eq_refl).
    set (st1 := mkState _ _ _).
    replace (Z.of_nat i + 1) with (Z.of_nat (S i)) by lia.
    destruct (IH (S i) st1) as [Hframe Hslots]. fold body in Hframe, Hslots.
    set (b' := buffer (snd (forEachFrom (Z.of_nat (S i)) rest body st1))) in *.
    destruct (HEAPF64_set_pair (buffer st) (q + 2 * Z.of_nat i) (g1 x) (g2 x))
      as (H1 & H2 & Hout).
    cbn [List.length]. split.
    + intros a Ha. rewrite Hframe by lia. unfold st1. cbn [buffer]. apply Hout. lia.
    + intros [|k] p Hk.
      * cbn [nth_error] in Hk. injection Hk as <-.
        replace (8 * q + 16 * Z.of_nat (i + 0)) with (8 * (q + 2 * Z.of_nat i)) by lia.
        replace (8 * (q + 2 * Z.of_nat i) + 8) with (8 * (q + 2 * Z.of_nat i + 1)) by lia.
        rewrite (getValue_double_ext b' (buffer st1)) by (intros; apply Hframe; lia).
        rewrite (getValue_double_ext b' (buffer st1) (q + 2 * Z.of_nat i + 1))
          by (intros; apply Hframe; lia).
        unfold st1. cbn [buffer].
        replace (8 * (q + 2 * Z.of_nat i + 1)) with (8 * (q + 2 * Z.of_nat i) + 8) by lia.
        split; assumption.
      * cbn [nth_error] in Hk. replace (i + S k)%nat with (S i + k)%nat by lia.
        apply Hslots. exact Hk.
Qed.

Lemma toInt32_small (z : Z) : - 2 ^ 31 <= z < 2 ^ 31 -> toInt32 (JInt z) = z.
Proof. intros H. unfold toInt32. rewrite Z.mod_small by lia. lia. Qed.

Lemma roundUp8_aligned (n : Z) : exists q, C.roundUp8 n + 8 = 8 * q /\ n + 8 <= 8 * q.
Proof.
  exists ((n + 7) / 8 + 1). pose proof (roundUp8_ge n). unfold C.roundUp8 in *. lia.
Qed.

(* ------------------------------------------------------------------------- *)
(** ** The structs built for [polyfill] *)

Lemma polygonArrayToGeofence_writes
      (E : H3.Engine) (polygonArray : list Point) (geofence : Z) (isGeoJson : bool)
      (st : State) :
  H3.sizeOfGeoCoord E = 16 ->
  0 <= brk st ->
  0 <= geofence -> geofence mod 4 = 0 -> geofence + 8 <= C.roundUp8 (brk st) + 8 ->
  let ptr := C.roundUp8 (brk st) + 8 in
  let numVerts := Z.of_nat (List.length polygonArray) in
  exists b',
    polygonArrayToGeofence E polygonArray geofence isGeoJson st
    = (Return geofence,
       mkState b' (ptr + Z.max 8 (C.roundUp8 (numVerts * 16)))
               (trace st ++ [EvAlloc ptr (numVerts * 16)]))
    /\ C.getValue_i32 b' geofence = toInt32 (JInt numVerts)
    /\ C.getValue_i32 b' (geofence + 4) = toInt32 (JInt ptr)
    /\ (forall (k : nat) (p : Point), nth_error polygonArray k = Some p ->
          C.getValue_double b' (ptr + 16 * Z.of_nat k)
          = degsToRads (constrainLat (if isGeoJson then snd p else fst p))
          /\ C.getValue_double b' (ptr + 16 * Z.of_nat k + 8)
             = degsToRads (constrainLng (if isGeoJson then fst p else snd p)))
    /\ (forall a, a < geofence \/ geofence + 8 <= a ->
                  a < ptr \/ ptr + numVerts * 16 <= a -> b' a = buffer st a).
Proof.
  intros Hsz Hbrk Hg0 Hgal Hbelow. cbv zeta.
  destruct (roundUp8_aligned (brk st)) as (q & Hq & Hqge).
  set (ptr := C.roundUp8 (brk st) + 8) in *.
  set (n := Z.of_nat (List.length polygonArray)) in *.
  assert (Z.quot ptr C.SZ_DBL = q) as Hquot.
  { rewrite Z.quot_div_nonneg by (unfold C.SZ_DBL; lia). rewrite Hq.
    unfold C.SZ_DBL. rewrite Z.mul_comm, Z.div_mul; lia. }
  assert (geofence = 4 * (geofence / 4)) as Hg4.
  { pose proof (Z.div_mod geofence 4 ltac:(lia)). lia. }
  assert (Z.quot geofence C.SZ_INT = geofence / 4) as Hgq
    by (apply Z.quot_div_nonneg; [lia | reflexivity]).
  set (g1 := fun p : Point => degsToRads (constrainLat (if isGeoJson then snd p else fst p))).
  set (g2 := fun p : Point => degsToRads (constrainLng (if isGeoJson then fst p else snd p))).
  set (st1 := mkState (fun a => if (ptr <=? a) && (a <? ptr + n * 16) then 0 else buffer st a)
                      (ptr + Z.max 8 (C.roundUp8 (n * 16)))
                      (trace st ++ [EvAlloc ptr (n * 16)])).
  set (body := fun (k : Z) (p : Point) =>
                 modifyBuffer (fun b => C.HEAPF64_set b [g1 p; g2 p] (q + 2 * k))).
  assert (polygonArrayToGeofence E polygonArray geofence isGeoJson st
          = bind (forEachFrom 0 polygonArray body)
                 (fun _ => bind (modifyBuffer (fun b =>
                                   C.HEAPU32_set b [JInt n; JInt ptr] (geofence / 4)))
                                (fun _ => ret geofence)) st1) as Hrun.
  { unfold polygonArrayToGeofence, SZ_GEOCOORD. rewrite Hsz. fold n.
    rewrite (bind_return (C._calloc n 16) _ st st1 ptr eq_refl).
    rewrite Hquot, Hgq. unfold body, g1, g2.
    destruct isGeoJson; reflexivity. }
  destruct (forEachFrom_modifyBuffer
              (fun (k : Z) (p : Point) (b : Buffer) =>
                 C.HEAPF64_set b [g1 p; g2 p] (q + 2 * k)) polygonArray 0 st1) as [bF HbF].
  change (forEachFrom 0 polygonArray body st1 = (Return tt, mkState bF (brk st1) (trace st1)))
    in HbF.
  destruct (storeCoords_slots q g1 g2 polygonArray 0 st1) as [Hframe Hslots].
  fold body in Hframe, Hslots. change (Z.of_nat 0) with 0 in Hframe, Hslots.
  rewrite HbF in Hframe, Hslots. cbn [snd buffer] in Hframe, Hslots.
  destruct (HEAPU32_set_pair bF (geofence / 4) (JInt n) (JInt ptr)) as (Hw1 & Hw2 & Hout).
  rewrite <- Hg4 in Hw1, Hw2, Hout.
  exists (C.HEAPU32_set bF [JInt n; JInt ptr] (geofence / 4)).
  split.
  { rewrite Hrun. rewrite (bind_return _ _ _ _ _ HbF). reflexivity. }
  split; [exact Hw1|]. split; [exact Hw2|].
  split.
  - intros k p Hk. destruct (Hslots k p Hk) as [H1 H2]. cbn [Nat.add] in H1, H2.
    assert (Z.of_nat k < n) as Hkn.
    { unfold n. apply Nat2Z.inj_lt. apply nth_error_Some. congruence. }
    replace (ptr + 16 * Z.of_nat k) with (8 * (q + 2 * Z.of_nat k)) by lia.
    replace (8 * (q + 2 * Z.of_nat k) + 8) with (8 * (q + 2 * Z.of_nat k + 1)) by lia.
    rewrite (getValue_double_ext _ bF (q + 2 * Z.of_nat k)) by (intros; apply Hout; lia).
    rewrite (getValue_double_ext _ bF (q + 2 * Z.of_nat k + 1)) by (intros; apply Hout; lia).
    replace (8 * (q + 2 * Z.of_nat k)) with (8 * q + 16 * Z.of_nat k) by lia.
    replace (8 * (q + 2 * Z.of_nat k + 1)) with (8 * q + 16 * Z.of_nat k + 8) by lia.
    split; assumption.
  - intros a Ha1 Ha2. rewrite Hout by exact Ha1. rewrite Hframe by (fold n; lia).
    unfold st1. cbn [buffer].
    destruct (Z.leb_spec ptr a), (Z.ltb_spec a (ptr + n * 16)); cbn [andb]; try reflexivity.
    lia.
Qed.

Lemma polygonArrayToGeofence_layout
      (E : H3.Engine) (polygonArray : list Point) (geofence : Z) (isGeoJson : bool)
      (st : State) :
  H3.sizeOfGeoCoord E = 16 ->
  0 <= brk st ->
  0 <= geofence -> geofence mod 4 = 0 -> geofence + 8 <= C.roundUp8 (brk st) + 8 ->
  C.roundUp8 (brk st) + 8 < 2 ^ 31 ->
  Z.of_nat (List.length polygonArray) < 2 ^ 31 ->
  let ptr := C.roundUp8 (brk st) + 8 in
  let numVerts := Z.of_nat (List.length polygonArray) in
  exists b',
    polygonArrayToGeofence E polygonArray geofence isGeoJson st
    = (Return geofence,
       mkState b' (ptr + Z.max 8 (C.roundUp8 (numVerts * 16)))
               (trace st ++ [EvAlloc ptr (numVerts * 16)]))
    /\ C.getValue_i32 b' geofence = numVerts
    /\ C.getValue_i32 b' (geofence + 4) = ptr
    /\ (forall (k : nat) (p : Point), nth_error polygonArray k = Some p ->
          C.getValue_double b' (ptr + 16 * Z.of_nat k)
          = degsToRads (constrainLat (if isGeoJson then snd p else fst p))
          /\ C.getValue_double b' (ptr + 16 * Z.of_nat k + 8)
             = degsToRads (constrainLng (if isGeoJson then fst p else snd p)))
    /\ (forall a, a < geofence \/ geofence + 8 <= a ->
                  a < ptr \/ ptr + numVerts * 16 <= a -> b' a = buffer st a).
Proof.
  intros Hsz Hbrk Hg0 Hgal Hbelow Hptr Hn. cbv zeta.
  destruct (polygonArrayToGeofence_writes E polygonArray geofence isGeoJson st
              Hsz Hbrk Hg0 Hgal Hbelow) as (b' & Hrun & Hw0 & Hw1 & Hd & Hframe).
  pose proof (roundUp8_ge (brk st)).
  exists b'. rewrite toInt32_small in Hw0, Hw1 by lia.
  repeat split; try assumption; apply (Hd k p H0).
Qed.

(** The run of [coordinatesToGeoPolygon] on a single loop: the state it
    leaves and what the record and the array hold. *)
Lemma coordinatesToGeoPolygon_single_loop_run
      (E : H3.Engine) (outer : list Point) (isGeoJson : bool) (st : State) :
  H3.sizeOfGeoCoord E = 16 ->
  H3.sizeOfGeofence E = 8 ->
  0 <= brk st ->
  C.roundUp8 (brk st) + 24 < 2 ^ 31 ->
  Z.of_nat (List.length outer) < 2 ^ 31 ->
  let geoPolygon := C.roundUp8 (brk st) + 8 in
  let verts := geoPolygon + 16 in
  let numVerts := Z.of_nat (List.length outer) in
  exists b',
    coordinatesToGeoPolygon E [outer] isGeoJson st
    = (Return geoPolygon,
       mkState b' (verts + Z.max 8 (C.roundUp8 (numVerts * 16)))
               (trace st ++ [EvAlloc geoPolygon (SZ_GEOPOLYGON E * 0);
                             EvAlloc verts (numVerts * 16)]))
    /\ C.getValue_i32 b' geoPolygon = numVerts
    /\ C.getValue_i32 b' (geoPolygon + 4) = verts
    /\ C.getValue_i32 b' (geoPolygon + 8) = 0
    /\ C.getValue_i32 b' (geoPolygon + 12) = 0
    /\ (forall (k : nat) (p : Point), nth_error outer k = Some p ->
          C.getValue_double b' (verts + 16 * Z.of_nat k)
          = degsToRads (constrainLat (if isGeoJson then snd p else fst p))
          /\ C.getValue_double b' (verts + 16 * Z.of_nat k + 8)
             = degsToRads (constrainLng (if isGeoJson then fst p else snd p))).
Proof.
  intros Hcoord Hfence Hbrk Hfit Hlen. cbv zeta.
  destruct (roundUp8_aligned (brk st)) as (q & Hq & Hqge).
  set (header := C.roundUp8 (brk st) + 8) in *.
  set (n := Z.of_nat (List.length outer)) in *.
  set (st0 := mkState (fun a => if (header <=? a) && (a <? header + SZ_GEOPOLYGON E * 0)
                                then 0 else buffer st a)
                      (header + Z.max 8 (C.roundUp8 (SZ_GEOPOLYGON E * 0)))
                      (trace st ++ [EvAlloc header (SZ_GEOPOLYGON E * 0)])).
  assert (brk st0 = 8 * (q + 1)) as Hbrk0.
  { unfold st0. cbn [brk]. rewrite Z.mul_0_r. change (C.roundUp8 0) with 0.
    change (Z.max 8 0) with 8. lia. }
  assert (C.roundUp8 (brk st0) + 8 = header + 16) as Hverts
    by (rewrite Hbrk0, roundUp8_multiple; lia).
  destruct (polygonArrayToGeofence_layout E outer header isGeoJson st0 Hcoord)
    as (b1 & Hrun1 & Hw0 & Hw1 & Hd & _); try lia.
  { rewrite Hq. replace (8 * q) with (2 * q * 4) by lia. apply Z.mod_mul. lia. }
  rewrite Hverts in Hrun1, Hw1, Hd. fold n in Hrun1, Hw0.
  set (brk1 := header + 16 + Z.max 8 (C.roundUp8 (n * 16))) in *.
  set (b2 := C.setValue_i32 (C.setValue_i32 b1 (header + 8) (JInt 0)) (header + 12) JNaN).
  assert (coordinatesToGeoPolygon E [outer] isGeoJson st
          = (Return header,
             mkState b2 brk1
                     (trace st ++ [EvAlloc header (SZ_GEOPOLYGON E * 0);
                                   EvAlloc (header + 16) (n * 16)]))) as Hrun.
  { unfold coordinatesToGeoPolygon. unfold SZ_GEOFENCE. rewrite Hfence.
    cbn [List.length]. change (Z.of_nat 1 - 1) with 0. change (0 <? 0) with false.
    cbv iota.
    rewrite (bind_return (C._calloc (SZ_GEOPOLYGON E) 0) _ st st0 header eq_refl).
    rewrite Z.add_0_r, ?bind_assoc.
    rewrite (bind_return _ _ _ _ _ Hrun1).
    rewrite ?bind_assoc. step. rewrite ?bind_assoc. step. rewrite ?bind_assoc. step.
    unfold ret, st0, b2, C.SZ_INT. cbn [trace]. rewrite <- app_assoc.
    replace (header + (0 + 8 + 4)) with (header + 12) by lia.
    replace (header + (0 + 8)) with (header + 8) by lia. reflexivity. }
  exists b2. split; [exact Hrun|].
  assert (forall a, a < header + 8 \/ header + 16 <= a -> b2 a = b1 a) as Hout.
  { intros a Ha. unfold b2.
    replace (header + 12) with (4 * (2 * q + 3)) by lia.
    replace (header + 8) with (4 * (2 * q + 2)) by lia.
    rewrite !setValue_i32_aligned, !storeLE_outside by lia. reflexivity. }
  assert (C.getValue_i32 b2 (header + 8) = 0 /\ C.getValue_i32 b2 (header + 12) = 0)
    as [Hh8 Hh12].
  { unfold b2.
    replace (header + 12) with (4 * (2 * q + 3)) by lia.
    replace (header + 8) with (4 * (2 * q + 2)) by lia.
    rewrite !setValue_i32_aligned, !getValue_i32_aligned. cbv zeta.
    rewrite loadLE_storeLE_other by (change (Z.of_nat 4) with 4; lia).
    rewrite !loadLE_storeLE_word by (cbn; lia). split; reflexivity. }
  split.
  { rewrite <- Hw0. replace header with (4 * (2 * q)) by lia.
    apply getValue_i32_ext. intros a Ha. apply Hout. lia. }
  split.
  { rewrite <- Hw1. replace (header + 4) with (4 * (2 * q + 1)) by lia.
    apply getValue_i32_ext. intros a Ha. apply Hout. lia. }
  split; [exact Hh8|]. split; [exact Hh12|].
  intros k p Hk. destruct (Hd k p Hk) as [H1 H2]. rewrite <- H1, <- H2.
  replace (header + 16 + 16 * Z.of_nat k) with (8 * (q + 2 + 2 * Z.of_nat k)) by lia.
  replace (8 * (q + 2 + 2 * Z.of_nat k) + 8) with (8 * (q + 2 + 2 * Z.of_nat k + 1)) by lia.
  split; apply getValue_double_ext; intros a Ha; apply Hout; lia.
Qed.


(** X8.  The polygon record [coordinatesToGeoPolygon] builds for a single
    loop, read back from the heap: the vertex count, the address of the
    coordinate array, a hole count of 0 and a null hole pointer, and in the
    array, for each vertex in order, the latitude then the longitude, each
    constrained and converted to radians ([lng, lat] input pairs are swapped
    when [isGeoJson] is set).  Two blocks are allocated: the record and the
    array. *)
Theorem coordinatesToGeoPolygon_single_loop
    (E : H3.Engine) (outer : list Point) (isGeoJson : bool) (st : State) :
  H3.sizeOfGeoCoord E = 16 ->
  H3.sizeOfGeofence E = 8 ->
  0 <= brk st ->
  C.roundUp8 (brk st) + 24 < 2 ^ 31 ->
  Z.of_nat (List.length outer) < 2 ^ 31 ->
  let geoPolygon := C.roundUp8 (brk st) + 8 in
  let verts := geoPolygon + 16 in
  let st' := snd (coordinatesToGeoPolygon E [outer] isGeoJson st) in
  fst (coordinatesToGeoPolygon E [outer] isGeoJson st) = Return geoPolygon
  /\ allocated (eventsSince st st') = [geoPolygon; verts]
  /\ C.getValue_i32 (buffer st') geoPolygon = Z.of_nat (List.length outer)
  /\ C.getValue_i32 (buffer st') (geoPolygon + 4) = verts
  /\ C.getValue_i32 (buffer st') (geoPolygon + 8) = 0
  /\ C.getValue_i32 (buffer st') (geoPolygon + 12) = 0
  /\ (forall (k : nat) (p : Point), nth_error outer k = Some p ->
        C.getValue_double (buffer st') (verts + 16 * Z.of_nat k)
        = degsToRads (constrainLat (if isGeoJson then snd p else fst p))
        /\ C.getValue_double (buffer st') (verts + 16 * Z.of_nat k + 8)
           = degsToRads (constrainLng (if isGeoJson then fst p else snd p))).
Proof.
  intros Hcoord Hfence Hbrk Hfit Hlen. cbv zeta.
  destruct (coordinatesToGeoPolygon_single_loop_run E outer isGeoJson st
              Hcoord Hfence Hbrk Hfit Hlen) as (b' & Hrun & Hw0 & Hw1 & Hw2 & Hw3 & Hd).
  rewrite Hrun. cbn [fst snd buffer].
  split; [reflexivity|]. split.
  { rewrite (eventsSince_app st _ [EvAlloc (C.roundUp8 (brk st) + 8) (SZ_GEOPOLYGON E * 0);
                                   EvAlloc (C.roundUp8 (brk st) + 8 + 16)
                                           (Z.of_nat (List.length outer) * 16)])
      by reflexivity.
    reflexivity. }
  split; [exact Hw0|]. split; [exact Hw1|]. split; [exact Hw2|]. split; [exact Hw3|].
  exact Hd.
Qed.

Lemma coordinatesToGeoPolygon_single_loop_witness :
  H3.sizeOfGeoCoord (sampleEngine 0) = 16
  /\ H3.sizeOfGeofence (sampleEngine 0) = 8
  /\ 0 <= brk emptyState
  /\ C.roundUp8 (brk emptyState) + 24 < 2 ^ 31
  /\ Z.of_nat (List.length [(37.5, 190); (0, 1); (1, 0)]%float) < 2 ^ 31
  /\ C.getValue_i32
       (buffer (snd (coordinatesToGeoPolygon (sampleEngine 0)
                       [[(37.5, 190); (0, 1); (1, 0)]%float] false emptyState)))
       (C.roundUp8 (brk emptyState) + 8)
     = Z.of_nat (List.length [(37.5, 190); (0, 1); (1, 0)]%float).
Proof.
  split; [reflexivity|]. split; [reflexivity|]. split; [cbn; lia|].
  split; [reflexivity|]. split; [reflexivity|].
  apply (coordinatesToGeoPolygon_single_loop (sampleEngine 0)
           [(37.5, 190); (0, 1); (1, 0)]%float false emptyState);
    [reflexivity | reflexivity | cbn; lia | reflexivity | reflexivity].
Defined.

(** X19.  For every polygon of a single loop, built and then destroyed:
    [destroyGeoPolygon] frees the address equal to the number of vertices of
    the loop (the first word of the record, which it takes for the address of
    the coordinate array) and then the record itself; the coordinate array,
    16 bytes past the record, is allocated and not freed unless the vertex
    count happens to be its address. *)
Theorem geoPolygon_single_loop_frees
    (E : H3.Engine) (outer : list Point) (isGeoJson : bool) (st : State) :
  H3.sizeOfGeofence E = 8 ->
  Z.of_nat (List.length outer) < 2 ^ 31 ->
  let header := C.roundUp8 (brk st) + 8 in
  let events :=
    eventsSince st
      (snd ((geoPolygon <- coordinatesToGeoPolygon E [outer] isGeoJson ;;
             destroyGeoPolygon E geoPolygon) st)) in
  allocated events = [header; header + 16]
  /\ freed events = [Z.of_nat (List.length outer); header].
Proof. exact (destroyGeoPolygon_single_loop E outer isGeoJson st). Qed.

Lemma geoPolygon_single_loop_frees_witness :
  H3.sizeOfGeofence (sampleEngine 0) = 8
  /\ Z.of_nat (List.length [(0, 0); (0, 1); (1, 1); (1, 0)]%float) < 2 ^ 31
  /\ freed (eventsSince emptyState
              (snd ((geoPolygon <- coordinatesToGeoPolygon (sampleEngine 0)
                                     [[(0, 0); (0, 1); (1, 1); (1, 0)]%float] true ;;
                     destroyGeoPolygon (sampleEngine 0) geoPolygon) emptyState)))
     = [Z.of_nat (List.length [(0, 0); (0, 1); (1, 1); (1, 0)]%float);
        C.roundUp8 (brk emptyState) + 8].
Proof.
  split; [reflexivity|]. split; [reflexivity|].
  apply (geoPolygon_single_loop_frees (sampleEngine 0)
           [(0, 0); (0, 1); (1, 1); (1, 0)]%float true emptyState); reflexivity.
Defined.

(* ------------------------------------------------------------------------- *)
(** ** The operations and foreign memory *)

Lemma callLong_run (name : string) (f : Buffer -> Z * Z) (st : State) :
  callLong name f st
  = (Return (f (buffer st)),
     mkState (buffer st) (brk st) (trace st ++ [EvEngine name (Some (fst (f (buffer st))))])).
Proof. reflexivity. Qed.

(** X9.  [validateRes] accepts exactly the sixteen resolutions: it returns
    for the numbers 0, 1, ..., 15 (and -0, which equals 0) and throws
    [Invalid resolution] for every other value: a fraction, NaN, an infinity,
    a number out of range, a numeric string, [null], [undefined]. *)
Theorem validateRes_accepts_resolutions (res : JSValue) :
  (validateRes res = Return tt <-> isResolution res = true)
  /\ (validateRes res = Throw (InvalidResolution res) <-> isResolution res = false).
Proof.
  split; split.
  - apply validateRes_resolution.
  - apply isResolution_validateRes.
  - intros H. destruct (isResolution res) eqn:Hr; [|reflexivity].
    rewrite (isResolution_validateRes res Hr) in H. discriminate H.
  - apply validateRes_rejects.
Qed.

Ltac run :=
  repeat (rewrite ?bind_assoc; step);
  unfold ret, C._free, emit; cbn [fst snd trace buffer brk].

Ltac balanced :=
  rewrite <- ?app_assoc; cbn [app];
  eexists; split; [reflexivity|]; cbn [freed allocated flat_map app];
  split; [reflexivity | repeat constructor; cbn [In]; tauto].

Lemma lift_validateRes_run {A : Type} (res : JSValue) (k : unit -> M A) (st : State) :
  bind (lift (validateRes res)) k st
  = if isResolution res then k tt st else (Throw (InvalidResolution res), st).
Proof.
  unfold bind, lift. destruct (isResolution res) eqn:Hr.
  - rewrite (isResolution_validateRes res Hr). reflexivity.
  - rewrite (validateRes_rejects res Hr). reflexivity.
Qed.

(** The events of a call: every block allocated is freed, in order. *)
Lemma call_events (E : H3.Engine) (R : H3Rest.Engine) (call : Call) (st : State) :
  exists events,
    trace (stateAfter E R call st) = trace st ++ events
    /\ freed events = allocated events
    /\ NoDup (allocated events).
Proof.
  destruct call; unfold stateAfter, after.
  - unfold h3IsValid. destruct (h3AddressToSplitLong h3Address) as [lower upper].
    run. balanced.
  - unfold h3IsPentagon. destruct (h3AddressToSplitLong h3Address) as [lower upper].
    run. balanced.
  - unfold h3IsResClassIII. destruct (h3AddressToSplitLong h3Address) as [lower upper].
    run. balanced.
  - unfold h3GetBaseCell. destruct (h3AddressToSplitLong h3Address) as [lower upper].
    rewrite callInt_run. cbn [fst snd trace]. balanced.
  - unfold geoToH3. run. balanced.
  - unfold h3ToGeo. step. destruct (h3AddressToSplitLong h3Address) as [lower upper].
    run. balanced.
  - unfold h3ToGeoBoundary. step. destruct (h3AddressToSplitLong h3Address) as [lower upper].
    run. balanced.
  - unfold h3ToParent. destruct (h3AddressToSplitLong h3Address) as [lower upper].
    run. balanced.
  - unfold h3ToChildren. destruct (h3AddressToSplitLong h3Address) as [lower upper].
    run. balanced.
  - unfold kRing. destruct (h3AddressToSplitLong h3Address) as [lower upper].
    run. balanced.
  - destruct (hexRing_run E h3Address ringSize st) as (ptr & bytes & status & Htrace & _).
    rewrite Htrace. balanced.
  - destruct (compact_run E h3Set st) as [Htrace|(ptr1 & ptr2 & bytes & status & Htrace & Hne & _)].
    + rewrite Htrace. exists []. rewrite app_nil_r. repeat split. constructor.
    + rewrite Htrace. eexists; split; [reflexivity|]. cbn [freed allocated flat_map app].
      split; [reflexivity|]. repeat constructor; cbn [In]; intuition congruence.
  - destruct (uncompact_run E compactedSet res st)
      as [Htrace|(ptr1 & ptr2 & bytes1 & bytes2 & cap & status & Htrace & Hne & _)].
    + rewrite Htrace. exists []. rewrite app_nil_r. repeat split. constructor.
    + rewrite Htrace. eexists; split; [reflexivity|]. cbn [freed allocated flat_map app].
      split; [reflexivity|]. repeat constructor; cbn [In]; intuition congruence.
  - unfold h3IndexesAreNeighbors.
    destruct (h3AddressToSplitLong origin) as [oLower oUpper].
    destruct (h3AddressToSplitLong destination) as [dLower dUpper].
    run. balanced.
  - unfold getH3UnidirectionalEdge.
    destruct (h3AddressToSplitLong origin) as [oLower oUpper].
    destruct (h3AddressToSplitLong destination) as [dLower dUpper].
    run. balanced.
  - unfold getOriginH3IndexFromUnidirectionalEdge.
    destruct (h3AddressToSplitLong edgeAddress) as [lower upper]. run. balanced.
  - unfold getDestinationH3IndexFromUnidirectionalEdge.
    destruct (h3AddressToSplitLong edgeAddress) as [lower upper]. run. balanced.
  - unfold h3UnidirectionalEdgeIsValid.
    destruct (h3AddressToSplitLong edgeAddress) as [lower upper]. run. balanced.
  - unfold getH3IndexesFromUnidirectionalEdge.
    destruct (h3AddressToSplitLong edgeAddress) as [lower upper]. run. balanced.
  - unfold getH3UnidirectionalEdgesFromHexagon.
    destruct (h3AddressToSplitLong h3Address) as [lower upper]. run. balanced.
  - unfold getH3UnidirectionalEdgeBoundary. step.
    destruct (h3AddressToSplitLong edgeAddress) as [lower upper]. run. balanced.
  - unfold hexArea. rewrite lift_validateRes_run.
    destruct (isResolution res); [|exists []; rewrite app_nil_r; repeat split; constructor].
    destruct (strictEqString unit UNITS.m2); [unfold callNum; cbn [snd trace]; balanced|].
    destruct (strictEqString unit UNITS.km2); [unfold callNum; cbn [snd trace]; balanced|].
    exists []. rewrite app_nil_r. repeat split. constructor.
  - unfold edgeLength. rewrite lift_validateRes_run.
    destruct (isResolution res); [|exists []; rewrite app_nil_r; repeat split; constructor].
    destruct (strictEqString unit UNITS.m); [unfold callNum; cbn [snd trace]; balanced|].
    destruct (strictEqString unit UNITS.km); [unfold callNum; cbn [snd trace]; balanced|].
    exists []. rewrite app_nil_r. repeat split. constructor.
  - unfold numHexagons. rewrite lift_validateRes_run.
    destruct (isResolution res); [|exists []; rewrite app_nil_r; repeat split; constructor].
    step. unfold readLong. cbn [fst snd].
    destruct (H3Rest.numHexagons R res) as [lower upper]. cbn [fst snd].
    destruct (upper =? 0); unfold ret; cbn [snd trace]; balanced.
Qed.

(** X10.  Whatever the engine does and whatever the outcome, every operation
    of the module other than [polyfill], [kRingDistances] and
    [h3SetToMultiPolygon] frees exactly the blocks it allocated, in the order
    it allocated them, and no block twice. *)
Theorem calls_free_what_they_allocate
    (E : H3.Engine) (R : H3Rest.Engine) (call : Call) (st : State) :
  let events := eventsSince st (stateAfter E R call st) in
  freed events = allocated events /\ NoDup (allocated events).
Proof.
  destruct (call_events E R call st) as (events & Htrace & Hfreed & Hnodup).
  cbv zeta. rewrite (eventsSince_app _ _ _ Htrace). split; assumption.
Qed.

Ltac returned H :=
  unfold ret in H; cbn [fst] in H; injection H as <-.

(** X11.  An array query returns at most as many identifiers as its output
    array has slots: the engine's estimate for [h3ToChildren] and [kRing],
    [6 * ringSize] (1 for ring 0) for [hexRing], the size of the input for
    [compact], 2 and 6 for the two edge queries. *)
Theorem array_query_within_capacity
    (E : H3.Engine) (R : H3Rest.Engine) (query : ArrayQuery) (st : State)
    (out : list string) :
  fst (runArrayQuery E R query st) = Return out ->
  (List.length out <= Z.to_nat (capacity E R query))%nat.
Proof.
  destruct query; unfold runArrayQuery, capacity.
  - unfold h3ToChildren. destruct (h3AddressToSplitLong h3Address) as [lower upper].
    run. intros H. returned H. apply readArrayOfHexagons_length.
  - unfold kRing. destruct (h3AddressToSplitLong h3Address) as [lower upper].
    run. intros H. returned H. apply readArrayOfHexagons_length.
  - unfold hexRing. step. destruct (h3AddressToSplitLong h3Address) as [lower upper].
    step.
    match goal with |- context [H3.hexRing ?e ?a ?b ?c ?d ?f] =>
      destruct (H3.hexRing e a b c d f) as [status b'] end.
    cbn [fst snd].
    destruct (Z.eqb_spec status 0) as [Hz|Hnz]; cbn [negb]; run; intros H.
    + returned H. apply readArrayOfHexagons_length.
    + discriminate H.
  - destruct h3Set as [[|h rest]|]; try (intros H; returned H; cbn; lia).
    unfold compact.
    remember (Z.of_nat (List.length (h :: rest))) as count eqn:Hcount. clear Hcount.
    rewrite ?bind_assoc. step. rewrite ?bind_assoc. step. rewrite ?bind_assoc. step.
    rewrite ?bind_assoc. step.
    match goal with |- context [H3.compact ?e ?a ?b ?c ?d] =>
      destruct (H3.compact e a b c d) as [status b'] end.
    cbn [fst snd].
    destruct (Z.eqb_spec status 0) as [Hz|Hnz]; cbn [negb]; run; intros H.
    + returned H. apply readArrayOfHexagons_length.
    + discriminate H.
  - unfold getH3IndexesFromUnidirectionalEdge.
    destruct (h3AddressToSplitLong edgeAddress) as [lower upper].
    run. intros H. returned H. apply readArrayOfHexagons_length.
  - unfold getH3UnidirectionalEdgesFromHexagon.
    destruct (h3AddressToSplitLong h3Address) as [lower upper].
    run. intros H. returned H. apply readArrayOfHexagons_length.
Qed.

Lemma array_query_within_capacity_witness :
  fst (runArrayQuery (sampleEngine 0) sampleRest
         (QueryChildren (VStr "8928308f80fffff") (VNum 10)) emptyState)
  = Return ["8928308f80fffff"; "8928308ffffffff"]
  /\ (List.length ["8928308f80fffff"; "8928308ffffffff"]
      <= Z.to_nat (capacity (sampleEngine 0) sampleRest
                     (QueryChildren (VStr "8928308f80fffff") (VNum 10))))%nat.
Proof.
  split; [vm_compute; reflexivity|].
  apply (array_query_within_capacity (sampleEngine 0) sampleRest
           (QueryChildren (VStr "8928308f80fffff") (VNum 10)) emptyState).
  vm_compute. reflexivity.
Defined.

(** The result of an identifier query is what [readH3Address] makes of the
    words the engine returns. *)
Lemma identifier_query_result
      (E : H3.Engine) (R : H3Rest.Engine) (query : IdentifierQuery) (st : State) :
  fst (runIdentifierQuery E R query st) = Return (readH3Address (engineWords R query st)).
Proof.
  destruct query; unfold runIdentifierQuery, engineWords.
  - unfold geoToH3. run. reflexivity.
  - unfold h3ToParent. destruct (h3AddressToSplitLong h3Address) as [lower upper].
    run. reflexivity.
  - unfold getH3UnidirectionalEdge.
    destruct (h3AddressToSplitLong origin) as [oLower oUpper].
    destruct (h3AddressToSplitLong destination) as [dLower dUpper].
    run. reflexivity.
  - unfold getOriginH3IndexFromUnidirectionalEdge.
    destruct (h3AddressToSplitLong edgeAddress) as [lower upper]. run. reflexivity.
  - unfold getDestinationH3IndexFromUnidirectionalEdge.
    destruct (h3AddressToSplitLong edgeAddress) as [lower upper]. run. reflexivity.
Qed.

(** X12.  An operation that returns an identifier ([geoToH3], [h3ToParent],
    [getH3UnidirectionalEdge] and the origin and destination of an edge)
    never throws.  When the engine returns signed 32-bit words, the result is
    [null] exactly when the upper word is 0, whatever the lower word; and
    otherwise it is an identifier string (9 to 16 lowercase hexadecimal
    digits, no leading zero) that decodes to the two words, unsigned. *)
Theorem identifier_query_null_or_identifier
    (E : H3.Engine) (R : H3Rest.Engine) (query : IdentifierQuery) (st : State) :
  isInt32 (fst (engineWords R query st)) ->
  isInt32 (snd (engineWords R query st)) ->
  exists result,
    fst (runIdentifierQuery E R query st) = Return result
    /\ match result with
       | None => snd (engineWords R query st) = 0
       | Some s =>
           snd (engineWords R query st) <> 0
           /\ isIdentifierString s = true
           /\ h3AddressToSplitLong (VStr s)
              = (JInt (toUint32 (JInt (fst (engineWords R query st)))),
                 JInt (toUint32 (JInt (snd (engineWords R query st)))))
       end.
Proof.
  intros Hl Hu. rewrite identifier_query_result.
  destruct (engineWords R query st) as [lower upper]. cbn [fst snd] in *.
  unfold isInt32 in Hl, Hu.
  eexists. split; [reflexivity|].
  unfold readH3Address, readLong. cbn [fst snd].
  destruct (Z.eqb_spec upper 0) as [Hz|Hnz]; cbn [negb]; [exact Hz|].
  split; [exact Hnz|]. split.
  - rewrite splitLongToH3Address_digits_identifier by lia.
    apply negb_true_iff, Z.eqb_neq. cbn [toUint32].
    intros E0. apply Hnz.
    pose proof (Z.div_mod upper (2 ^ 32) ltac:(lia)) as Hdm. rewrite E0 in Hdm.
    assert (upper / 2 ^ 32 = 0 \/ upper / 2 ^ 32 = -1) as [Hq|Hq]; [|lia|lia].
    assert (-1 <= upper / 2 ^ 32 < 1); [|lia].
    split; [apply Z.div_le_lower_bound; lia | apply Z.div_lt_upper_bound; lia].
  - apply splitLong_decode; lia.
Qed.

Lemma identifier_query_null_or_identifier_witness :
  isInt32 (fst (engineWords sampleRest (QueryGeoToH3 37.5 (-122) (VNum 9)) emptyState))
  /\ isInt32 (snd (engineWords sampleRest (QueryGeoToH3 37.5 (-122) (VNum 9)) emptyState))
  /\ exists result,
       fst (runIdentifierQuery (sampleEngine 0) sampleRest
              (QueryGeoToH3 37.5 (-122) (VNum 9)) emptyState) = Return result
       /\ match result with
          | None => snd (engineWords sampleRest (QueryGeoToH3 37.5 (-122) (VNum 9)) emptyState) = 0
          | Some s =>
              snd (engineWords sampleRest (QueryGeoToH3 37.5 (-122) (VNum 9)) emptyState) <> 0
              /\ isIdentifierString s = true
              /\ h3AddressToSplitLong (VStr s)
                 = (JInt (toUint32 (JInt (fst (engineWords sampleRest
                                                 (QueryGeoToH3 37.5 (-122) (VNum 9)) emptyState)))),
                    JInt (toUint32 (JInt (snd (engineWords sampleRest
                                                 (QueryGeoToH3 37.5 (-122) (VNum 9)) emptyState)))))
          end.
Proof.
  split; [unfold isInt32; cbn; lia|]. split; [unfold isInt32; cbn; lia|].
  apply (identifier_query_null_or_identifier (sampleEngine 0) sampleRest
           (QueryGeoToH3 37.5 (-122) (VNum 9)) emptyState); unfold isInt32; cbn; lia.
Defined.

(** X13.  [geoToH3] hands the engine a coordinate record that reads back as
    the latitude, then the longitude, each constrained to the canonical
    domain and converted to radians; the result is what [readH3Address] makes
    of the engine's answer, and the record is freed. *)
Theorem geoToH3_marshals
    (E : H3.Engine) (R : H3Rest.Engine) (lat lng : float) (res : JSValue) (st : State) :
  0 <= brk st ->
  let latlng := geoToH3_latlng st in
  let b := geoToH3_heap lat lng st in
  C.getValue_double b latlng = degsToRads (constrainLat lat)
  /\ C.getValue_double b (latlng + 8) = degsToRads (constrainLng lng)
  /\ fst (geoToH3 E R lat lng res st) = Return (readH3Address (H3Rest.geoToH3 R latlng res b))
  /\ eventsSince st (after (geoToH3 E R lat lng res) st)
     = [EvAlloc latlng (SZ_GEOCOORD E);
        EvEngine "geoToH3" (Some (fst (H3Rest.geoToH3 R latlng res b)));
        EvFree latlng].
Proof.
  intros Hbrk. cbv zeta. unfold geoToH3_heap, geoToH3_latlng.
  destruct (roundUp8_aligned (brk st)) as (q & Hq & Hqge).
  set (latlng := C.roundUp8 (brk st) + 8) in *.
  assert (Z.quot latlng 8 = q) as Hquot.
  { rewrite Z.quot_div_nonneg by lia. rewrite Hq, Z.mul_comm, Z.div_mul; lia. }
  rewrite Hquot.
  destruct (HEAPF64_set_pair (buffer st) q (degsToRads (constrainLat lat))
                             (degsToRads (constrainLng lng))) as (H1 & H2 & _).
  rewrite <- Hq in H1, H2.
  split; [exact H1|]. split; [exact H2|].
  rewrite <- Hquot. split.
  - unfold geoToH3. run. reflexivity.
  - apply eventsSince_app. unfold after, geoToH3. run.
    rewrite <- !app_assoc. reflexivity.
Qed.

Lemma geoToH3_marshals_witness :
  0 <= brk emptyState
  /\ C.getValue_double (geoToH3_heap 37.5 190 emptyState) (geoToH3_latlng emptyState)
     = degsToRads (constrainLat 37.5)
  /\ C.getValue_double (geoToH3_heap 37.5 190 emptyState) (geoToH3_latlng emptyState + 8)
     = degsToRads (constrainLng 190).
Proof.
  split; [cbn; lia|].
  destruct (geoToH3_marshals (sampleEngine 0) sampleRest 37.5 190 (VNum 9) emptyState
              ltac:(cbn; lia)) as (H1 & H2 & _).
  split; [exact H1 | exact H2].
Defined.

(** X14.  The resolution is checked before anything else: with a resolution
    that is not one of 0, ..., 15, [polyfill], [uncompact] and [numHexagons]
    throw [Invalid resolution] without an allocation or an engine call,
    whatever the other arguments, an empty polygon or set included. *)
Theorem resolution_checked_first
    (E : H3.Engine) (R : H3Rest.Engine) (res : JSValue) (st : State) :
  isResolution res = false ->
  (forall (coordinates : Coordinates) (isGeoJson : JSValue),
      polyfill E coordinates res isGeoJson st = (Throw (InvalidResolution res), st))
  /\ (forall compactedSet : option (list JSValue),
         uncompact E compactedSet res st = (Throw (InvalidResolution res), st))
  /\ numHexagons R res st = (Throw (InvalidResolution res), st).
Proof.
  intros Hres. repeat split; intros; unfold polyfill, uncompact, numHexagons;
    rewrite lift_validateRes_run, Hres; reflexivity.
Qed.

Lemma resolution_checked_first_witness :
  isResolution (VNum 7.5) = false
  /\ uncompact (sampleEngine 0) (Some [VStr "8928308f80fffff"]) (VNum 7.5) emptyState
     = (Throw (InvalidResolution (VNum 7.5)), emptyState).
Proof.
  split; [reflexivity|].
  apply (resolution_checked_first (sampleEngine 0) sampleRest (VNum 7.5) emptyState).
  reflexivity.
Defined.

(** X15.  An empty or missing set is answered without the engine: [compact],
    [h3SetToMultiPolygon] and, for a valid resolution, [uncompact] return an
    empty array for [null], [undefined] and [[]], and leave the heap, the
    allocator and the engine untouched. *)
Theorem empty_set_touches_nothing
    (E : H3.Engine) (R : H3Rest.Engine) (h3Set : option (list JSValue)) (st : State) :
  h3Set = None \/ h3Set = Some [] ->
  compact E h3Set st = (Return [], st)
  /\ (forall res, isResolution res = true -> uncompact E h3Set res st = (Return [], st))
  /\ (forall fuel formatAsGeoJson,
         h3SetToMultiPolygon E R fuel h3Set formatAsGeoJson st = (Return (Some []), st)).
Proof.
  intros [-> | ->]; repeat split; intros; try reflexivity;
    unfold uncompact; rewrite lift_validateRes_run, H; reflexivity.
Qed.

Lemma empty_set_touches_nothing_witness :
  (Some ([] : list JSValue) = None \/ Some ([] : list JSValue) = Some [])
  /\ uncompact (sampleEngine 0) (Some []) (VNum 9) emptyState = (Return [], emptyState).
Proof.
  split; [right; reflexivity|].
  apply (empty_set_touches_nothing (sampleEngine 0) sampleRest (Some []) emptyState);
    [right; reflexivity | reflexivity].
Defined.

(* ------------------------------------------------------------------------- *)
(** ** [polyfill] and the blocks of its polygon *)

(** X21.  [polyfill] on a polygon of a single loop that is not empty, with
    a valid resolution and an engine that leaves the polygon record as it
    was: three blocks are allocated (the record, the coordinate array 16
    bytes past it, the output array) and three addresses are freed: the
    output array, the number of vertices of the loop, and the record.  The
    coordinate array is not freed unless the vertex count happens to be its
    address. *)
Theorem polyfill_single_loop_frees
    (E : H3.Engine) (coordinates : Coordinates) (outer : list Point)
    (res isGeoJson : JSValue) (st : State) :
  H3.sizeOfGeoCoord E = 16 ->
  H3.sizeOfGeofence E = 8 ->
  0 <= brk st ->
  C.roundUp8 (brk st) + 24 < 2 ^ 31 ->
  Z.of_nat (List.length outer) < 2 ^ 31 ->
  isResolution res = true ->
  outer <> [] ->
  coordinates = SingleLoop outer \/ coordinates = Loops [outer] ->
  let geoPolygon := polyfill_geoPolygon st in
  let hexagons := polyfill_hexagons E outer (truthy isGeoJson) st in
  (forall a, geoPolygon <= a < geoPolygon + 16 ->
             polyfill_left E outer res (truthy isGeoJson) st a
             = polyfill_given E outer res (truthy isGeoJson) st a) ->
  let events := eventsSince st (after (polyfill E coordinates res isGeoJson) st) in
  allocated events = [geoPolygon; geoPolygon + 16; hexagons]
  /\ freed events = [hexagons; Z.of_nat (List.length outer); geoPolygon].
Proof.
  intros Hcoord Hfence Hbrk Hfit Hlen Hres Hne Hshape. cbv zeta.
  destruct (coordinatesToGeoPolygon_single_loop_run E outer (truthy isGeoJson) st
              Hcoord Hfence Hbrk Hfit Hlen) as (b1 & Hrun & Hw0 & _ & Hw2 & _).
  cbv zeta in Hrun, Hw0, Hw2.
  destruct (roundUp8_aligned (brk st)) as (q & Hq & Hqge).
  unfold polyfill_left, polyfill_given, polyfill_hexagons, polyfill_geoPolygon, after.
  rewrite Hrun. cbn [snd fst brk buffer trace C._calloc C.allocate].
  set (header := C.roundUp8 (brk st) + 8) in *.
  set (n := Z.of_nat (List.length outer)) in *.
  set (brk1 := header + 16 + Z.max 8 (C.roundUp8 (n * 16))) in *.
  set (arrayLen := H3.maxPolyfillSize E header res b1).
  set (hexagons := C.roundUp8 brk1 + 8).
  set (given := fun a : Z =>
                  if (hexagons <=? a) && (a <? hexagons + arrayLen * SZ_H3INDEX E)
                  then 0 else b1 a).
  set (left := H3.polyfill E header res hexagons given).
  intros Hkept.
  assert (header + 24 <= hexagons) as Hfar.
  { unfold hexagons, brk1. pose proof (roundUp8_ge (header + 16 + Z.max 8 (C.roundUp8 (n * 16)))).
    lia. }
  assert (C.getValue_i32 left header = n /\ C.getValue_i32 left (header + 8) = 0)
    as [Hleft0 Hleft8].
  { rewrite <- Hw0, <- Hw2.
    pose proof (getValue_i32_ext left b1 (2 * q)) as Hext0.
    pose proof (getValue_i32_ext left b1 (2 * q + 2)) as Hext8.
    replace (4 * (2 * q)) with header in Hext0 by lia.
    replace (4 * (2 * q + 2)) with (header + 8) in Hext8 by lia.
    split; [apply Hext0 | apply Hext8]; intros a Ha; rewrite Hkept by lia;
      destruct (Z.leb_spec hexagons a); cbn [andb]; try reflexivity; lia. }
  assert (trace (snd (polyfill E coordinates res isGeoJson st))
          = trace st ++ [EvAlloc header (SZ_GEOPOLYGON E * 0); EvAlloc (header + 16) (n * 16);
                         EvEngine "maxPolyfillSize" (Some arrayLen);
                         EvAlloc hexagons (arrayLen * SZ_H3INDEX E);
                         EvEngine "polyfill" None;
                         EvFree hexagons; EvFree n; EvFree header]) as Htrace.
  { unfold polyfill. rewrite lift_validateRes_run, Hres.
    assert (isEmptyCoordinates coordinates = false) as ->.
    { destruct Hshape as [-> | ->]; destruct outer; cbn; congruence. }
    assert ((match coordinates with SingleLoop loop => [loop] | Loops loops => loops end)
            = [outer]) as -> by (destruct Hshape as [-> | ->]; reflexivity).
    rewrite ?bind_assoc. rewrite (bind_return _ _ _ _ _ Hrun).
    do 5 (rewrite ?bind_assoc; step). fold arrayLen hexagons given left.
    unfold destroyGeoPolygon, SZ_GEOFENCE. rewrite Hfence.
    rewrite ?bind_assoc. step. rewrite Z.add_0_r, Hleft0.
    rewrite ?bind_assoc. step. rewrite ?bind_assoc. step.
    replace (header + (0 + 8)) with (header + 8) by lia. rewrite Hleft8.
    cbn [Z.to_nat forRange]. run. rewrite <- !app_assoc. cbn [app]. reflexivity. }
  rewrite (eventsSince_app _ _ _ Htrace). split; reflexivity.
Qed.

Lemma polyfill_single_loop_frees_witness :
  H3.sizeOfGeoCoord (sampleEngine 0) = 16
  /\ H3.sizeOfGeofence (sampleEngine 0) = 8
  /\ 0 <= brk emptyState
  /\ C.roundUp8 (brk emptyState) + 24 < 2 ^ 31
  /\ Z.of_nat (List.length [(0, 0); (0, 1); (1, 0)]%float) < 2 ^ 31
  /\ isResolution (VNum 9) = true
  /\ [(0, 0); (0, 1); (1, 0)]%float <> []
  /\ (forall a,
         polyfill_geoPolygon emptyState <= a < polyfill_geoPolygon emptyState + 16 ->
         polyfill_left (sampleEngine 0) [(0, 0); (0, 1); (1, 0)]%float (VNum 9)
           (truthy VUndefined) emptyState a
         = polyfill_given (sampleEngine 0) [(0, 0); (0, 1); (1, 0)]%float (VNum 9)
             (truthy VUndefined) emptyState a)
  /\ freed (eventsSince emptyState
              (after (polyfill (sampleEngine 0) (SingleLoop [(0, 0); (0, 1); (1, 0)]%float)
                        (VNum 9) VUndefined) emptyState))
     = [polyfill_hexagons (sampleEngine 0) [(0, 0); (0, 1); (1, 0)]%float
          (truthy VUndefined) emptyState;
        Z.of_nat (List.length [(0, 0); (0, 1); (1, 0)]%float);
        polyfill_geoPolygon emptyState].
Proof.
  split; [reflexivity|]. split; [reflexivity|]. split; [cbn; lia|].
  split; [reflexivity|]. split; [reflexivity|]. split; [reflexivity|].
  split; [discriminate|]. split; [intros a _; reflexivity|].
  apply (polyfill_single_loop_frees (sampleEngine 0)
           (SingleLoop [(0, 0); (0, 1); (1, 0)]%float) [(0, 0); (0, 1); (1, 0)]%float
           (VNum 9) VUndefined emptyState);
    [reflexivity | reflexivity | cbn; lia | reflexivity | reflexivity | reflexivity
    | discriminate | left; reflexivity | intros a _; reflexivity].
Defined.

(* ------------------------------------------------------------------------- *)
(** ** Counts and boundaries *)

(** X24.  For a valid resolution, signed 32-bit words from the engine and a
    count below 2^52, [numHexagons] returns [upper * 2^32 + lower] exactly,
    with [lower] taken as the signed number it is: the result is the 64-bit
    count of these two words when the lower word is not negative, and 2^32
    less than it when the lower word is negative. *)
Theorem numHexagons_value (R : H3Rest.Engine) (res : JSValue) (st : State) :
  isResolution res = true ->
  isInt32 (fst (H3Rest.numHexagons R res)) ->
  0 <= snd (H3Rest.numHexagons R res) < 2 ^ 20 ->
  let lower := fst (H3Rest.numHexagons R res) in
  let upper := snd (H3Rest.numHexagons R res) in
  fst (numHexagons R res st) = Return (JInt (upper * 2 ^ 32 + lower))
  /\ upper * 2 ^ 32 + lower
     = upper * 2 ^ 32 + toUint32 (JInt lower) - (if lower <? 0 then 2 ^ 32 else 0).
Proof.
  intros Hres Hl Hu. cbv zeta. unfold isInt32 in Hl. split.
  - unfold numHexagons. rewrite lift_validateRes_run, Hres. step.
    unfold readLong. destruct (H3Rest.numHexagons R res) as [lower upper].
    cbn [fst snd] in *.
    destruct (Z.eqb_spec upper 0) as [->|Hnz]; [reflexivity|].
    unfold ret. cbn [fst]. f_equal.
    unfold toNumber.
    destruct (Z.ltb_spec (Z.abs (upper * 2 ^ 32)) (2 ^ 53)) as [_|?]; [|lia].
    unfold jsint_add, toNumber.
    destruct (Z.ltb_spec (Z.abs (upper * 2 ^ 32 + lower)) (2 ^ 53)) as [_|?]; [reflexivity | lia].
  - cbn [toUint32]. set (lower := fst (H3Rest.numHexagons R res)) in *.
    destruct (Z.ltb_spec lower 0).
    + replace lower with (lower + 2 ^ 32 + (-1) * 2 ^ 32) at 2 by lia.
      rewrite Z.mod_add, Z.mod_small by lia. lia.
    + rewrite Z.mod_small by lia. lia.
Qed.

Lemma numHexagons_value_witness :
  isResolution (VNum 9) = true
  /\ isInt32 (fst (H3Rest.numHexagons sampleRest (VNum 9)))
  /\ 0 <= snd (H3Rest.numHexagons sampleRest (VNum 9)) < 2 ^ 20
  /\ fst (numHexagons sampleRest (VNum 9) emptyState)
     = Return (JInt (snd (H3Rest.numHexagons sampleRest (VNum 9)) * 2 ^ 32
                     + fst (H3Rest.numHexagons sampleRest (VNum 9)))).
Proof.
  split; [reflexivity|]. split; [unfold isInt32; cbn; lia|]. split; [cbn; lia|].
  apply (numHexagons_value sampleRest (VNum 9) emptyState);
    [reflexivity | unfold isInt32; cbn; lia | cbn; lia].
Defined.

Example numHexagons_sample :
  fst (numHexagons sampleRest (VNum 9) emptyState) = Return (JInt 4842432842).
Proof. vm_compute. reflexivity. Qed.

(** X23.  [readGeoBoundary] returns as many points as the record counts,
    and one more when the loop is closed; so a closed boundary is never an
    empty array: closing a record of no vertex gives the one-element array
    [[undefined]]. *)
Theorem readGeoBoundary_length
    (b : Buffer) (geoBoundary : Z) (geoJsonCoords closedLoop : JSValue) :
  List.length (readGeoBoundary b geoBoundary geoJsonCoords closedLoop)
  = (Z.to_nat (C.getValue_i32 b geoBoundary) + (if truthy closedLoop then 1 else 0))%nat
  /\ (C.getValue_i32 b geoBoundary <= 0 -> truthy closedLoop = true ->
      readGeoBoundary b geoBoundary geoJsonCoords closedLoop = [None]).
Proof.
  rewrite readGeoBoundary_vertices. unfold closeLoop, boundaryVertices. split.
  - destruct (truthy closedLoop);
      rewrite ?List.length_app, length_map, length_seq; cbn [List.length]; lia.
  - intros Hz ->. replace (Z.to_nat (C.getValue_i32 b geoBoundary)) with 0%nat by lia.
    reflexivity.
Qed.

(* ------------------------------------------------------------------------- *)
(** ** [kRingDistances]: the identifiers sorted into rings *)

Lemma pushAt_length {A : Type} (out : list (list A)) (index : nat) (value : A) :
  List.length (pushAt out index value) = List.length out.
Proof.
  revert index. induction out as [|ring rest IH]; intros [|k]; cbn; auto.
Qed.

Lemma pushAt_map_seq {A : Type} (f : nat -> list A) (value : A) (r : nat) :
  forall (s index : nat), (index < r)%nat ->
  pushAt (map f (seq s r)) index value
  = map (fun d => if (d =? s + index)%nat then f d ++ [value] else f d) (seq s r).
Proof.
  induction r as [|r IH]; intros s index Hi; [lia|].
  cbn [seq map]. destruct index as [|k]; cbn [pushAt].
  - rewrite Nat.add_0_r, Nat.eqb_refl. f_equal.
    apply map_ext_in. intros d Hd. apply in_seq in Hd.
    destruct (Nat.eqb_spec d s); [lia | reflexivity].
  - destruct (Nat.eqb_spec s (s + S k)); [lia|]. f_equal.
    rewrite IH by lia. apply map_ext. intros d.
    replace (S s + k)%nat with (s + S k)%nat by lia. reflexivity.
Qed.

Lemma ringOf_S (b : Buffer) (kRings distances : Z) (n d : nat) :
  ringOf b kRings distances (S n) d
  = ringOf b kRings distances n d
    ++ (if negb (isSentinel (slot b kRings n)) && (distanceAt b distances n =? Z.of_nat d)
        then [slotToString (slot b kRings n)] else []).
Proof.
  unfold ringOf. rewrite seq_S, filter_app, map_app. cbn [Nat.add filter].
  destruct (negb (isSentinel (slot b kRings n)) && (distanceAt b distances n =? Z.of_nat d));
    reflexivity.
Qed.

Lemma sentinel_words (b : Buffer) (kRings : Z) (k : nat) :
  negb (fst (slot b kRings k) =? 0) || negb (snd (slot b kRings k) =? 0)
  = negb (isSentinel (slot b kRings k)).
Proof. unfold isSentinel. rewrite negb_andb. reflexivity. Qed.

(** One iteration of the loop, on slot [k]. *)
Lemma kRingDistances_loop_step
      (b : Buffer) (kRings distances : Z) (n k : nat) (out : list (list string)) :
  kRingDistances_loop b kRings distances (S n) (2 * Z.of_nat k) out
  = if negb (isSentinel (slot b kRings k)) then
      if (0 <=? distanceAt b distances k)
         && (distanceAt b distances k <? Z.of_nat (List.length out))
      then kRingDistances_loop b kRings distances n (2 * Z.of_nat (S k))
             (pushAt out (Z.to_nat (distanceAt b distances k)) (slotToString (slot b kRings k)))
      else Throw TypeError
    else kRingDistances_loop b kRings distances n (2 * Z.of_nat (S k)) out.
Proof.
  cbn [kRingDistances_loop]. unfold C.SZ_INT.
  replace (2 * Z.of_nat k / 2) with (Z.of_nat k) by (rewrite Z.mul_comm, Z.div_mul; lia).
  replace (2 * Z.of_nat k + 2) with (2 * Z.of_nat (S k)) by lia.
  rewrite <- sentinel_words. reflexivity.
Qed.

(** The loop sorts the slots into the rings. *)
Lemma kRingDistances_loop_rings (b : Buffer) (kRings distances : Z) (rings : nat) :
  forall (n k0 : nat),
    (forall k : nat, (k0 <= k < k0 + n)%nat ->
                     isSentinel (slot b kRings k) = false ->
                     0 <= distanceAt b distances k < Z.of_nat rings) ->
    kRingDistances_loop b kRings distances n (2 * Z.of_nat k0)
      (map (ringOf b kRings distances k0) (seq 0 rings))
    = Return (map (ringOf b kRings distances (k0 + n)) (seq 0 rings)).
Proof.
  induction n as [|n IH]; intros k0 Hrange.
  - rewrite Nat.add_0_r. reflexivity.
  - rewrite kRingDistances_loop_step, length_map, length_seq.
    replace (k0 + S n)%nat with (S k0 + n)%nat by lia.
    destruct (isSentinel (slot b kRings k0)) eqn:Hs; cbn [negb].
    + rewrite <- IH by (intros k Hk; apply Hrange; lia). f_equal.
      apply map_ext. intros d. rewrite ringOf_S, Hs. cbn [negb andb].
      rewrite app_nil_r. reflexivity.
    + pose proof (Hrange k0 ltac:(lia) Hs) as Hd.
      destruct (Z.leb_spec 0 (distanceAt b distances k0)) as [_|?]; [|lia].
      destruct (Z.ltb_spec (distanceAt b distances k0) (Z.of_nat rings)) as [_|?]; [|lia].
      cbn [andb]. rewrite <- IH by (intros k Hk; apply Hrange; lia). f_equal.
      rewrite pushAt_map_seq by lia. apply map_ext. intros d.
      rewrite ringOf_S, Hs. cbn [negb andb Nat.add].
      destruct (Nat.eqb_spec d (Z.to_nat (distanceAt b distances k0))) as [->|Hne].
      * rewrite Z2Nat.id, Z.eqb_refl by lia. reflexivity.
      * destruct (Z.eqb_spec (distanceAt b distances k0) (Z.of_nat d)) as [E|_].
        -- rewrite E, Nat2Z.id in Hne. congruence.
        -- rewrite app_nil_r. reflexivity.
Qed.

(** A slot that is not empty and whose distance is not an index of the
    output makes the loop throw. *)
Lemma kRingDistances_loop_throws (b : Buffer) (kRings distances : Z) :
  forall (n k0 : nat) (out : list (list string)) (bad : nat),
    (k0 <= bad < k0 + n)%nat ->
    isSentinel (slot b kRings bad) = false ->
    ~ (0 <= distanceAt b distances bad < Z.of_nat (List.length out)) ->
    kRingDistances_loop b kRings distances n (2 * Z.of_nat k0) out = Throw TypeError.
Proof.
  induction n as [|n IH]; intros k0 out bad Hbad Hs Hd; [lia|].
  rewrite kRingDistances_loop_step.
  destruct (Nat.eq_dec bad k0) as [->|Hne].
  - rewrite Hs. cbn [negb].
    destruct (Z.leb_spec 0 (distanceAt b distances k0)),
             (Z.ltb_spec (distanceAt b distances k0) (Z.of_nat (List.length out)));
      cbn [andb]; try reflexivity. lia.
  - destruct (negb (isSentinel (slot b kRings k0))).
    + destruct ((0 <=? distanceAt b distances k0)
                && (distanceAt b distances k0 <? Z.of_nat (List.length out)));
        [|reflexivity].
      apply (IH (S k0) _ bad); [lia | exact Hs | rewrite pushAt_length; exact Hd].
    + apply (IH (S k0) _ bad); [lia | exact Hs | exact Hd].
Qed.

Lemma repeat_nil_rings (b : Buffer) (kRings distances : Z) (rings : nat) :
  repeat ([] : list string) rings = map (ringOf b kRings distances 0) (seq 0 rings).
Proof.
  generalize 0%nat at 2. induction rings as [|r IH]; intros s; [reflexivity|].
  cbn [repeat seq map]. rewrite <- IH. reflexivity.
Qed.

(** What a run of [kRingDistances] returns and does, from the result of its
    loop on the heap the engine leaves. *)
Lemma kRingDistances_run
      (E : H3.Engine) (R : H3Rest.Engine) (h3Address : JSValue) (ringSize : Z) (st : State) :
  let maxCount := H3.maxKringSize E ringSize in
  let kRings := kRingDistances_kRings st in
  let distances := kRingDistances_distances E ringSize st in
  let b := kRingDistances_heap E R h3Address ringSize st in
  let result := kRingDistances_loop b kRings distances (Z.to_nat maxCount) 0
                  (repeat [] (Z.to_nat (ringSize + 1))) in
  fst (kRingDistances E R h3Address ringSize st) = result
  /\ eventsSince st (after (kRingDistances E R h3Address ringSize) st)
     = [EvEngine "maxKringSize" (Some maxCount);
        EvAlloc kRings (maxCount * SZ_H3INDEX E);
        EvAlloc distances (maxCount * C.SZ_INT);
        EvEngine "kRingDistances" None]
       ++ match result with
          | Return _ => [EvFree kRings; EvFree distances]
          | Throw _ => []
          end.
Proof.
  cbv zeta.
  unfold kRingDistances, kRingDistances_heap, kRingDistances_kRings,
    kRingDistances_distances, after.
  destruct (h3AddressToSplitLong h3Address) as [lower upper].
  do 5 (rewrite ?bind_assoc; step).
  cbn [fst snd brk buffer trace C._calloc C.allocate].
  match goal with |- context [lift ?r] => destruct r as [out|e] eqn:Hloop end.
  - run. split; [reflexivity|].
    apply eventsSince_app. rewrite <- !app_assoc. reflexivity.
  - rewrite (bind_throw (lift (Throw e)) _ _ _ e eq_refl). cbn [fst snd trace].
    split; [reflexivity|].
    apply eventsSince_app. rewrite <- !app_assoc. reflexivity.
Qed.

(** X16.  [kRingDistances] sorts what the engine wrote into rings: when
    every slot that is not empty has a distance from 0 to [ringSize], the
    result has [ringSize + 1] arrays, and the array at index [d] holds the
    identifiers of the slots of distance [d], in the order of the slots,
    empty slots skipped.  Both arrays are then freed. *)
Theorem kRingDistances_rings
    (E : H3.Engine) (R : H3Rest.Engine) (h3Address : JSValue) (ringSize : Z) (st : State) :
  let maxCount := H3.maxKringSize E ringSize in
  let kRings := kRingDistances_kRings st in
  let distances := kRingDistances_distances E ringSize st in
  let b := kRingDistances_heap E R h3Address ringSize st in
  let events := eventsSince st (after (kRingDistances E R h3Address ringSize) st) in
  (forall k : nat, (k < Z.to_nat maxCount)%nat ->
                   isSentinel (slot b kRings k) = false ->
                   0 <= distanceAt b distances k <= ringSize) ->
  fst (kRingDistances E R h3Address ringSize st)
  = Return (map (ringOf b kRings distances (Z.to_nat maxCount))
                (seq 0 (Z.to_nat (ringSize + 1))))
  /\ allocated events = [kRings; distances]
  /\ freed events = [kRings; distances].
Proof.
  cbv zeta. intros Hrange.
  destruct (kRingDistances_run E R h3Address ringSize st) as [Hres Hev]. cbv zeta in Hres, Hev.
  pose proof (kRingDistances_loop_rings
                (kRingDistances_heap E R h3Address ringSize st)
                (kRingDistances_kRings st) (kRingDistances_distances E ringSize st)
                (Z.to_nat (ringSize + 1)) (Z.to_nat (H3.maxKringSize E ringSize)) 0) as Hloop.
  change (2 * Z.of_nat 0) with 0 in Hloop. cbn [Nat.add] in Hloop.
  rewrite <- repeat_nil_rings in Hloop.
  rewrite Hloop in Hres, Hev
    by (intros k Hk Hs; specialize (Hrange k ltac:(lia) Hs); lia).
  rewrite Hres, Hev. repeat split.
Qed.

Lemma kRingDistances_rings_witness :
  (forall k : nat,
      (k < Z.to_nat (H3.maxKringSize (sampleEngine 0) 1))%nat ->
      isSentinel (slot (kRingDistances_heap (sampleEngine 0) sampleRest
                          (VStr "8928308f80fffff") 1 emptyState)
                       (kRingDistances_kRings emptyState) k) = false ->
      0 <= distanceAt (kRingDistances_heap (sampleEngine 0) sampleRest
                         (VStr "8928308f80fffff") 1 emptyState)
                      (kRingDistances_distances (sampleEngine 0) 1 emptyState) k <= 1)
  /\ fst (kRingDistances (sampleEngine 0) sampleRest (VStr "8928308f80fffff") 1 emptyState)
     = Return (map (ringOf (kRingDistances_heap (sampleEngine 0) sampleRest
                              (VStr "8928308f80fffff") 1 emptyState)
                           (kRingDistances_kRings emptyState)
                           (kRingDistances_distances (sampleEngine 0) 1 emptyState)
                           (Z.to_nat (H3.maxKringSize (sampleEngine 0) 1)))
                   (seq 0 (Z.to_nat (1 + 1)))).
Proof.
  assert (forall k : nat,
             (k < Z.to_nat (H3.maxKringSize (sampleEngine 0) 1))%nat ->
             isSentinel (slot (kRingDistances_heap (sampleEngine 0) sampleRest
                                 (VStr "8928308f80fffff") 1 emptyState)
                              (kRingDistances_kRings emptyState) k) = false ->
             0 <= distanceAt (kRingDistances_heap (sampleEngine 0) sampleRest
                                (VStr "8928308f80fffff") 1 emptyState)
                             (kRingDistances_distances (sampleEngine 0) 1 emptyState) k <= 1)
    as Hrange.
  { intros k Hk _. change (Z.to_nat (H3.maxKringSize (sampleEngine 0) 1)) with 7%nat in Hk.
    do 7 (destruct k as [|k]; [vm_compute; split; discriminate|]). lia. }
  split; [exact Hrange|].
  apply (kRingDistances_rings (sampleEngine 0) sampleRest (VStr "8928308f80fffff") 1 emptyState
           Hrange).
Defined.

Example kRingDistances_sample :
  fst (kRingDistances (sampleEngine 0) sampleRest (VStr "8928308f80fffff") 1 emptyState)
  = Return [["8928308f80fffff"]; ["8928308ffffffff"]].
Proof. vm_compute. reflexivity. Qed.

(** X17.  [kRingDistances] throws a [TypeError], and frees neither of its two
    arrays, when a slot that is not empty has a distance that is not an index
    of the output (negative, or above [ringSize]). *)
Theorem kRingDistances_stray_distance
    (E : H3.Engine) (R : H3Rest.Engine) (h3Address : JSValue) (ringSize : Z) (st : State)
    (k : nat) :
  let maxCount := H3.maxKringSize E ringSize in
  let kRings := kRingDistances_kRings st in
  let distances := kRingDistances_distances E ringSize st in
  let b := kRingDistances_heap E R h3Address ringSize st in
  let events := eventsSince st (after (kRingDistances E R h3Address ringSize) st) in
  (k < Z.to_nat maxCount)%nat ->
  isSentinel (slot b kRings k) = false ->
  ~ (0 <= distanceAt b distances k <= ringSize) ->
  fst (kRingDistances E R h3Address ringSize st) = Throw TypeError
  /\ allocated events = [kRings; distances]
  /\ freed events = [].
Proof.
  cbv zeta. intros Hk Hs Hd.
  destruct (kRingDistances_run E R h3Address ringSize st) as [Hres Hev]. cbv zeta in Hres, Hev.
  pose proof (kRingDistances_loop_throws
                (kRingDistances_heap E R h3Address ringSize st)
                (kRingDistances_kRings st) (kRingDistances_distances E ringSize st)
                (Z.to_nat (H3.maxKringSize E ringSize)) 0
                (repeat [] (Z.to_nat (ringSize + 1))) k ltac:(lia) Hs) as Hloop.
  change (2 * Z.of_nat 0) with 0 in Hloop.
  rewrite Hloop in Hres, Hev by (rewrite repeat_length; lia).
  rewrite Hres, Hev. repeat split.
Qed.

Lemma kRingDistances_stray_distance_witness :
  (0 < Z.to_nat (H3.maxKringSize (sampleEngine 0) (-1)))%nat
  /\ isSentinel (slot (kRingDistances_heap (sampleEngine 0) sampleRest
                         (VStr "8928308f80fffff") (-1) emptyState)
                      (kRingDistances_kRings emptyState) 0) = false
  /\ ~ (0 <= distanceAt (kRingDistances_heap (sampleEngine 0) sampleRest
                           (VStr "8928308f80fffff") (-1) emptyState)
                        (kRingDistances_distances (sampleEngine 0) (-1) emptyState) 0 <= -1)
  /\ fst (kRingDistances (sampleEngine 0) sampleRest (VStr "8928308f80fffff") (-1) emptyState)
     = Throw TypeError.
Proof.
  split; [vm_compute; reflexivity|]. split; [vm_compute; reflexivity|].
  split; [lia|].
  apply (kRingDistances_stray_distance (sampleEngine 0) sampleRest (VStr "8928308f80fffff")
           (-1) emptyState 0); [vm_compute; reflexivity | vm_compute; reflexivity | lia].
Defined.

(* ------------------------------------------------------------------------- *)
(** ** [h3SetToMultiPolygon]: the linked outline read and released *)

(** X18.  For a set that is not empty, when the engine leaves a well-formed
    linked structure at the polygon block and the walk has fuel for its
    nodes, [h3SetToMultiPolygon] returns the polygons of the structure, loop
    by loop (each loop closed when [formatAsGeoJson] is set); the engine
    releases the linked structure once, after the walk, and then the polygon
    block and the input set are freed. *)
Theorem h3SetToMultiPolygon_outline
    (E : H3.Engine) (R : H3Rest.Engine) (fuel : nat)
    (first : JSValue) (others : list JSValue) (formatAsGeoJson : JSValue) (st : State)
    (polygons : list (list (list Z))) :
  let h3Addresses := first :: others in
  let set := h3SetToMultiPolygon_set st in
  let polygon := h3SetToMultiPolygon_polygon E h3Addresses st in
  let b := h3SetToMultiPolygon_heap E R h3Addresses st in
  LinkedPolygons b polygon polygons ->
  (nodeCount polygons <= fuel)%nat ->
  fst (h3SetToMultiPolygon E R fuel (Some h3Addresses) formatAsGeoJson st)
  = Return (Some (map (map (loopOfNodes b formatAsGeoJson)) polygons))
  /\ eventsSince st (after (h3SetToMultiPolygon E R fuel (Some h3Addresses) formatAsGeoJson) st)
     = [EvAlloc set (Z.of_nat (List.length h3Addresses) * SZ_H3INDEX E);
        EvAlloc polygon (SZ_LINKED_GEOPOLYGON E * 0);
        EvEngine "h3SetToLinkedGeo" None;
        EvEngine "destroyLinkedPolygon" None;
        EvFree polygon;
        EvFree set].
Proof.
  cbv zeta. intros Hlinked Hfuel.
  pose proof (readMultiPolygon_result fuel _ _ formatAsGeoJson polygons Hlinked Hfuel) as Hread.
  revert Hread. clear Hlinked.
  unfold h3SetToMultiPolygon, h3SetToMultiPolygon_heap, h3SetToMultiPolygon_polygon,
    h3SetToMultiPolygon_set, after.
  remember (Z.of_nat (List.length (first :: others))) as count eqn:Hcount. clear Hcount.
  rewrite ?bind_assoc.
  rewrite (bind_return (C._calloc count (SZ_H3INDEX E)) _ st _ _ eq_refl).
  cbn [snd fst brk buffer trace C._calloc C.allocate].
  set (st1 := mkState _ _ _).
  destruct (storeArrayOfHexagons_state (C.roundUp8 (brk st) + 8) (first :: others) st1)
    as [b2 Hb2].
  rewrite ?bind_assoc. rewrite (bind_return _ _ _ _ _ Hb2). rewrite Hb2.
  unfold st1. cbn [snd brk buffer trace].
  do 3 (rewrite ?bind_assoc; step). cbn [snd brk buffer trace].
  intros Hread. rewrite Hread. run.
  split; [reflexivity|].
  apply eventsSince_app. rewrite <- !app_assoc. reflexivity.
Qed.

Lemma sampleOutline_linked :
  LinkedPolygons sampleOutline
    (h3SetToMultiPolygon_polygon (sampleEngine 0) [VStr "8928308f80fffff"] emptyState)
    [[[4128]]].
Proof.
  change (h3SetToMultiPolygon_polygon (sampleEngine 0) [VStr "8928308f80fffff"] emptyState)
    with 24.
  assert (C.getValue_i32 sampleOutline (24 + 8) = 0) as Hp8 by (vm_compute; reflexivity).
  assert (C.getValue_i32 sampleOutline 24 = 4096) as Hp by (vm_compute; reflexivity).
  assert (C.getValue_i32 sampleOutline (4096 + 8) = 0) as Hl8 by (vm_compute; reflexivity).
  assert (C.getValue_i32 sampleOutline 4096 = 4128) as Hl by (vm_compute; reflexivity).
  assert (C.getValue_i32 sampleOutline (4128 + 16) = 0) as Hc by (vm_compute; reflexivity).
  exists [24]. split.
  - apply LinkedList_node; [discriminate|]. rewrite Hp8. apply LinkedList_null.
  - apply Forall2_cons; [|apply Forall2_nil]. exists [4096]. split.
    + rewrite Hp. apply LinkedList_node; [discriminate|]. rewrite Hl8. apply LinkedList_null.
    + apply Forall2_cons; [|apply Forall2_nil]. rewrite Hl.
      apply LinkedList_node; [discriminate|]. rewrite Hc. apply LinkedList_null.
Qed.

Lemma h3SetToMultiPolygon_outline_witness :
  LinkedPolygons sampleOutline
    (h3SetToMultiPolygon_polygon (sampleEngine 0) [VStr "8928308f80fffff"] emptyState)
    [[[4128]]]
  /\ (nodeCount [[[4128]]]%Z <= 3)%nat
  /\ fst (h3SetToMultiPolygon (sampleEngine 0) sampleRest 3 (Some [VStr "8928308f80fffff"])
            (VBool true) emptyState)
     = Return (Some (map (map (loopOfNodes sampleOutline (VBool true))) [[[4128]]])).
Proof.
  split; [exact sampleOutline_linked|]. split; [vm_compute; lia|].
  apply (h3SetToMultiPolygon_outline (sampleEngine 0) sampleRest 3 (VStr "8928308f80fffff") []
           (VBool true) emptyState [[[4128]]]).
  - exact sampleOutline_linked.
  - vm_compute; lia.
Defined.

Example h3SetToMultiPolygon_sample :
  fst (h3SetToMultiPolygon (sampleEngine 0) sampleRest 3 (Some [VStr "8928308f80fffff"])
         (VBool true) emptyState)
  = Return (Some [[[Some (180, 0); Some (180, 0)]]]%float).
Proof. vm_compute. reflexivity. Qed.

(* ------------------------------------------------------------------------- *)
(** ** Angles that are already canonical *)

Lemma Pos_compare_cont_antisym (p q : positive) (c : comparison) :
  Pos.compare_cont (CompOpp c) q p = CompOpp (Pos.compare_cont c p q).
Proof.
  symmetry. apply Pos.compare_cont_antisym.
Qed.

(** Comparing two numbers the other way round gives the opposite result. *)
Lemma SFcompare_antisym (x y : spec_float) :
  SFcompare y x = option_map CompOpp (SFcompare x y).
Proof.
  destruct x as [sx|sx| |sx mx ex], y as [sy|sy| |sy my ey]; cbn [SFcompare option_map];
    try reflexivity;
    try (destruct sx; reflexivity); try (destruct sy; reflexivity);
    try (destruct sx, sy; reflexivity).
  destruct sx, sy; try reflexivity.
  - rewrite (Z.compare_antisym ex ey). destruct (ex ?= ey); cbn [CompOpp option_map];
      try reflexivity.
    rewrite <- (Pos_compare_cont_antisym mx my Eq). reflexivity.
  - rewrite (Z.compare_antisym ex ey). destruct (ex ?= ey); cbn [CompOpp option_map];
      try reflexivity.
    rewrite <- (Pos_compare_cont_antisym mx my Eq). reflexivity.
Qed.

Lemma leb_not_ltb (x c : float) : (x <=? c)%float = true -> (c <? x)%float = false.
Proof.
  rewrite leb_spec, ltb_spec. unfold SFleb, SFltb.
  rewrite (SFcompare_antisym (Prim2SF x) (Prim2SF c)).
  destruct (SFcompare (Prim2SF x) (Prim2SF c)) as [[| |]|]; cbn; congruence.
Qed.

(** X22.  [constrainLat] and [constrainLng] leave an angle of the canonical
    domain as it is (latitude up to 90, longitude up to 180), so an angle in
    the engine's range that has been constrained once is not changed by
    constraining it again, as when a point read from the engine is passed
    back to [geoToH3] or [polyfill]. *)
Theorem constrain_fixes_canonical (x : float) :
  (canonicalLat x = true -> constrainLat x = x)
  /\ (canonicalLng x = true -> constrainLng x = x)
  /\ (engineLat x = true -> constrainLat (constrainLat x) = constrainLat x)
  /\ (engineLng x = true -> constrainLng (constrainLng x) = constrainLng x).
Proof.
  assert (forall y, canonicalLat y = true -> constrainLat y = y) as Hlat.
  { intros y H. unfold canonicalLat in H. apply andb_true_iff in H as [_ H].
    unfold constrainLat. rewrite (leb_not_ltb y 90 H). reflexivity. }
  assert (forall y, canonicalLng y = true -> constrainLng y = y) as Hlng.
  { intros y H. unfold canonicalLng in H. apply andb_true_iff in H as [_ H].
    unfold constrainLng. rewrite (leb_not_ltb y 180 H). reflexivity. }
  split; [apply Hlat|]. split; [apply Hlng|]. split; intros H.
  - apply Hlat, constrainLat_range, H.
  - apply Hlng, constrainLng_range, H.
Qed.

(* ------------------------------------------------------------------------- *)
(** ** The polygon record with holes *)

Lemma roundUp8_mono (m n : Z) : m <= n -> C.roundUp8 m <= C.roundUp8 n.
Proof.
  intros H. unfold C.roundUp8.
  pose proof (Z.div_le_mono (m + 7) (n + 7) 8 ltac:(lia) ltac:(lia)). lia.
Qed.

(** A stored loop is read the same from a heap that agrees on the record and
    between the bounds of the array. *)
Lemma loopStored_ext (b1 b2 : Buffer) (r : Z) (isGeoJson : bool) (loop : list Point)
      (lo hi : Z) :
  loopStored b1 (4 * r) isGeoJson loop lo hi ->
  (forall a, 4 * r <= a < 4 * r + 8 -> b2 a = b1 a) ->
  (forall a, lo <= a < hi -> b2 a = b1 a) ->
  loopStored b2 (4 * r) isGeoJson loop lo hi.
Proof.
  intros [[Hcount Hverts] (q & Hptr & Hlo & Hhi)] Hrec Harr.
  assert (C.getValue_i32 b2 (4 * r) = C.getValue_i32 b1 (4 * r)) as E0
    by (apply getValue_i32_ext; intros a Ha; apply Hrec; lia).
  assert (C.getValue_i32 b2 (4 * r + 4) = C.getValue_i32 b1 (4 * r + 4)) as E4.
  { replace (4 * r + 4) with (4 * (r + 1)) by lia.
    apply getValue_i32_ext; intros a Ha; apply Hrec; lia. }
  split; [split|].
  - rewrite E0. exact Hcount.
  - intros k p Hk. rewrite E4. destruct (Hverts k p Hk) as [H1 H2].
    rewrite <- H1, <- H2, Hptr.
    assert (Z.of_nat k < Z.of_nat (List.length loop)) as Hkn.
    { apply Nat2Z.inj_lt. apply nth_error_Some. congruence. }
    replace (8 * q + 16 * Z.of_nat k) with (8 * (q + 2 * Z.of_nat k)) by lia.
    replace (8 * (q + 2 * Z.of_nat k) + 8) with (8 * (q + 2 * Z.of_nat k + 1)) by lia.
    split; apply getValue_double_ext; intros a Ha; apply Harr; lia.
  - exists q. rewrite E4. repeat split; assumption.
Qed.

Lemma loopStored_weaken (b : Buffer) (geofence : Z) (isGeoJson : bool) (loop : list Point)
      (lo hi lo' hi' : Z) :
  loopStored b geofence isGeoJson loop lo hi -> lo' <= lo -> hi <= hi' ->
  loopStored b geofence isGeoJson loop lo' hi'.
Proof.
  intros [Hholds (q & Hptr & Hlo & Hhi)] H1 H2. split; [exact Hholds|].
  exists q. repeat split; [exact Hptr | lia | lia].
Qed.

(** What [polygonArrayToGeofence] stores, when the addresses fit in 31
    bits. *)
Lemma polygonArrayToGeofence_stores
      (E : H3.Engine) (loop : list Point) (r : Z) (isGeoJson : bool) (st : State) :
  H3.sizeOfGeoCoord E = 16 ->
  0 <= brk st -> 0 <= r -> 4 * r + 8 <= C.roundUp8 (brk st) + 8 ->
  exists st',
    polygonArrayToGeofence E loop (4 * r) isGeoJson st = (Return (4 * r), st')
    /\ C.roundUp8 (brk st) + 16 <= brk st'
    /\ (exists bytes, trace st' = trace st ++ [EvAlloc (C.roundUp8 (brk st) + 8) bytes])
    /\ (forall a, a < 4 * r \/ 4 * r + 8 <= a -> a < C.roundUp8 (brk st) + 8 ->
                  buffer st' a = buffer st a)
    /\ (brk st' < 2 ^ 31 ->
        loopStored (buffer st') (4 * r) isGeoJson loop (C.roundUp8 (brk st) + 8) (brk st')).
Proof.
  intros Hsz Hbrk Hr Hbelow.
  destruct (polygonArrayToGeofence_writes E loop (4 * r) isGeoJson st Hsz Hbrk
              ltac:(lia) ltac:(rewrite Z.mul_comm; apply Z.mod_mul; lia) Hbelow)
    as (b' & Hrun & Hw0 & Hw1 & Hd & Hframe).
  cbv zeta in *.
  pose proof (roundUp8_ge (brk st)) as Hge.
  pose proof (roundUp8_ge (Z.of_nat (List.length loop) * 16)) as Hge'.
  destruct (roundUp8_aligned (brk st)) as (q & Hq & _).
  eexists. split; [exact Hrun|]. cbn [brk trace buffer].
  split; [lia|]. split; [eexists; reflexivity|]. split.
  - intros a Ha1 Ha2. apply Hframe; [exact Ha1 | lia].
  - intros Hfit. rewrite toInt32_small in Hw0, Hw1 by lia.
    split; [split|].
    + exact Hw0.
    + intros k p Hk. rewrite Hw1. apply (Hd k p Hk).
    + exists q. rewrite Hw1. repeat split; lia.
Qed.

(** The loop that builds the holes: record [i0 + j] of the array at [4 * h]
    holds hole [j], and the memory below the first new block is unchanged
    outside the records. *)
Lemma holes_stored (E : H3.Engine) (isGeoJson : bool) (h : Z) (rest : list (list Point)) :
  H3.sizeOfGeoCoord E = 16 -> 0 <= h ->
  forall (i0 : nat) (st : State),
    0 <= brk st ->
    4 * h + 8 * (Z.of_nat i0 + Z.of_nat (List.length rest)) <= brk st ->
    let body := fun (i : Z) (loop : list Point) =>
      polygonArrayToGeofence E loop (4 * h + 8 * i) isGeoJson ;;; ret tt in
    exists st',
      forEachFrom (Z.of_nat i0) rest body st = (Return tt, st')
      /\ brk st <= brk st'
      /\ (exists events, trace st' = trace st ++ events
                         /\ List.length (allocated events) = List.length rest
                         /\ freed events = [])
      /\ (forall a, a < 4 * h + 8 * Z.of_nat i0
                    \/ 4 * h + 8 * (Z.of_nat i0 + Z.of_nat (List.length rest)) <= a ->
                    a < C.roundUp8 (brk st) + 8 -> buffer st' a = buffer st a)
      /\ (brk st' < 2 ^ 31 ->
          forall (j : nat) (hole : list Point), nth_error rest j = Some hole ->
            loopStored (buffer st') (4 * h + 8 * Z.of_nat (i0 + j)) isGeoJson hole
                       (C.roundUp8 (brk st) + 8) (brk st')).
Proof.
  intros Hsz Hh. induction rest as [|hole rest IH]; intros i0 st Hbrk Hbelow body.
  - exists st. split; [reflexivity|]. split; [lia|]. split.
    { exists []. rewrite app_nil_r. repeat split. }
    split; [reflexivity|]. intros _ [|j] hole Hj; discriminate Hj.
  - cbn [List.length] in Hbelow. cbn [forEachFrom].
    pose proof (roundUp8_ge (brk st)) as Hge.
    destruct (polygonArrayToGeofence_stores E hole (h + 2 * Z.of_nat i0) isGeoJson st
                Hsz Hbrk ltac:(lia) ltac:(lia))
      as (st1 & Hrun1 & Hbrk1 & (bytes & Htrace1) & Hframe1 & Hstored1).
    replace (4 * (h + 2 * Z.of_nat i0)) with (4 * h + 8 * Z.of_nat i0) in * by lia.
    assert (brk st <= brk st1) as Hle1 by lia.
    destruct (IH (S i0) st1 ltac:(lia) ltac:(lia))
      as (st' & Hrun & Hbrk' & (events & Htrace & Hallocs & Hfrees) & Hframe & Hstored).
    fold body in Hrun.
    exists st'. split.
    { unfold body at 1. rewrite !bind_assoc. rewrite (bind_return _ _ _ _ _ Hrun1).
      step. replace (Z.of_nat i0 + 1) with (Z.of_nat (S i0)) by lia. exact Hrun. }
    split; [lia|]. split.
    { exists (EvAlloc (C.roundUp8 (brk st) + 8) bytes :: events).
      rewrite Htrace, Htrace1, <- app_assoc. cbn [app allocated freed flat_map List.length].
      fold (allocated events). fold (freed events). rewrite Hallocs, Hfrees.
      repeat split. }
    pose proof (roundUp8_mono _ _ Hle1) as Hmono.
    pose proof (roundUp8_ge (brk st1)) as Hge1.
    split.
    + intros a Ha1 Ha2. cbn [List.length] in Ha1.
      rewrite Hframe by lia. apply Hframe1; lia.
    + intros Hfit [|j] hole' Hj.
      * cbn [nth_error] in Hj. injection Hj as <-. rewrite Nat.add_0_r.
        specialize (Hstored1 ltac:(lia)).
        apply (loopStored_weaken _ _ _ _ (C.roundUp8 (brk st) + 8) (brk st1)); [|lia|lia].
        replace (4 * h + 8 * Z.of_nat i0) with (4 * (h + 2 * Z.of_nat i0)) in * by lia.
        apply (loopStored_ext (buffer st1)); [exact Hstored1| |].
        -- intros a Ha. apply Hframe; lia.
        -- intros a Ha. apply Hframe; lia.
      * cbn [nth_error] in Hj. replace (i0 + S j)%nat with (S i0 + j)%nat by lia.
        apply (loopStored_weaken _ _ _ _ (C.roundUp8 (brk st1) + 8) (brk st'));
          [apply (Hstored Hfit j hole' Hj) | lia | lia].
Qed.

Lemma setValue_i32_read (b : Buffer) (k : Z) (v : jsint) :
  C.getValue_i32 (C.setValue_i32 b (4 * k) v) (4 * k) = toInt32 v
  /\ forall a, a < 4 * k \/ 4 * k + 4 <= a -> C.setValue_i32 b (4 * k) v a = b a.
Proof.
  rewrite setValue_i32_aligned, getValue_i32_aligned. cbv zeta. split.
  - rewrite loadLE_storeLE_word by apply toUint32_range. apply int32_of_uint32.
  - intros a Ha. apply storeLE_outside. lia.
Qed.

(** The run of [coordinatesToGeoPolygon] on a loop and at least one hole, up
    to the two words written last. *)
Lemma coordinatesToGeoPolygon_holes_run
      (E : H3.Engine) (outer : list Point) (holes : list (list Point)) (isGeoJson : bool)
      (st : State) :
  H3.sizeOfGeoCoord E = 16 ->
  H3.sizeOfGeofence E = 8 ->
  0 <= brk st ->
  holes <> [] ->
  let header := C.roundUp8 (brk st) + 8 in
  exists (st3 : State) (holesArray : Z),
    coordinatesToGeoPolygon E (outer :: holes) isGeoJson st
    = (Return header,
       mkState (C.setValue_i32
                  (C.setValue_i32 (buffer st3) (header + 8)
                                  (JInt (Z.of_nat (List.length holes))))
                  (header + 12) (JInt holesArray))
               (brk st3) (trace st3))
    /\ header + 16 < holesArray
    /\ holesArray + 8 * Z.of_nat (List.length holes) <= brk st3
    /\ holesArray mod 8 = 0
    /\ (exists events, trace st3 = trace st ++ events
                       /\ List.length (allocated events) = (3 + List.length holes)%nat
                       /\ freed events = [])
    /\ (brk st3 < 2 ^ 31 ->
        loopStored (buffer st3) header isGeoJson outer (header + 16) holesArray
        /\ forall (j : nat) (hole : list Point), nth_error holes j = Some hole ->
             loopStored (buffer st3) (holesArray + 8 * Z.of_nat j) isGeoJson hole
                        holesArray (brk st3)).
Proof.
  intros Hcoord Hfence Hbrk Hne. cbv zeta.
  destruct (roundUp8_aligned (brk st)) as (q & Hq & Hqge).
  set (header := C.roundUp8 (brk st) + 8) in *.
  set (n := Z.of_nat (List.length holes)).
  assert (0 < n) as Hn by (unfold n; destruct holes; [congruence | cbn [List.length]; lia]).
  set (st0 := mkState (fun a => if (header <=? a) && (a <? header + SZ_GEOPOLYGON E * 0)
                                then 0 else buffer st a)
                      (header + Z.max 8 (C.roundUp8 (SZ_GEOPOLYGON E * 0)))
                      (trace st ++ [EvAlloc header (SZ_GEOPOLYGON E * 0)])).
  assert (brk st0 = header + 8) as Hbrk0.
  { unfold st0. cbn [brk]. rewrite Z.mul_0_r. change (C.roundUp8 0) with 0.
    change (Z.max 8 0) with 8. lia. }
  assert (C.roundUp8 (brk st0) + 8 = header + 16) as Hverts.
  { rewrite Hbrk0, Hq. replace (8 * q + 8) with (8 * (q + 1)) by lia.
    rewrite roundUp8_multiple. lia. }
  destruct (polygonArrayToGeofence_stores E outer (2 * q) isGeoJson st0 Hcoord
              ltac:(lia) ltac:(lia) ltac:(lia))
    as (st1 & Hrun1 & Hbrk1 & (bytes1 & Htrace1) & Hframe1 & Hstored1).
  replace (4 * (2 * q)) with header in * by lia.
  rewrite Hverts in *.
  destruct (roundUp8_aligned (brk st1)) as (q2 & Hq2 & Hq2ge).
  set (holesArray := C.roundUp8 (brk st1) + 8) in *.
  set (st2 := mkState (fun a => if (holesArray <=? a) && (a <? holesArray + n * 8)
                                then 0 else buffer st1 a)
                      (holesArray + Z.max 8 (C.roundUp8 (n * 8)))
                      (trace st1 ++ [EvAlloc holesArray (n * 8)])).
  pose proof (roundUp8_ge (n * 8)) as Hgen.
  destruct (holes_stored E isGeoJson (2 * q2) holes Hcoord ltac:(lia) 0 st2
              ltac:(unfold st2; cbn [brk]; lia) ltac:(unfold st2; cbn [brk]; lia))
    as (st3 & Hrun3 & Hbrk3 & (events3 & Htrace3 & Hallocs3 & Hfrees3) & Hframe3 & Hstored3).
  cbv zeta in Hrun3. replace (4 * (2 * q2)) with holesArray in * by lia.
  change (Z.of_nat 0) with 0 in *.
  assert (brk st2 = holesArray + Z.max 8 (C.roundUp8 (n * 8))) as Hbrk2 by reflexivity.
  exists st3, holesArray. split.
  { unfold coordinatesToGeoPolygon. unfold SZ_GEOFENCE. rewrite Hfence.
    cbn [List.length]. replace (Z.of_nat (S (List.length holes)) - 1) with n by (unfold n; lia).
    destruct (Z.ltb_spec 0 n) as [_|?]; [|lia].
    rewrite (bind_return (C._calloc (SZ_GEOPOLYGON E) 0) _ st st0 header eq_refl).
    rewrite Z.add_0_r, ?bind_assoc.
    rewrite (bind_return _ _ _ _ _ Hrun1).
    rewrite ?bind_assoc.
    rewrite (bind_return (C._calloc n 8) _ st1 st2 holesArray eq_refl).
    rewrite ?bind_assoc. rewrite (bind_return _ _ _ _ _ Hrun3).
    rewrite ?bind_assoc. step. rewrite ?bind_assoc. step. rewrite ?bind_assoc. step.
    unfold ret, C.SZ_INT.
    replace (header + (0 + 8 + 4)) with (header + 12) by lia.
    replace (header + (0 + 8)) with (header + 8) by lia. reflexivity. }
  split; [lia|]. split; [fold n; lia|]. split.
  { rewrite Hq2. rewrite Z.mul_comm. apply Z.mod_mul. lia. }
  split.
  { exists ([EvAlloc header (SZ_GEOPOLYGON E * 0); EvAlloc (header + 16) bytes1;
             EvAlloc holesArray (n * 8)] ++ events3).
    rewrite Htrace3. unfold st2. cbn [trace]. rewrite Htrace1. unfold st0. cbn [trace].
    rewrite <- !app_assoc. split; [reflexivity|].
    cbn [app allocated freed flat_map List.length].
    fold (allocated events3). fold (freed events3). rewrite Hallocs3, Hfrees3.
    split; reflexivity. }
  pose proof (roundUp8_ge (brk st1)) as Hge1.
  pose proof (roundUp8_ge (brk st2)) as Hge2.
  intros Hfit. split.
  - specialize (Hstored1 ltac:(lia)).
    replace header with (4 * (2 * q)) in Hstored1 |- * by lia.
    apply (loopStored_weaken _ _ _ _ (4 * (2 * q) + 16) (brk st1)); [|lia|lia].
    apply (loopStored_ext (buffer st1)); [exact Hstored1| |].
    + intros a Ha. rewrite Hframe3 by lia. unfold st2. cbn [buffer].
      destruct (Z.leb_spec holesArray a); cbn [andb]; [lia | reflexivity].
    + intros a Ha. rewrite Hframe3 by lia. unfold st2. cbn [buffer].
      destruct (Z.leb_spec holesArray a); cbn [andb]; [lia | reflexivity].
  - intros j hole Hj. specialize (Hstored3 Hfit j hole Hj). cbn [Nat.add] in Hstored3.
    apply (loopStored_weaken _ _ _ _ (C.roundUp8 (brk st2) + 8) (brk st3));
      [exact Hstored3 | lia | lia].
Qed.

(** X25.  The polygon record [coordinatesToGeoPolygon] builds for a loop
    with holes, read back from the heap: the record holds the outer loop, its
    third word is the number of holes and its fourth the address of an array
    of loop records, one per hole in order, each holding its hole: the vertex
    count and a coordinate array with the latitude then the longitude of each
    vertex, constrained and in radians.  Every loop has its own array: with
    the record and the array of hole records, [holes + 3] blocks are
    allocated, and none is freed. *)
Theorem coordinatesToGeoPolygon_with_holes
    (E : H3.Engine) (outer : list Point) (holes : list (list Point)) (isGeoJson : bool)
    (st : State) :
  H3.sizeOfGeoCoord E = 16 ->
  H3.sizeOfGeofence E = 8 ->
  0 <= brk st ->
  holes <> [] ->
  let st' := after (coordinatesToGeoPolygon E (outer :: holes) isGeoJson) st in
  brk st' < 2 ^ 31 ->
  let geoPolygon := C.roundUp8 (brk st) + 8 in
  let holesArray := C.getValue_i32 (buffer st') (geoPolygon + 12) in
  fst (coordinatesToGeoPolygon E (outer :: holes) isGeoJson st) = Return geoPolygon
  /\ geofenceHolds (buffer st') geoPolygon isGeoJson outer
  /\ C.getValue_i32 (buffer st') (geoPolygon + 8) = Z.of_nat (List.length holes)
  /\ (forall (j : nat) (hole : list Point), nth_error holes j = Some hole ->
        geofenceHolds (buffer st') (holesArray + 8 * Z.of_nat j) isGeoJson hole)
  /\ List.length (allocated (eventsSince st st')) = (3 + List.length holes)%nat
  /\ freed (eventsSince st st') = [].
Proof.
  intros Hcoord Hfence Hbrk Hne. cbv zeta. unfold after.
  destruct (coordinatesToGeoPolygon_holes_run E outer holes isGeoJson st Hcoord Hfence Hbrk Hne)
    as (st3 & holesArray & Hrun & Hfar & Hin & Hal & (events & Htrace & Hallocs & Hfrees)
        & Hstored).
  cbv zeta in Hrun. rewrite Hrun. cbn [fst snd brk buffer trace]. intros Hfit.
  destruct (Hstored Hfit) as [Houter Hholes]. clear Hstored.
  destruct (roundUp8_aligned (brk st)) as (q & Hq & Hqge).
  set (header := C.roundUp8 (brk st) + 8) in *.
  set (n := Z.of_nat (List.length holes)) in *.
  assert (holesArray = 8 * (holesArray / 8)) as Hq2.
  { pose proof (Z.div_mod holesArray 8 ltac:(lia)). lia. }
  set (q2 := holesArray / 8) in *.
  set (b1 := C.setValue_i32 (buffer st3) (header + 8) (JInt n)).
  set (bF := C.setValue_i32 b1 (header + 12) (JInt holesArray)).
  destruct (setValue_i32_read (buffer st3) (2 * q + 2) (JInt n)) as [Hr8 Hf8].
  destruct (setValue_i32_read b1 (2 * q + 3) (JInt holesArray)) as [Hr12 Hf12].
  replace (4 * (2 * q + 2)) with (header + 8) in * by lia.
  replace (4 * (2 * q + 3)) with (header + 12) in * by lia.
  fold b1 in Hr8, Hf8. fold bF in Hr12, Hf12.
  assert (forall a, a < header + 8 \/ header + 16 <= a -> bF a = buffer st3 a) as Hout.
  { intros a Ha. rewrite Hf12 by lia. apply Hf8. lia. }
  assert (C.getValue_i32 bF (header + 12) = holesArray) as Hword12.
  { rewrite Hr12. apply toInt32_small. lia. }
  assert (C.getValue_i32 bF (header + 8) = n) as Hword8.
  { rewrite <- (toInt32_small n) by lia. rewrite <- Hr8.
    pose proof (getValue_i32_ext bF b1 (2 * q + 2)) as Hext.
    replace (4 * (2 * q + 2)) with (header + 8) in Hext by lia.
    apply Hext. intros a Ha. apply Hf12. lia. }
  split; [reflexivity|]. split.
  { replace header with (4 * (2 * q)) in Houter |- * by lia.
    apply (loopStored_ext (buffer st3) bF) in Houter; [exact (proj1 Houter)| |];
      intros a Ha; apply Hout; lia. }
  split; [exact Hword8|]. split.
  { intros j hole Hj. rewrite Hword12. specialize (Hholes j hole Hj).
    assert (Z.of_nat j < n) as Hjn.
    { unfold n. apply Nat2Z.inj_lt. apply nth_error_Some. congruence. }
    replace (holesArray + 8 * Z.of_nat j) with (4 * (2 * q2 + 2 * Z.of_nat j)) in * by lia.
    apply (loopStored_ext (buffer st3) bF) in Hholes; [exact (proj1 Hholes)| |];
      intros a Ha; apply Hout; lia. }
  rewrite (eventsSince_app st (mkState bF (brk st3) (trace st3)) events Htrace).
  split; assumption.
Qed.

Lemma coordinatesToGeoPolygon_with_holes_witness :
  H3.sizeOfGeoCoord (sampleEngine 0) = 16
  /\ H3.sizeOfGeofence (sampleEngine 0) = 8
  /\ 0 <= brk emptyState
  /\ [[(0.25, 0.25); (0.25, 0.5); (0.5, 0.5)]%float] <> []
  /\ brk (after (coordinatesToGeoPolygon (sampleEngine 0)
                   [[(0, 0); (0, 1); (1, 0)]%float;
                    [(0.25, 0.25); (0.25, 0.5); (0.5, 0.5)]%float] false) emptyState)
     < 2 ^ 31
  /\ C.getValue_i32
       (buffer (after (coordinatesToGeoPolygon (sampleEngine 0)
                         [[(0, 0); (0, 1); (1, 0)]%float;
                          [(0.25, 0.25); (0.25, 0.5); (0.5, 0.5)]%float] false) emptyState))
       (C.roundUp8 (brk emptyState) + 8 + 8)
     = Z.of_nat (List.length [[(0.25, 0.25); (0.25, 0.5); (0.5, 0.5)]%float]).
Proof.
  split; [reflexivity|]. split; [reflexivity|]. split; [cbn; lia|].
  split; [discriminate|]. split; [vm_compute; reflexivity|].
  assert (brk (after (coordinatesToGeoPolygon (sampleEngine 0)
                        [[(0, 0); (0, 1); (1, 0)]%float;
                         [(0.25, 0.25); (0.25, 0.5); (0.5, 0.5)]%float] false) emptyState)
          < 2 ^ 31) as Hfit by (vm_compute; reflexivity).
  exact (proj1 (proj2 (proj2
           (coordinatesToGeoPolygon_with_holes (sampleEngine 0)
              [(0, 0); (0, 1); (1, 0)]%float [[(0.25, 0.25); (0.25, 0.5); (0.5, 0.5)]%float]
              false emptyState eq_refl eq_refl ltac:(cbn; lia) ltac:(discriminate) Hfit)))).
Defined.
